(** * twitch-menu: the navigation and dispatch engine of [twitch/app.py]

    A shallow embedding of [TwitchApp] (src/twitch/app.py) and the
    properties of its screens.

    The collaborators of the engine are not part of the engine and are
    modelled at their interface:
    - the menu ([pyselector]'s [MenuInterface]) answers from a script of
      pending user answers kept in the world; an exhausted script means
      that the menu is still waiting for the user;
    - the fetcher ([TwitchFetcher]) is a table of results, each a failure
      or the data;
    - the player ([sh.mpv]), the clipboard and the browser only leave an
      event in the trace of the world;
    - the registry of keybinds follows pyselector's [KeyManager];
    - logging is not modelled.

    Python objects that are shared and mutated in place (items, keybinds)
    live in stores indexed by references. A keybind action that a screen
    calls in tail position ([return await k.action(...)]) is the outcome of
    the screen: what the action does is not part of the screen.

    First the model, then its properties. *)

From Stdlib Require Import List ZArith String Ascii Bool Lia.
From Stdlib Require Import Sorted Permutation DecimalString RelationClasses.
Import ListNotations.

Open Scope string_scope.
Open Scope Z_scope.

Set Implicit Arguments.

(** ** Python dictionaries

    A [dict] keeps its keys in insertion order; assigning to a key that is
    present replaces the value and keeps the position of the key. *)

Class Hashable (K : Type) := {
  key_eqb : K -> K -> bool;
  key_eqb_eq : forall a b, key_eqb a b = true <-> a = b
}.

#[global] Instance Hashable_string : Hashable string :=
  {| key_eqb := String.eqb; key_eqb_eq := String.eqb_eq |}.

#[global] Instance Hashable_Z : Hashable Z :=
  {| key_eqb := Z.eqb; key_eqb_eq := Z.eqb_eq |}.

Section PyDict.
Context {K V : Type} `{Hashable K}.

Definition dict := list (K * V).

(** [d.get(k)] *)
Fixpoint dict_get (k : K) (d : dict) : option V :=
  match d with
  | [] => None
  | (k', v) :: d' => if key_eqb k' k then Some v else dict_get k d'
  end.

(** [d[k] = v] *)
Fixpoint dict_set (k : K) (v : V) (d : dict) : dict :=
  match d with
  | [] => [(k, v)]
  | (k', v') :: d' =>
      if key_eqb k' k then (k', v) :: d' else (k', v') :: dict_set k v d'
  end.

(** [list(d.keys())] and [list(d.values())] *)
Definition dict_keys (d : dict) : list K := map fst d.
Definition dict_values (d : dict) : list V := map snd d.

(** [del d[k]] for a key that is present *)
Fixpoint dict_del (k : K) (d : dict) : dict :=
  match d with
  | [] => []
  | (k', v') :: d' =>
      if key_eqb k' k then d' else (k', v') :: dict_del k d'
  end.

(** [d.setdefault(k, v)]: the value under [k] afterwards, and the
    dictionary afterwards. *)
Definition dict_setdefault (k : K) (v : V) (d : dict) : V * dict :=
  match dict_get k d with
  | Some v' => (v', d)
  | None => (v, dict_set k v d)
  end.

(** [dict(pairs)] *)
Definition dict_of_pairs (l : list (K * V)) : dict :=
  fold_left (fun d kv => dict_set (fst kv) (snd kv) d) l [].
End PyDict.

Arguments dict : clear implicits.

(** [{key(x): x for x in l}] *)
Definition dict_by {K A : Type} `{Hashable K} (key : A -> K) (l : list A)
  : dict K A :=
  dict_of_pairs (map (fun x => (key x, x)) l).

(** ** Python built-ins *)

(** [sorted(l, key=key, reverse=True)]: descending and stable, elements
    with equal keys keep their order. *)
Fixpoint insert_desc {A : Type} (key : A -> Z) (x : A) (l : list A)
  : list A :=
  match l with
  | [] => [x]
  | y :: l' =>
      if key x <? key y then y :: insert_desc key x l' else x :: l
  end.

Definition sorted_desc {A : Type} (key : A -> Z) (l : list A) : list A :=
  fold_right (insert_desc key) [] l.

(** [sum(l)] *)
Definition sumZ (l : list Z) : Z := fold_right Z.add 0 l.

(** [str(n)] for a length. *)
Definition str_of_nat (n : nat) : string :=
  NilZero.string_of_uint (Nat.to_uint n).

Definition str_of_Z (z : Z) : string :=
  NilZero.string_of_int (Z.to_int z).

(** A character of a [str] is whitespace for [str.strip] when
    [str.isspace] holds of it; a [string] holds the code points of the
    [str], which are taken below 256. *)
Definition is_space (c : ascii) : bool :=
  let n := nat_of_ascii c in
  ((9 <=? n) && (n <=? 13) || (28 <=? n) && (n <=? 32)
   || (n =? 133) || (n =? 160))%nat.

Fixpoint lstrip (s : string) : string :=
  match s with
  | EmptyString => EmptyString
  | String c s' => if is_space c then lstrip s' else s
  end.

Fixpoint rstrip (s : string) : string :=
  match s with
  | EmptyString => EmptyString
  | String c s' =>
      match rstrip s' with
      | EmptyString => if is_space c then EmptyString else String c EmptyString
      | t => String c t
      end
  end.

(** [s.strip()] *)
Definition strip (s : string) : string := rstrip (lstrip s).

(** [s.split(sep, maxsplit=1)] for a non-empty [sep]: the text before and
    after the first occurrence of [sep], when there is one. *)
Fixpoint split_once (sep s : string) : option (string * string) :=
  if prefix sep s then
    Some (EmptyString, substring (String.length sep)
                         (String.length s - String.length sep) s)
  else
    match s with
    | EmptyString => None
    | String c s' =>
        match split_once sep s' with
        | Some (a, b) => Some (String c a, b)
        | None => None
        end
    end.

(** The double quote and the line feed, for messages. *)
Definition dquote : string := String (ascii_of_nat 34) EmptyString.
Definition nl : string := String (ascii_of_nat 10) EmptyString.

(** ** Data model *)

(** A reference to an object of a store. *)
Definition ref := nat.

(** The attributes of [TwitchChannel] and [TwitchContent]
    (twitch/datatypes.py) that the engine reads or writes. *)
Record Item := mkItem {
  i_id : string;
  i_key : string;
  i_user_id : string;
  i_name : string;
  i_url : string;
  i_title : string;
  i_playable : bool;
  i_live : bool;
  i_game_name : string;
  i_viewer_count : Z;
  i_created_at : Z;
  i_chat : string
}.

Definition set_title (t : string) (i : Item) : Item :=
  {| i_id := i_id i; i_key := i_key i; i_user_id := i_user_id i;
     i_name := i_name i; i_url := i_url i; i_title := t;
     i_playable := i_playable i; i_live := i_live i;
     i_game_name := i_game_name i; i_viewer_count := i_viewer_count i;
     i_created_at := i_created_at i; i_chat := i_chat i |}.

(** The store of item objects. *)
Definition ItemStore := ref -> Item.

Definition store_set {A : Type} (r : ref) (a : A) (s : ref -> A) : ref -> A :=
  fun r' => if Nat.eqb r' r then a else s r'.

(** [Category] (twitch/models/category.py): a name and the channels of the
    category, keyed by channel name. *)
Record Category := mkCategory {
  c_name : string;
  c_channels : dict string ref
}.

(** A game of the search results. *)
Record Game := mkGame {
  g_id : string;
  g_name : string
}.

(** ** Grouping by category ([show_group_by_cat], lines 117-132) *)

Section Grouping.
Variable h : ItemStore.

Definition live_channels (c : Category) : list ref :=
  filter (fun r => i_live (h r)) (dict_values (c_channels c)).

(** Modelled from the spec: [Category.total_viewers] is in
    twitch/models/category.py, a module other than app.py; section 3 of
    the specification describes it as the sum of viewers across the live
    channels of the category. *)
Definition total_viewers (c : Category) : Z :=
  sumZ (map (fun r => i_viewer_count (h r)) (live_channels c)).

(** Modelled from the spec: [Category.channels_live] is in
    twitch/models/category.py, a module other than app.py; section 3 of
    the specification describes it as the count of the live channels of
    the category. *)
Definition channels_live (c : Category) : nat :=
  List.length (live_channels c).

(** The body of the [for chan in items.values()] loop:
    [categories.setdefault(chan.game_name, Category(...))] followed by
    [category.channels[chan.name] = chan]. *)
Definition add_channel (categories : dict string Category) (chan : ref)
  : dict string Category :=
  if negb (i_live (h chan)) then categories
  else
    let g := i_game_name (h chan) in
    let (category, categories') :=
      dict_setdefault g (mkCategory g []) categories in
    dict_set g
      (mkCategory (c_name category)
         (dict_set (i_name (h chan)) chan (c_channels category)))
      categories'.

Definition group_by_cat (items : list ref) : dict string Category :=
  fold_left add_channel items [].

Definition categories_sorted (items : list ref)
  : list (string * Category) :=
  sorted_desc (fun x => total_viewers (snd x)) (group_by_cat items).

(** The live items of the input that bear the game name [g]. *)
Definition members (g : string) (items : list ref) : list ref :=
  filter (fun r => i_live (h r) && (i_game_name (h r) =? g)%string) items.

(** Two live items of one game that share their channel name. *)
Definition clash (r1 r2 : ref) : bool :=
  i_live (h r1) && i_live (h r2)
  && (i_game_name (h r1) =? i_game_name (h r2))%string
  && (i_name (h r1) =? i_name (h r2))%string.

Fixpoint no_clash (items : list ref) : bool :=
  match items with
  | [] => true
  | r :: l => forallb (fun r' => negb (clash r r')) l && no_clash l
  end.
End Grouping.

(** ** Keybinds and the values of a selection *)

(** A [Keybind] of pyselector: the label of the key, the trigger code, the
    hidden flag and the name of the bound action. *)
Record Keybind := mkKeybind {
  k_bind : string;
  k_code : Z;
  k_hidden : bool;
  k_action : string
}.

Definition set_hidden (b : bool) (k : Keybind) : Keybind :=
  mkKeybind (k_bind k) (k_code k) b (k_action k).

(** What the menu hands back as the chosen thing: nothing, the text the
    user typed, an object of the displayed list, or the list of the chosen
    items of a multi-select. *)
Inductive Value :=
| VNone
| VStr (s : string)
| VItem (r : ref)
| VCategory (c : Category)
| VGame (g : Game)
| VKeybind (k : ref)
| VList (l : list ref).

(** The truth value of [if item], [if not item]: [None], the empty text
    and the empty list are false; the objects of the classes of the
    repository and of pyselector are true, as objects are by default. *)
Definition truthy (v : Value) : bool :=
  match v with
  | VNone => false
  | VStr EmptyString => false
  | VList [] => false
  | _ => true
  end.

(** [hasattr(item, 'playable')] *)
Definition has_playable (v : Value) : bool :=
  match v with
  | VItem _ => true
  | _ => false
  end.

(** The result codes of twitch/constants.py. *)
Definition UserConfirms : Z := 0.
Definition UserCancel : Z := 1.

(** The keyword arguments of a screen or of a keybind action. *)
Record Kwargs := mkKwargs {
  kw_item : option Value;
  kw_keybind : option ref;
  kw_items : option (dict string ref);
  kw_query : option string;
  kw_game : option string;
  kw_keycode : option Z
}.

Definition no_kwargs : Kwargs := mkKwargs None None None None None None.

(** What a screen hands to its caller: an exit code, or the call of the
    action bound to a keybind, whose result the screen returns
    ([return await k.action(...)]). *)
Inductive Outcome :=
| Exit (code : Z)
| Action (k : ref) (kwargs : Kwargs).

(** ** Exceptions *)

Inductive Exn :=
| ItemNotPlaylableError (err : string)
| ChannelOfflineError (err : string)
| AttributeError (attr : string)
| KeyError (key : string)
| IndexError
| ValueError
| TypeError
| KeybindNotFound (code : Z)
| BindNotFound (bind : string)
| KeybindExists (code : Z)
| FetchFailure (what : string)
| ErrorReturnCode (code : Z)      (* [sh.ErrorReturnCode_<code>] *)
| CommandNotFound (cmd : string). (* [sh.CommandNotFound] *)

(** ** The fetcher *)

Inductive FetchOp :=
| ChannelsAndStreams
| Videos (user_id : string)
| Clips (user_id : string)
| ChannelsByQuery (query : string)
| GamesByQuery (query : string)
| StreamsByGameId (game_id : string)
| TopStreams
| TopGamesWithStreams
| Close.

(** What the operations of [TwitchFetcher] answer: a failure or the data. *)
Record TwitchFetcher := mkFetcher {
  channels_and_streams : Exn + dict string ref;
  online : Z;
  videos : string -> Exn + list ref;
  clips : string -> Exn + list ref;
  channels_by_query : string -> Exn + list ref;
  games_by_query : string -> Exn + list Game;
  streams_by_game_id : string -> Exn + list ref;
  top_streams : Exn + list ref;
  top_games_with_streams : Exn + dict string Category
}.

(** The labels of [config.Keys] that the engine looks up. *)
Record Keys := mkKeys {
  bind_group_by_cat : string;
  bind_clips : string;
  bind_videos : string;
  bind_show_information : string;
  bind_show_keys : string
}.

Record TwitchApp := mkApp {
  fetch : TwitchFetcher;
  player_conf : bool;
  keys : Keys;
  markup : bool;
  ansi : bool
}.

(** ** The world *)

Inductive Event :=
| EvSelect (items : list Value) (mesg : string) (markup : option bool)
    (multi_select : bool)
| EvInput (prompt mesg : string)
| EvFetch (op : FetchOp)
| EvPlay (name url : string)
| EvSpawn (proc : nat) (url : string)
| EvWait (proc : nat)
| EvCopy (text : string)
| EvOpenTab (url : string).

(** The player [mpv] as the [sh] library finds it: the program may be
    missing from the machine, and a run of it on a url ends with an exit
    status. *)
Record Player := mkPlayer {
  mpv_installed : bool;
  mpv_exit : string -> Z
}.

(** A background process of the player ([sh.RunningCommand]): its handle and
    the url it plays. *)
Record Proc := mkProc {
  p_id : nat;
  p_url : string
}.

Record World := mkWorld {
  w_items : ItemStore;            (* the item objects *)
  w_keybinds : ref -> Keybind;    (* the keybind objects *)
  w_keys : dict Z ref;            (* [menu.keybind.keys] *)
  w_temp_hidden : list ref;       (* [menu.keybind.temp_hidden] *)
  w_answers : list (Value * Z);   (* pending answers of [menu.select] *)
  w_inputs : list (option string);(* pending answers of [menu.input] *)
  w_procs : nat;                  (* player processes launched so far *)
  w_trace : list Event;           (* calls to the collaborators, oldest first *)
  w_player : Player               (* the player of the machine *)
}.

Definition with_items (f : ItemStore -> ItemStore) (w : World) : World :=
  mkWorld (f (w_items w)) (w_keybinds w) (w_keys w) (w_temp_hidden w)
    (w_answers w) (w_inputs w) (w_procs w) (w_trace w)
    (w_player w).

Definition with_keybinds (f : (ref -> Keybind) -> ref -> Keybind) (w : World)
  : World :=
  mkWorld (w_items w) (f (w_keybinds w)) (w_keys w) (w_temp_hidden w)
    (w_answers w) (w_inputs w) (w_procs w) (w_trace w)
    (w_player w).

Definition with_keys (f : dict Z ref -> dict Z ref) (w : World) : World :=
  mkWorld (w_items w) (w_keybinds w) (f (w_keys w)) (w_temp_hidden w)
    (w_answers w) (w_inputs w) (w_procs w) (w_trace w)
    (w_player w).

Definition with_temp_hidden (f : list ref -> list ref) (w : World) : World :=
  mkWorld (w_items w) (w_keybinds w) (w_keys w) (f (w_temp_hidden w))
    (w_answers w) (w_inputs w) (w_procs w) (w_trace w)
    (w_player w).

Definition with_answers (l : list (Value * Z)) (w : World) : World :=
  mkWorld (w_items w) (w_keybinds w) (w_keys w) (w_temp_hidden w)
    l (w_inputs w) (w_procs w) (w_trace w)
    (w_player w).

Definition with_inputs (l : list (option string)) (w : World) : World :=
  mkWorld (w_items w) (w_keybinds w) (w_keys w) (w_temp_hidden w)
    (w_answers w) l (w_procs w) (w_trace w)
    (w_player w).

Definition with_procs (n : nat) (w : World) : World :=
  mkWorld (w_items w) (w_keybinds w) (w_keys w) (w_temp_hidden w)
    (w_answers w) (w_inputs w) n (w_trace w) (w_player w).

Definition log (e : Event) (w : World) : World :=
  mkWorld (w_items w) (w_keybinds w) (w_keys w) (w_temp_hidden w)
    (w_answers w) (w_inputs w) (w_procs w) (w_trace w ++ [e])
    (w_player w).

(** ** The monad of the engine: state, exceptions, a waiting menu *)

Inductive Res (A : Type) :=
| Ok (a : A)
| Raised (e : Exn)
| Waiting          (* the menu has no answer yet *)
| OutOfFuel.

Arguments Ok {A} a.
Arguments Raised {A} e.
Arguments Waiting {A}.
Arguments OutOfFuel {A}.

Definition M (A : Type) := World -> Res A * World.

Definition ret {A : Type} (a : A) : M A := fun w => (Ok a, w).

Definition bind {A B : Type} (c : M A) (k : A -> M B) : M B :=
  fun w =>
    match c w with
    | (Ok a, w') => k a w'
    | (Raised e, w') => (Raised e, w')
    | (Waiting, w') => (Waiting, w')
    | (OutOfFuel, w') => (OutOfFuel, w')
    end.

Definition raise {A : Type} (e : Exn) : M A := fun w => (Raised e, w).

Definition gets {A : Type} (f : World -> A) : M A := fun w => (Ok (f w), w).

Definition modify (f : World -> World) : M unit := fun w => (Ok tt, f w).

Definition emit (e : Event) : M unit := modify (log e).

Declare Scope monad_scope.
Delimit Scope monad_scope with monad.
Notation "x <- c ;; k" := (bind c (fun x => k))
  (at level 61, c at next level, right associativity) : monad_scope.
Notation "' pat <- c ;; k" := (bind c (fun x => match x with pat => k end))
  (at level 61, pat pattern, c at next level, right associativity)
  : monad_scope.
Notation "c ;; k" := (bind c (fun _ => k))
  (at level 61, right associativity) : monad_scope.
Open Scope monad_scope.

(** [for x in l: f(x)] *)
Fixpoint for_each {A : Type} (f : A -> M unit) (l : list A) : M unit :=
  match l with
  | [] => ret tt
  | x :: l' => f x ;; for_each f l'
  end.

(** [[f(x) for x in l]] *)
Fixpoint map_m {A B : Type} (f : A -> M B) (l : list A) : M (list B) :=
  match l with
  | [] => ret []
  | x :: l' => y <- f x ;; ys <- map_m f l' ;; ret (y :: ys)
  end.

(** [while True: body], followed by the code after the loop. The body says
    how it leaves the iteration: it falls off its end, it breaks with the
    local variables the code after the loop reads, or it returns. *)
Inductive Ctl (B A : Type) :=
| Continue
| Break (b : B)
| Return (a : A).

Arguments Continue {B A}.
Arguments Break {B A} b.
Arguments Return {B A} a.

Fixpoint while_true {B A : Type} (fuel : nat) (body : M (Ctl B A))
  (after : B -> M A) : M A :=
  match fuel with
  | O => fun w => (OutOfFuel, w)
  | S n =>
      c <- body ;;
      match c with
      | Continue => while_true n body after
      | Break b => after b
      | Return a => ret a
      end
  end.

(** Every iteration of a loop of the engine asks the menu, so a loop runs
    for at most one iteration per pending answer and one more. *)
Definition loop {B A : Type} (body : M (Ctl B A)) (after : B -> M A) : M A :=
  fun w => while_true (S (List.length (w_answers w))) body after w.

(** ** The collaborators *)

(** [menu.select(items, mesg, markup=..., multi_select=...)]: the call is
    recorded, and the next pending answer of the user is handed back. The
    other keywords ([ansi], [preprocessor]) only concern the display. *)
Definition menu_select (items : list Value) (mesg : string)
  (markup : option bool) (multi_select : bool) : M (Value * Z) :=
  emit (EvSelect items mesg markup multi_select) ;;
  fun w =>
    match w_answers w with
    | [] => (Waiting, w)
    | a :: l => (Ok a, with_answers l w)
    end.

(** [menu.input(prompt, mesg)] *)
Definition menu_input (prompt mesg : string) : M (option string) :=
  emit (EvInput prompt mesg) ;;
  fun w =>
    match w_inputs w with
    | [] => (Waiting, w)
    | a :: l => (Ok a, with_inputs l w)
    end.

(** An operation of the fetcher. *)
Definition fetched {A : Type} (op : FetchOp) (r : Exn + A) : M A :=
  emit (EvFetch op) ;;
  match r with
  | inl e => raise e
  | inr a => ret a
  end.

(** [sh.mpv(url)]: the player runs on the url in the foreground. The [sh]
    library raises [CommandNotFound] when the program is missing, before
    anything runs, and [ErrorReturnCode] when the run ends with an exit
    status other than 0. *)
Definition run_mpv (name url : string) : M unit :=
  player <- gets w_player ;;
  if negb (mpv_installed player) then raise (CommandNotFound "mpv")
  else
    emit (EvPlay name url) ;;
    if mpv_exit player url =? 0 then ret tt
    else raise (ErrorReturnCode (mpv_exit player url)).

(** [sh.mpv(url, _bg=True)]: the player is launched in the background and
    its handle is handed back at once; a missing program raises
    [CommandNotFound] here too. *)
Definition spawn_mpv (url : string) : M Proc :=
  fun w =>
    if mpv_installed (w_player w) then
      (Ok (mkProc (w_procs w) url),
       log (EvSpawn (w_procs w) url) (with_procs (S (w_procs w)) w))
    else (Raised (CommandNotFound "mpv"), w).

(** [p.wait()]: blocks until the process [p] has ended, and raises
    [ErrorReturnCode] when it ended with an exit status other than 0. *)
Definition wait (p : Proc) : M unit :=
  emit (EvWait (p_id p)) ;;
  player <- gets w_player ;;
  if mpv_exit player (p_url p) =? 0 then ret tt
  else raise (ErrorReturnCode (mpv_exit player (p_url p))).

(** ** Attributes *)

Definition attr_item (attr : string) (v : Value) : M Item :=
  match v with
  | VItem r => gets (fun w => w_items w r)
  | _ => raise (AttributeError attr)
  end.

Definition attr_name (v : Value) : M string :=
  match v with
  | VItem r => gets (fun w => i_name (w_items w r))
  | VCategory c => ret (c_name c)
  | VGame g => ret (g_name g)
  | _ => raise (AttributeError "name")
  end.

Definition attr_id (v : Value) : M string :=
  match v with
  | VItem r => gets (fun w => i_id (w_items w r))
  | VGame g => ret (g_id g)
  | _ => raise (AttributeError "id")
  end.

Definition attr_playable (v : Value) : M bool :=
  i <- attr_item "playable" v ;; ret (i_playable i).

Definition attr_url (v : Value) : M string :=
  i <- attr_item "url" v ;; ret (i_url i).

Definition attr_user_id (v : Value) : M string :=
  i <- attr_item "user_id" v ;; ret (i_user_id i).

Definition attr_live (v : Value) : M bool :=
  i <- attr_item "live" v ;; ret (i_live i).

Definition attr_chat (v : Value) : M string :=
  i <- attr_item "chat" v ;; ret (i_chat i).

Definition attr_title (v : Value) : M string :=
  i <- attr_item "title" v ;; ret (i_title i).

Definition attr_channels (v : Value) : M (dict string ref) :=
  match v with
  | VCategory c => ret (c_channels c)
  | _ => raise (AttributeError "channels")
  end.

(** [keybind.action] *)
Definition attr_action (v : Value) : M ref :=
  match v with
  | VKeybind k => ret k
  | _ => raise (AttributeError "action")
  end.

(** [kwargs.pop('item')], [kwargs['item']] *)
Definition kwargs_item (kwargs : Kwargs) : M Value :=
  match kw_item kwargs with
  | Some v => ret v
  | None => raise (KeyError "item")
  end.

Definition kwargs_keybind (kwargs : Kwargs) : M ref :=
  match kw_keybind kwargs with
  | Some k => ret k
  | None => raise (KeyError "keybind")
  end.

(** ** The keybind registry (pyselector's [KeyManager] and [Keybind]) *)

Definition keybind (k : ref) : M Keybind := gets (fun w => w_keybinds w k).

Definition kb_set_hidden (b : bool) (k : ref) : M unit :=
  modify (with_keybinds (fun s => store_set k (set_hidden b (s k)) s)).

(** [key.toggle()], [key.hide()], [key.show()] *)
Definition kb_toggle (k : ref) : M unit :=
  key <- keybind k ;; kb_set_hidden (negb (k_hidden key)) k.
Definition kb_hide (k : ref) : M unit := kb_set_hidden true k.
Definition kb_show (k : ref) : M unit := kb_set_hidden false k.

(** [km.current] *)
Definition km_current : M (list ref) :=
  gets (fun w => dict_values (w_keys w)).

(** [km.unregister_all()] *)
Definition km_unregister_all : M unit := modify (with_keys (fun _ => [])).

(** [km.register(key, exist_ok)]: a code that is registered already is an
    error, unless [exist_ok], which registers the keybind anew. *)
Definition km_register (exist_ok : bool) (k : ref) : M unit :=
  key <- keybind k ;;
  registered <- gets (fun w => dict_get (k_code key) (w_keys w)) ;;
  match registered with
  | Some _ =>
      if exist_ok
      then modify (with_keys (fun d =>
                     dict_set (k_code key) k (dict_del (k_code key) d)))
      else raise (KeybindExists (k_code key))
  | None => modify (with_keys (dict_set (k_code key) k))
  end.

(** [km.register_all(keys, exist_ok)] *)
Definition km_register_all (exist_ok : bool) (ks : list ref) : M unit :=
  for_each (km_register exist_ok) ks.

(** [km.get_by_code(code)]: fails when the code is not registered. *)
Definition km_get_by_code (code : Z) : M ref :=
  r <- gets (fun w => dict_get code (w_keys w)) ;;
  match r with
  | Some k => ret k
  | None => raise (KeybindNotFound code)
  end.

(** [km.get_by_bind(bind)]: the first registered keybind with that label. *)
Definition km_get_by_bind (b : string) : M ref :=
  r <- gets (fun w =>
         find (fun k => (k_bind (w_keybinds w k) =? b)%string)
           (dict_values (w_keys w))) ;;
  match r with
  | Some k => ret k
  | None => raise (BindNotFound b)
  end.

(** [km.get_by_bind_list(binds)] *)
Definition km_get_by_bind_list (binds : list string) : M (list ref) :=
  map_m km_get_by_bind binds.

(** [km.toggle_hidden(restore)]: hides the registered keybinds that are
    visible and remembers them; with [restore], toggles each remembered
    keybind, once for each time it was remembered, and forgets them. *)
Definition km_toggle_hidden (restore : bool) : M unit :=
  current <- km_current ;;
  for_each (fun k =>
      key <- keybind k ;;
      if k_hidden key then ret tt
      else kb_hide k ;; modify (with_temp_hidden (fun l => (l ++ [k])%list)))
    current ;;
  if restore then
    temp <- gets w_temp_hidden ;;
    for_each kb_toggle temp ;;
    modify (with_temp_hidden (fun _ => []))
  else ret tt.

(** ** The engine: [TwitchApp] *)

(** [f'{s:<n}'] *)
Definition ljust (n : nat) (s : string) : string :=
  s ++ string_of_list_ascii (repeat " "%char (n - String.length s)).

Definition tab : string := String (ascii_of_nat 9) EmptyString.

Section Engine.
(** The functions of twitch/format.py and the constant of
    twitch/constants.py that the engine uses, and [repr] on the objects a
    menu can hand back; none of them is defined in app.py. *)
Variable sanitize : string -> string.
Variable stringify : Item -> list string.   (* [stringify(asdict(item), sep)] *)
Variable number : Z -> string.
Variable SEPARATOR : string.
Variable repr : Value -> string.

Variable self : TwitchApp.

(** [TwitchApp.select] *)
Definition select {T : Type} (inj : T -> Value) (items : dict string T)
  (mesg : string) (multi_select : bool) : M (Value * Z) :=
  match items with
  | [] =>
      menu_select [VStr "err: no items"] mesg (Some false) false ;;
      ret (VNone, UserCancel)
  | _ =>
      menu_select (map inj (dict_values items)) mesg (Some (markup self))
        multi_select
  end.

(** [TwitchApp.play]: the name is logged, the player runs on the url, and
    0 is returned once the player has ended normally. *)
Definition play (name url : string) : M Z :=
  run_mpv name url ;; ret 0.

Definition get_key_by_code (keycode : Z) : M ref := km_get_by_code keycode.

Definition get_key_by_bind (b : string) : M ref := km_get_by_bind b.

Definition take_input (mesg prompt : string) : M string :=
  km_toggle_hidden false ;;
  user_input <- menu_input prompt mesg ;;
  km_toggle_hidden true ;;
  match user_input with
  | None => ret EmptyString
  | Some EmptyString => ret EmptyString
  | Some s => ret (strip s)
  end.

Definition toggle_content_keybinds : M unit :=
  content_keys <- km_get_by_bind_list
                    [bind_show_information (keys self);
                     bind_videos (keys self);
                     bind_clips (keys self)] ;;
  km_unregister_all ;;
  for_each kb_toggle content_keys ;;
  km_register_all true content_keys.

(** The message of [get_channels_and_streams]. *)
Definition channels_mesg (data : dict string ref) : string :=
  if online (fetch self) =? 0 then
    "> No streams online found from " ++ str_of_nat (List.length data)
    ++ " channels"
  else
    "> Showing (" ++ str_of_Z (online (fetch self)) ++ ") streams from "
    ++ str_of_nat (List.length data) ++ " channels".

Definition get_channels_and_streams : M (dict string ref * string) :=
  data <- fetched ChannelsAndStreams (channels_and_streams (fetch self)) ;;
  ret (data, channels_mesg data).

Definition get_channel_clips (item : Value)
  : M (dict string ref * string) :=
  name <- attr_name item ;;
  user_id <- attr_user_id item ;;
  found <- fetched (Clips user_id) (clips (fetch self) user_id) ;;
  store <- gets w_items ;;
  let clips := sorted_desc (fun c => i_created_at (store c)) found in
  let data := dict_by (fun c => i_key (store c)) clips in
  match data with
  | [] => ret (data, "> No clips found from <" ++ name ++ "> channel")
  | _ => ret (data, "> Showing (" ++ str_of_nat (List.length data)
                    ++ ") clips from <" ++ name ++ "> channel")
  end.

Definition get_channel_videos (item : Value)
  : M (dict string ref * string) :=
  user_id <- attr_user_id item ;;
  found <- fetched (Videos user_id) (videos (fetch self) user_id) ;;
  store <- gets w_items ;;
  let data := dict_by (fun v => i_key (store v)) found in
  name <- attr_name item ;;
  match data with
  | [] => ret (data, "> No videos found from <" ++ name ++ "> channel")
  | _ => ret (data, "> Showing (" ++ str_of_nat (List.length data)
                    ++ ") videos from <" ++ name ++ "> channel")
  end.

(** [keycode not in (UserConfirms(0), UserCancel(1))] *)
Definition is_keybind_code (keycode : Z) : bool :=
  negb ((keycode =? UserConfirms) || (keycode =? UserCancel)).

(** The end of the playing screens: [self.play(name=item.name,
    url=item.url)] and [return 0]. *)
Definition play_item (item : Value) : M Outcome :=
  name <- attr_name item ;;
  url <- attr_url item ;;
  play name url ;;
  ret (Exit 0).

Definition show_and_play_body (items : dict string ref) (mesg : string)
  : M (Ctl Value Outcome) :=
  '(item, keycode) <- select VItem items mesg false ;;
  if keycode =? UserConfirms then ret (Break item)
  else if negb (truthy item) || (keycode =? UserCancel)
  then ret (Return (Exit UserCancel))
  else if is_keybind_code keycode then
    k <- get_key_by_code keycode ;;
    ret (Return (Action k (mkKwargs (Some item) None (Some items)
                             None None None)))
  else ret Continue.

Definition show_and_play_end (item : Value) : M Outcome :=
  if negb (has_playable item) then
    name <- attr_name item ;;
    raise (ItemNotPlaylableError ("item='" ++ name ++ "' is not playable"))
  else
    playable <- attr_playable item ;;
    if negb playable then
      name <- attr_name item ;;
      raise (ItemNotPlaylableError
               ("item='" ++ name ++ "' is not playable"))
    else play_item item.

Definition show_and_play (items : dict string ref) (mesg : string)
  : M Outcome :=
  loop (show_and_play_body items mesg) show_and_play_end.

Definition show_videos (kwargs : Kwargs) : M Outcome :=
  item <- kwargs_item kwargs ;;
  km_unregister_all ;;
  '(videos, mesg) <- get_channel_videos item ;;
  show_and_play videos mesg.

Definition show_clips (kwargs : Kwargs) : M Outcome :=
  item <- kwargs_item kwargs ;;
  km_unregister_all ;;
  '(clips, mesg) <- get_channel_clips item ;;
  show_and_play clips mesg.

(** [show_videos(item=item)] *)
Definition item_kwargs (item : Value) : Kwargs :=
  mkKwargs (Some item) None None None None None.

(** The [while True] loop of [show_all_streams] (lines 74-99) and the code
    after it. *)
Definition show_all_streams_body (items : dict string ref) (mesg : string)
  (currentkeys : list ref) : M (Ctl Value Outcome) :=
  km_unregister_all ;;
  km_register_all false currentkeys ;;
  '(item, keycode) <- select VItem items mesg false ;;
  if negb (truthy item) then ret (Return (Exit UserCancel))
  else if negb (has_playable item) then
    raise (ItemNotPlaylableError (repr item ++ " is not playable"))
  else
    playable <- attr_playable item ;;
    if negb playable && (keycode =? UserConfirms) then
      r <- show_videos (item_kwargs item) ;;
      ret (Return r)
    else if keycode =? UserConfirms then ret (Break item)
    else if is_keybind_code keycode then
      k <- get_key_by_code keycode ;;
      ret (Return (Action k (mkKwargs (Some item) (Some k) (Some items)
                               None None None)))
    else ret Continue.

Definition show_all_streams_loop (items : dict string ref) (mesg : string)
  (currentkeys : list ref) : M Outcome :=
  loop (show_all_streams_body items mesg currentkeys) play_item.

Definition show_all_streams (kwargs : Kwargs) : M Outcome :=
  '(items, mesg) <- get_channels_and_streams ;;
  currentkeys <- km_current ;;
  show_all_streams_loop items mesg currentkeys.

(** The message of the menu of categories of [show_group_by_cat]. *)
Definition grouped_mesg (categories : dict string Category) : string :=
  "> Showing (" ++ str_of_nat (List.length categories) ++ ") <games>".

Definition show_group_by_cat (kwargs : Kwargs) : M Outcome :=
  let items := match kw_items kwargs with Some d => d | None => [] end in
  match items with
  | [] => ret (Exit 1)
  | _ =>
      store <- gets w_items ;;
      let categories := group_by_cat store (dict_values items) in
      let categories_sorted := categories_sorted store (dict_values items) in
      let mesg := grouped_mesg categories in
      '(category, keycode) <-
        select VCategory (dict_of_pairs categories_sorted) mesg false ;;
      if negb (truthy category) then ret (Exit 1)
      else
        channels <- attr_channels category ;;
        name <- attr_name category ;;
        let mesg := "> Showing (" ++ str_of_nat (List.length channels)
                    ++ ") <channels> from <" ++ name ++ "> category" in
        show_and_play channels mesg
  end.

(** The [while True] loop of [show_keybinds] (lines 151-157); the
    [return 1] after it is never reached. *)
Definition show_keybinds_body (kwargs : Kwargs) (item : Value)
  (items : dict string ref) (mesg : string) : M (Ctl unit Outcome) :=
  '(keybind, keycode) <- select VKeybind items mesg false ;;
  if keycode =? UserCancel then ret (Return (Exit UserCancel))
  else
    keybind <- (if negb (keycode =? UserConfirms)
                then k <- get_key_by_code keycode ;; ret (VKeybind k)
                else ret keybind) ;;
    k <- attr_action keybind ;;
    ret (Return (Action k (mkKwargs (Some item) (Some k)
                             (kw_items kwargs) (kw_query kwargs)
                             (kw_game kwargs) (kw_keycode kwargs)))).

Definition show_keybinds_loop (kwargs : Kwargs) (item : Value)
  (items : dict string ref) (mesg : string) : M Outcome :=
  loop (show_keybinds_body kwargs item items mesg)
    (fun _ : unit => ret (Exit 1)).

Definition show_keybinds (kwargs : Kwargs) : M Outcome :=
  item <- kwargs_item kwargs ;;
  key <- kwargs_keybind kwargs ;;
  kb_toggle key ;;
  keybinds <- gets w_keys ;;
  store <- gets w_keybinds ;;
  let items :=
    dict_of_pairs (map (fun k => (k_bind (store k), k))
                     (dict_values keybinds)) in
  name <- attr_name item ;;
  let mesg := "> Showing (" ++ str_of_nat (List.length keybinds)
              ++ ") <keybinds>" ++ nl ++ "> item selected: <" ++ name
              ++ ">" in
  show_keybinds_loop kwargs item items mesg.

(** The [while True] loop of [show_by_query] (lines 192-201) and the code
    after it. *)
Definition show_by_query_body (items : dict string ref) (mesg : string)
  : M (Ctl Value Outcome) :=
  '(item, keycode) <- select VItem items mesg false ;;
  if negb (truthy item) || (keycode =? UserCancel)
  then ret (Return (Exit UserCancel))
  else
    playable <- attr_playable item ;;
    if negb playable && (keycode =? UserConfirms) then
      r <- show_videos (item_kwargs item) ;;
      ret (Return r)
    else if keycode =? UserConfirms then ret (Break item)
    else if is_keybind_code keycode then
      k <- get_key_by_code keycode ;;
      ret (Return (Action k (mkKwargs (Some item) None (Some items)
                               None None None)))
    else ret Continue.

Definition show_by_query_loop (items : dict string ref) (mesg : string)
  : M Outcome :=
  loop (show_by_query_body items mesg) play_item.

Definition show_by_query (kwargs : Kwargs) : M Outcome :=
  query <- match kw_query kwargs with
           | None | Some EmptyString =>
               take_input "Search <channels> by query"
                 "TwitchChannelSearch> "
           | Some q => ret q
           end ;;
  match query with
  | EmptyString => ret (Exit 1)
  | _ =>
      data <- fetched (ChannelsByQuery query)
                (channels_by_query (fetch self) query) ;;
      store <- gets w_items ;;
      let items := dict_by (fun c => i_id (store c)) data in
      toggle_content_keybinds ;;
      let mesg := "> Showing (" ++ str_of_nat (List.length items)
                  ++ ") <channels> by query: " ++ dquote ++ query
                  ++ dquote in
      show_by_query_loop items mesg
  end.

(** The message of the menu of games of [show_by_game]. *)
Definition games_mesg (games : dict string Game) : string :=
  "> Showing (" ++ str_of_nat (List.length games)
  ++ ") <games> or <categories>".

Definition show_by_game (kwargs : Kwargs) : M Outcome :=
  game <- match kw_game kwargs with
          | None | Some EmptyString =>
              take_input "Search <games> or <categories>"
                "TwitchGameSearch> "
          | Some g => ret g
          end ;;
  match game with
  | EmptyString => ret (Exit 1)
  | _ =>
      data <- fetched (GamesByQuery game)
                (games_by_query (fetch self) game) ;;
      let games := dict_by g_id data in
      '(selected, _) <- select VGame games (games_mesg games) false ;;
      if negb (truthy selected) then ret (Exit 1)
      else
        toggle_content_keybinds ;;
        game_id <- attr_id selected ;;
        streams <- fetched (StreamsByGameId game_id)
                     (streams_by_game_id (fetch self) game_id) ;;
        match streams with
        | [] =>
            select VItem [] "> No <streams> found" false ;;
            ret (Exit 1)
        | _ =>
            name <- attr_name selected ;;
            let mesg := "> Showing (" ++ str_of_nat (List.length streams)
                        ++ ") <streams> from <" ++ name ++ "> game" in
            store <- gets w_items ;;
            show_and_play (dict_by (fun s => i_id (store s)) streams) mesg
        end
  end.

Definition show_top_streams (kwargs : Kwargs) : M Outcome :=
  games_keybind <- get_key_by_bind (bind_group_by_cat (keys self)) ;;
  toggle_content_keybinds ;;
  km_register false games_keybind ;;
  data <- fetched TopStreams (top_streams (fetch self)) ;;
  store <- gets w_items ;;
  let streams := dict_by (fun s => i_name (store s)) data in
  let mesg := "> Showing (" ++ str_of_nat (List.length streams)
              ++ ") top streams" in
  show_and_play streams mesg.

Definition show_item_info (kwargs : Kwargs) : M Z :=
  km_unregister_all ;;
  item <- kwargs_item kwargs ;;
  match item with
  | VItem r =>
      title <- attr_title item ;;
      modify (with_items (fun s =>
                store_set r (set_title (sanitize title) (s r)) s)) ;;
      i <- gets (fun w => w_items w r) ;;
      let formatted_item :=
        (ljust 18 "url" ++ SEPARATOR ++ tab ++ ljust 30 (i_url i))
        :: stringify i in
      name <- attr_name item ;;
      '(selected, keycode) <-
        menu_select (map VStr formatted_item)
          ("> item <" ++ name ++ "> information" ++ nl
           ++ "> Hit enter to copy") None false ;;
      match selected with
      | VNone => ret keycode
      | VStr s =>
          match SEPARATOR with
          | EmptyString => raise ValueError
          | _ =>
              match split_once SEPARATOR s with
              | Some (_, value) =>
                  emit (EvCopy (strip value)) ;; ret keycode
              | None => raise IndexError
              end
          end
      | _ => raise (AttributeError "split")
      end
  | _ => raise (AttributeError "title")
  end.

(** The messages of the two menus of [show_top_games]. *)
Definition top_categories_mesg (categories : dict string Category)
  (nviewers : Z) (nchannels : nat) : string :=
  "> Showing " ++ str_of_nat (List.length categories)
  ++ " top categories (" ++ str_of_nat nchannels
  ++ " streams and " ++ number nviewers ++ " viewers)".

Definition category_streams_mesg (channels : dict string ref)
  (name : string) : string :=
  "> Showing (" ++ str_of_nat (List.length channels)
  ++ ") streams from <" ++ name ++ "> category".

(** The [while True] loop of [show_top_games] (lines 266-292) and the code
    after it. *)
Definition show_top_games_body (categories : dict string Category)
  (nviewers : Z) (nchannels : nat) (keybinds : list ref)
  : M (Ctl Value Outcome) :=
  let mesg := top_categories_mesg categories nviewers nchannels in
  km_unregister_all ;;
  '(cat, keycode) <- select VCategory categories mesg false ;;
  if negb (truthy cat) then ret (Return (Exit UserCancel))
  else
    for_each kb_toggle keybinds ;;
    km_register_all false keybinds ;;
    channels <- attr_channels cat ;;
    name <- attr_name cat ;;
    let mesg := category_streams_mesg channels name in
    '(item, keycode) <- select VItem channels mesg false ;;
    if negb (truthy item) then ret Continue
    else if keycode =? UserConfirms then ret (Break item)
    else if is_keybind_code keycode then
      k <- get_key_by_code keycode ;;
      ret (Return (Action k (item_kwargs item)))
    else ret Continue.

Definition show_top_games_loop (categories : dict string Category)
  (nviewers : Z) (nchannels : nat) (keybinds : list ref) : M Outcome :=
  loop (show_top_games_body categories nviewers nchannels keybinds)
    play_item.

Definition show_top_games (kwargs : Kwargs) : M Outcome :=
  categories <- fetched TopGamesWithStreams
                  (top_games_with_streams (fetch self)) ;;
  store <- gets w_items ;;
  let nviewers :=
    sumZ (map (total_viewers store) (dict_values categories)) in
  let nchannels :=
    fold_right Nat.add 0%nat
      (map (channels_live store) (dict_values categories)) in
  keybinds <- km_get_by_bind_list
                [bind_clips (keys self); bind_videos (keys self)] ;;
  show_top_games_loop categories nviewers nchannels keybinds.

(** The launches and the waits of [multi_selection] (lines 386-390). *)
Definition launch_all (streams : Value) : M (list Proc) :=
  match streams with
  | VList l => map_m (fun j => url <- attr_url (VItem j) ;; spawn_mpv url) l
  | VStr _ => raise (AttributeError "url")
  | _ => raise TypeError
  end.

Definition multi_select_mesg (mesg : string) : string :=
  mesg ++ nl ++ "> Use 'Shift'+'Enter' for multi-select".

Definition multi_selection (kwargs : Kwargs) : M Outcome :=
  '(items, mesg) <- get_channels_and_streams ;;
  let mesg := multi_select_mesg mesg in
  show_keys <- km_get_by_bind (bind_show_keys (keys self)) ;;
  kb_hide show_keys ;;
  match items with
  | [] =>
      menu_select [VStr "err: no items"] mesg (Some false) false ;;
      ret (Exit UserCancel)
  | _ =>
      '(streams, keycode) <- select VItem items mesg true ;;
      if negb (truthy streams) then ret (Exit UserCancel)
      else
        procs <- launch_all streams ;;
        for_each wait procs ;;
        ret (Exit 0)
  end.

Definition open_chat (kwargs : Kwargs) : M Z :=
  item <- kwargs_item kwargs ;;
  live <- attr_live item ;;
  if negb live then
    n <- attr_name item ;;
    raise (ChannelOfflineError ("item " ++ n ++ " must be online"))
  else
    chat <- attr_chat item ;;
    emit (EvOpenTab chat) ;;
    ret 0.

Definition quit (kwargs : Kwargs) : M Z :=
  let keycode := match kw_keycode kwargs with Some c => c | None => 0 end in
  fetched Close (inr tt) ;;
  ret keycode.
End Engine.

(** ** Notions used by the statements *)

(** The world once the menu has shown [e] and the user has answered. *)
Definition answered (e : Event) (rest : list (Value * Z)) (w : World)
  : World :=
  with_answers rest (log e w).

(** A computation whose final world is related to its initial world by [R],
    however it ends. *)
Definition respects {A : Type} (R : World -> World -> Prop) (m : M A) : Prop :=
  forall w, R w (snd (m w)).

(** The relation of two worlds that agree on a component. *)
Definition same {S : Type} (proj : World -> S) (w w' : World) : Prop :=
  proj w' = proj w.

(** The relation of a world to a later world in which the menu has given
    no answer back. *)
Definition no_more_answers (w w' : World) : Prop :=
  (List.length (w_answers w') <= List.length (w_answers w))%nat.

(** A computation that never runs out of fuel. *)
Definition total {A : Type} (m : M A) : Prop :=
  forall w, fst (m w) <> OutOfFuel.

(** A computation that takes an answer of the menu whenever it ends
    normally. *)
Definition asks {A : Type} (m : M A) : Prop :=
  forall w a w', m w = (Ok a, w') ->
                 (List.length (w_answers w') < List.length (w_answers w))%nat.

(** The order of the sorted categories. *)
Definition desc {A : Type} (key : A -> Z) (a b : A) : Prop := key a >= key b.

(** The entry of a channel in the channels of its category. *)
Definition entry (h : ItemStore) (r : ref) : string * ref := (i_name (h r), r).

(** What the dictionary of categories holds once the items [seen] have
    gone through the loop of [show_group_by_cat]. *)
Definition grouped (h : ItemStore) (seen : list ref)
  (cats : dict string Category) : Prop :=
  NoDup (dict_keys cats) /\
  forall g,
    match dict_get g cats with
    | None => members h g seen = []
    | Some c =>
        c_name c = g /\ members h g seen <> [] /\
        c_channels c = map (entry h) (members h g seen)
    end.


(** An input without text: nothing, or only whitespace. *)
Definition blank (input : option string) : bool :=
  match input with
  | None => true
  | Some s => forallb is_space (list_ascii_of_string s)
  end.

(** The registry that holds exactly the keybinds [ks], in that order. *)
Definition registry_of (store : ref -> Keybind) (ks : list ref) : dict Z ref :=
  map (fun k => (k_code (store k), k)) ks.

(** The codes of the keybinds [ks]. *)
Definition codes (store : ref -> Keybind) (ks : list ref) : list Z :=
  map (fun k => k_code (store k)) ks.

(** What [TwitchApp.select] shows for a list: the placeholder when the list
    is empty. *)
Definition display (self : TwitchApp) {T : Type} (inj : T -> Value)
  (items : dict string T) (mesg : string) (multi_select : bool) : Event :=
  match items with
  | [] => EvSelect [VStr "err: no items"] mesg (Some false) false
  | _ => EvSelect (map inj (dict_values items)) mesg (Some (markup self))
           multi_select
  end.

(** What [TwitchApp.select] hands back when the user answers [a]. *)
Definition selected {T : Type} (items : dict string T) (a : Value * Z)
  : Value * Z :=
  match items with
  | [] => (VNone, UserCancel)
  | _ => a
  end.

(** The events of launching the players of [urls] from the handle [n], and
    of waiting for the [k] processes from the handle [n]. *)
Fixpoint spawns (n : nat) (urls : list string) : list Event :=
  match urls with
  | [] => []
  | u :: l => EvSpawn n u :: spawns (S n) l
  end.

Definition waits (n k : nat) : list Event := map EvWait (seq n k).

(** The handles of the processes launched on [urls] from the handle [n]. *)
Fixpoint handles (n : nat) (urls : list string) : list Proc :=
  match urls with
  | [] => []
  | u :: l => mkProc n u :: handles (S n) l
  end.

(** The processes that [[p.wait() for p in procs]] waits for: each in turn,
    up to and including the first that ended with a status other than 0;
    and that process, when there is one. *)
Fixpoint awaited (player : Player) (procs : list Proc) : list Proc :=
  match procs with
  | [] => []
  | p :: l =>
      if mpv_exit player (p_url p) =? 0 then p :: awaited player l
      else [p]
  end.

Definition first_failure (player : Player) (procs : list Proc)
  : option Proc :=
  find (fun p => negb (mpv_exit player (p_url p) =? 0)) procs.

(** The store of keybinds once [key.toggle()] has run on each of [ks]. *)
Definition toggle (k : ref) (store : ref -> Keybind) : ref -> Keybind :=
  store_set k (set_hidden (negb (k_hidden (store k))) (store k)) store.

Definition toggled (store : ref -> Keybind) (ks : list ref) : ref -> Keybind :=
  fold_left (fun s k => toggle k s) ks store.

(** The world in which the channels of the category [c] are on display in
    [show_top_games]: the category menu has been answered, the keybinds
    [ks] have been toggled and are the registered ones. *)
Definition channel_level (self : TwitchApp)
  (categories : dict string Category) (mesg : string) (ks : list ref)
  (pending : list (Value * Z)) (w : World) : World :=
  with_keys (fun _ => registry_of (toggled (w_keybinds w) ks) ks)
    (with_keybinds (fun _ => toggled (w_keybinds w) ks)
       (answered (display self VCategory categories mesg false) pending
          (with_keys (fun _ => []) w))).

(** How [play] ends on the item [r]: without the player nothing runs; with
    it the run is recorded, and 0 is returned when the run ended with the
    status 0. *)
Definition played (r : ref) (w : World) : Res Outcome * World :=
  let name := i_name (w_items w r) in
  let url := i_url (w_items w r) in
  let status := mpv_exit (w_player w) url in
  if negb (mpv_installed (w_player w))
  then (Raised (CommandNotFound "mpv"), w)
  else if status =? 0 then (Ok (Exit 0), log (EvPlay name url) w)
  else (Raised (ErrorReturnCode status), log (EvPlay name url) w).

(** The world once the players of the items [l] have been launched, and
    once the processes [procs] have been waited for. *)
Definition launched (l : list ref) (w : World) : World :=
  mkWorld (w_items w) (w_keybinds w) (w_keys w) (w_temp_hidden w)
    (w_answers w) (w_inputs w) (w_procs w + List.length l)
    (w_trace w ++ spawns (w_procs w) (map (fun r => i_url (w_items w r)) l))
    (w_player w).

Definition waited (procs : list nat) (w : World) : World :=
  mkWorld (w_items w) (w_keybinds w) (w_keys w) (w_temp_hidden w)
    (w_answers w) (w_inputs w) (w_procs w) (w_trace w ++ map EvWait procs)
    (w_player w).

(** The first registered keybind with the label [b]. *)
Definition by_bind (b : string) (w : World) : option ref :=
  find (fun k => (k_bind (w_keybinds w k) =? b)%string)
    (dict_values (w_keys w)).

(** The keybinds and the registry of a world. *)
Definition registry (w : World) : (ref -> Keybind) * dict Z ref :=
  (w_keybinds w, w_keys w).

(** A computation that always ends normally. *)
Definition succeeds {A : Type} (m : M A) : Prop :=
  forall w, exists a w', m w = (Ok a, w').

(** What the menu of the free-text input leaves in the world. *)
Definition io (w : World) : list Event * list (option string) :=
  (w_trace w, w_inputs w).

(** A registry in which every keybind is filed under its own code. *)
Definition registry_ok (w : World) : Prop :=
  Forall (fun ck => k_code (w_keybinds w (snd ck)) = fst ck) (w_keys w).

(** One step of the first loop of [km.toggle_hidden]: a visible keybind is
    hidden and remembered. *)
Definition hide_visible (k : ref) : M unit :=
  key <- keybind k ;;
  if k_hidden key then ret tt
  else kb_hide k ;; modify (with_temp_hidden (fun l => (l ++ [k])%list)).

(** ** Worlds for the examples *)


(** A channel that is live but cannot be played, two streams, and a video. *)
Definition demo_store : ItemStore := fun r =>
  match r with
  | O => mkItem "1" "k1" "u1" "A" "url1" "Tom & Jerry" false true "X" 10 0 "c1"
  | 1%nat => mkItem "2" "k2" "u2" "B" "url2" "t2" true true "X" 5 0 "c2"
  | 2%nat => mkItem "3" "k3" "u3" "C" "url3" "t3" true true "Y" 100 0 "c3"
  | _ => mkItem "4" "k4" "u1" "V" "url4" "t4" true false "X" 0 0 "c4"
  end.

Definition demo_keybinds : ref -> Keybind := fun k =>
  match k with
  | O => mkKeybind "alt-k" 10 false "show_keybinds"
  | 1%nat => mkKeybind "alt-v" 11 true "show_videos"
  | 2%nat => mkKeybind "alt-c" 12 true "show_clips"
  | 3%nat => mkKeybind "alt-i" 13 true "show_item_info"
  | _ => mkKeybind "alt-g" 14 true "show_group_by_cat"
  end.

Definition demo_registry : dict Z ref :=
  [(10, 0%nat); (11, 1%nat); (12, 2%nat); (13, 3%nat); (14, 4%nat)].

Definition demo_items : dict string ref :=
  [("1", 0%nat); ("2", 1%nat); ("3", 2%nat)].

Definition demo_categories : dict string Category :=
  [("Y", mkCategory "Y" [("C", 2%nat)]);
   ("Z", mkCategory "Z" [])].

Definition demo_fetcher : TwitchFetcher :=
  mkFetcher (inr demo_items) 3
    (fun _ => inr [3%nat]) (fun _ => inr [])
    (fun _ => inr [0%nat; 1%nat])
    (fun _ => inr [mkGame "g1" "X"]) (fun _ => inr [])
    (inr [1%nat; 2%nat]) (inr demo_categories).

(** A fetcher that finds nothing. *)
Definition empty_fetcher : TwitchFetcher :=
  mkFetcher (inr []) 0 (fun _ => inr []) (fun _ => inr [])
    (fun _ => inr []) (fun _ => inr []) (fun _ => inr [])
    (inr []) (inr []).

Definition demo_keys : Keys := mkKeys "alt-g" "alt-c" "alt-v" "alt-i" "alt-k".

Definition demo_app : TwitchApp := mkApp demo_fetcher false demo_keys true false.

Definition empty_app : TwitchApp :=
  mkApp empty_fetcher false demo_keys true false.

(** A player that is installed and ends every run with the status 0. *)
Definition demo_player : Player := mkPlayer true (fun _ => 0).

Definition demo_world (answers : list (Value * Z))
  (inputs : list (option string)) : World :=
  mkWorld demo_store demo_keybinds demo_registry [] answers inputs 0 []
    demo_player.

(** Stand-ins for the functions of twitch/format.py in the examples: a
    sanitiser that escapes the ampersand, as markup needs it. *)
Fixpoint escape_amp (s : string) : string :=
  match s with
  | EmptyString => EmptyString
  | String c s' =>
      if Ascii.eqb c "&"%char then "&amp;" ++ escape_amp s'
      else String c (escape_amp s')
  end.

Definition demo_stringify (i : Item) : list string :=
  ["name | " ++ i_name i; "title | " ++ i_title i].

Definition demo_repr (v : Value) : string :=
  match v with
  | VStr s => "'" ++ s ++ "'"
  | _ => "<object>"
  end.

Definition demo_number (z : Z) : string := str_of_Z z.

(** A fetcher whose every operation fails. *)
Definition failing_fetcher : TwitchFetcher :=
  let e := FetchFailure "timeout" in
  mkFetcher (inl e) 0 (fun _ => inl e) (fun _ => inl e) (fun _ => inl e)
    (fun _ => inl e) (fun _ => inl e) (inl e) (inl e).

Definition failing_app : TwitchApp :=
  mkApp failing_fetcher false demo_keys true false.

(** Clips of the channel A, by creation time 1, 3 and 2. *)
Definition clips_store : ItemStore := fun r =>
  match r with
  | O => mkItem "1" "k1" "u1" "A" "url1" "t1" false true "X" 10 0 "c1"
  | 1%nat => mkItem "c1" "clip1" "u1" "first" "curl1" "t" true false "X" 0 1 "c"
  | 2%nat => mkItem "c2" "clip2" "u1" "third" "curl2" "t" true false "X" 0 3 "c"
  | _ => mkItem "c3" "clip3" "u1" "second" "curl3" "t" true false "X" 0 2 "c"
  end.

Definition clips_fetcher : TwitchFetcher :=
  mkFetcher (inr []) 0 (fun _ => inr [1%nat; 2%nat])
    (fun _ => inr [1%nat; 2%nat; 3%nat])
    (fun _ => inr []) (fun _ => inr []) (fun _ => inr []) (inr []) (inr []).

Definition clips_app : TwitchApp :=
  mkApp clips_fetcher false demo_keys true false.

Definition clips_world (answers : list (Value * Z)) : World :=
  mkWorld clips_store demo_keybinds demo_registry [] answers [] 0 []
    demo_player.



(** A player whose every run ends with the exit status 1, and a machine
    without the player. *)
Definition broken_player : Player := mkPlayer true (fun _ => 1).

Definition no_player : Player := mkPlayer false (fun _ => 0).

Definition player_world (player : Player) (answers : list (Value * Z))
  : World :=
  mkWorld demo_store demo_keybinds demo_registry [] answers [] 0 [] player.

(** * Properties *)

(** ** Running the monad *)

Lemma bind_ok {A B : Type} (c : M A) (k : A -> M B) (w w' : World) (a : A) :
  c w = (Ok a, w') -> bind c k w = k a w'.
Proof. intros E. unfold bind. now rewrite E. Qed.

Lemma bind_raised {A B : Type} (c : M A) (k : A -> M B) (w w' : World)
  (e : Exn) :
  c w = (Raised e, w') -> bind c k w = (Raised e, w').
Proof. intros E. unfold bind. now rewrite E. Qed.

Lemma bind_waiting {A B : Type} (c : M A) (k : A -> M B) (w w' : World) :
  c w = (Waiting, w') -> bind c k w = (Waiting, w').
Proof. intros E. unfold bind. now rewrite E. Qed.

Lemma bind_inv {A B : Type} (c : M A) (k : A -> M B) (w w' : World) (b : B) :
  bind c k w = (Ok b, w') ->
  exists a w1, c w = (Ok a, w1) /\ k a w1 = (Ok b, w').
Proof.
  unfold bind. destruct (c w) as [[a| | |] w1]; try discriminate.
  intros E. now exists a, w1.
Qed.

(** The first iteration of a loop. *)
Lemma loop_step {B A : Type} (body : M (Ctl B A)) (after : B -> M A)
  (w : World) :
  loop body after w
  = bind body (fun c => match c with
                        | Continue =>
                            while_true (List.length (w_answers w)) body after
                        | Break b => after b
                        | Return a => ret a
                        end) w.
Proof. reflexivity. Qed.

Lemma loop_break {B A : Type} (body : M (Ctl B A)) (after : B -> M A)
  (w w' : World) (b : B) :
  body w = (Ok (Break b), w') -> loop body after w = after b w'.
Proof. intros E. rewrite loop_step. now erewrite bind_ok by exact E. Qed.

Lemma loop_return {B A : Type} (body : M (Ctl B A)) (after : B -> M A)
  (w w' : World) (a : A) :
  body w = (Ok (Return a), w') -> loop body after w = (Ok a, w').
Proof. intros E. rewrite loop_step. now erewrite bind_ok by exact E. Qed.

Lemma loop_raised {B A : Type} (body : M (Ctl B A)) (after : B -> M A)
  (w w' : World) (e : Exn) :
  body w = (Raised e, w') -> loop body after w = (Raised e, w').
Proof. intros E. rewrite loop_step. now erewrite bind_raised by exact E. Qed.

(** Fuel beyond the number of pending answers is never used. *)
Lemma while_true_fuel {B A : Type} (body : M (Ctl B A)) (after : B -> M A) :
  asks body ->
  forall n m w,
    (List.length (w_answers w) < n)%nat ->
    (List.length (w_answers w) < m)%nat ->
    while_true n body after w = while_true m body after w.
Proof.
  intros Hasks. induction n as [|n IH]; intros m w Hn Hm; [lia|].
  destruct m as [|m]; [lia|]. simpl. unfold bind.
  destruct (body w) as [[c| | |] w'] eqn:E; try reflexivity.
  destruct c; try reflexivity.
  apply Hasks in E. apply IH; lia.
Qed.

(** An iteration that falls off its end starts the loop again. *)
Lemma loop_continue {B A : Type} (body : M (Ctl B A)) (after : B -> M A)
  (w w' : World) :
  asks body ->
  body w = (Ok Continue, w') -> loop body after w = loop body after w'.
Proof.
  intros Hasks E. rewrite loop_step. erewrite bind_ok by exact E. unfold loop.
  pose proof (Hasks _ _ _ E). apply while_true_fuel; [assumption|lia|lia].
Qed.

(** A loop whose iterations ask the menu never runs out of fuel. *)
Lemma while_true_total {B A : Type} (body : M (Ctl B A)) (after : B -> M A) :
  asks body -> total body -> (forall b, total (after b)) ->
  forall n w, (List.length (w_answers w) < n)%nat ->
              fst (while_true n body after w) <> OutOfFuel.
Proof.
  intros Hasks Hb Ha. induction n as [|n IH]; intros w Hn; [lia|].
  simpl. unfold bind. pose proof (Hb w) as Hbw.
  destruct (body w) as [[c| | |] w'] eqn:E; simpl in *; try congruence.
  destruct c as [|b|a]; simpl.
  - apply Hasks in E. apply IH. lia.
  - apply Ha.
  - discriminate.
Qed.

Lemma loop_total {B A : Type} (body : M (Ctl B A)) (after : B -> M A) :
  asks body -> total body -> (forall b, total (after b)) ->
  total (loop body after).
Proof.
  intros Hasks Hb Ha w. unfold loop. apply while_true_total; auto.
Qed.

(** ** Dictionaries *)

Section PyDictFacts.
Context {K V : Type} `{Hashable K}.

Lemma key_eqb_refl (k : K) : key_eqb k k = true.
Proof. now apply key_eqb_eq. Qed.

Lemma key_eqb_neq (a b : K) : a <> b -> key_eqb a b = false.
Proof.
  intros Hne. destruct (key_eqb a b) eqn:E; [|reflexivity].
  apply key_eqb_eq in E. contradiction.
Qed.

Lemma dict_get_set_same (k : K) (v : V) (d : dict K V) :
  dict_get k (dict_set k v d) = Some v.
Proof.
  induction d as [|[k' v'] d IH]; simpl.
  - now rewrite key_eqb_refl.
  - destruct (key_eqb k' k) eqn:E; simpl; rewrite E; auto.
Qed.

Lemma dict_get_set_other (k k' : K) (v : V) (d : dict K V) :
  k <> k' -> dict_get k' (dict_set k v d) = dict_get k' d.
Proof.
  intros Hne. induction d as [|[k0 v0] d IH]; simpl.
  - now rewrite key_eqb_neq.
  - destruct (key_eqb k0 k) eqn:E; simpl.
    + apply key_eqb_eq in E. subst k0. now rewrite key_eqb_neq.
    + now rewrite IH.
Qed.

Lemma dict_get_none_keys (k : K) (d : dict K V) :
  dict_get k d = None <-> ~ In k (dict_keys d).
Proof.
  induction d as [|[k' v'] d IH]; simpl.
  - tauto.
  - destruct (key_eqb k' k) eqn:E.
    + apply key_eqb_eq in E. split; [discriminate | intros Hn; exfalso; auto].
    + rewrite IH. split.
      * intros Hn [Heq | Hin]; [|auto].
        subst. rewrite key_eqb_refl in E. discriminate.
      * tauto.
Qed.

Lemma dict_set_fresh (k : K) (v : V) (d : dict K V) :
  dict_get k d = None -> dict_set k v d = (d ++ [(k, v)])%list.
Proof.
  induction d as [|[k' v'] d IH]; simpl; [reflexivity|].
  destruct (key_eqb k' k); [discriminate|].
  intros Hn. now rewrite IH.
Qed.

Lemma dict_set_keys_present (k : K) (v v0 : V) (d : dict K V) :
  dict_get k d = Some v0 -> dict_keys (dict_set k v d) = dict_keys d.
Proof.
  induction d as [|[k' v'] d IH]; simpl; [discriminate|].
  destruct (key_eqb k' k) eqn:E; simpl; [reflexivity|].
  intros Hg. now rewrite IH.
Qed.

Lemma dict_set_NoDup (k : K) (v : V) (d : dict K V) :
  NoDup (dict_keys d) -> NoDup (dict_keys (dict_set k v d)).
Proof.
  intros Hnd. destruct (dict_get k d) eqn:E.
  - now erewrite dict_set_keys_present by eassumption.
  - rewrite dict_set_fresh by assumption. unfold dict_keys. rewrite map_app. simpl.
    apply dict_get_none_keys in E.
    apply NoDup_app; [assumption | repeat constructor; simpl; tauto |].
    intros a Ha [Hb | []]. subst. contradiction.
Qed.


Lemma dict_In_get (k : K) (v : V) (d : dict K V) :
  NoDup (dict_keys d) -> In (k, v) d -> dict_get k d = Some v.
Proof.
  induction d as [|[k' v'] d IH]; simpl; [tauto|].
  intros Hnd [Heq | Hin].
  - injection Heq as -> ->. now rewrite key_eqb_refl.
  - inversion Hnd as [|? ? Hni Hnd']; subst.
    destruct (key_eqb k' k) eqn:E.
    + apply key_eqb_eq in E. subst k'. exfalso. apply Hni.
      change (In (fst (k, v)) (map fst d)). now apply in_map.
    + auto.
Qed.

(** Building a dictionary from pairs with distinct keys keeps the pairs. *)
Lemma dict_of_pairs_NoDup (l : list (K * V)) :
  NoDup (map fst l) -> dict_of_pairs l = l.
Proof.
  unfold dict_of_pairs.
  assert (G : forall acc : dict K V,
             NoDup (map fst (acc ++ l)%list) ->
             fold_left (fun d kv => dict_set (fst kv) (snd kv) d) l acc
             = (acc ++ l)%list).
  { induction l as [|[k v] l IH]; intros acc Hnd; simpl.
    - now rewrite app_nil_r.
    - rewrite dict_set_fresh.
      + rewrite IH; rewrite <- app_assoc; [reflexivity | exact Hnd].
      + apply dict_get_none_keys. unfold dict_keys.
        rewrite map_app in Hnd. simpl in Hnd.
        apply NoDup_remove_2 in Hnd. intros Hin. apply Hnd.
        apply in_or_app. now left. }
  intros Hnd. apply (G []). exact Hnd.
Qed.
End PyDictFacts.

(** ** The descending stable sort *)

Section SortFacts.
Context {A : Type} (key : A -> Z).

Lemma insert_desc_perm (x : A) (l : list A) :
  Permutation (insert_desc key x l) (x :: l).
Proof.
  induction l as [|y l IH]; simpl; [reflexivity|].
  destruct (key x <? key y); [|reflexivity].
  rewrite IH. apply perm_swap.
Qed.

Lemma sorted_desc_perm (l : list A) : Permutation (sorted_desc key l) l.
Proof.
  induction l as [|x l IH]; simpl; [reflexivity|].
  rewrite insert_desc_perm. now constructor.
Qed.

Lemma insert_desc_sorted (x : A) (l : list A) :
  StronglySorted (desc key) l -> StronglySorted (desc key) (insert_desc key x l).
Proof.
  induction l as [|y l IH]; simpl; intros Hs.
  - repeat constructor.
  - inversion Hs as [|? ? Hs' Hall]; subst.
    destruct (key x <? key y) eqn:E.
    + apply Z.ltb_lt in E. constructor; [auto|].
      eapply Permutation_Forall; [symmetry; apply insert_desc_perm|].
      constructor; [unfold desc; lia | assumption].
    + apply Z.ltb_ge in E. constructor; [assumption|].
      constructor; [unfold desc; lia|].
      eapply Forall_impl; [|exact Hall]. unfold desc. intros; lia.
Qed.

Lemma sorted_desc_sorted (l : list A) : StronglySorted (desc key) (sorted_desc key l).
Proof.
  induction l as [|x l IH]; simpl; [constructor|].
  now apply insert_desc_sorted.
Qed.
End SortFacts.

(** ** Grouping by category *)

Section GroupingFacts.
Variable h : ItemStore.

Lemma members_app (g : string) (l1 l2 : list ref) :
  members h g (l1 ++ l2) = (members h g l1 ++ members h g l2)%list.
Proof. apply filter_app. Qed.

Lemma members_In (g : string) (l : list ref) (r : ref) :
  In r (members h g l) <->
  In r l /\ i_live (h r) = true /\ i_game_name (h r) = g.
Proof.
  unfold members. rewrite filter_In, andb_true_iff, String.eqb_eq. tauto.
Qed.

Lemma no_clash_app (l1 l2 : list ref) :
  no_clash h (l1 ++ l2) = true ->
  no_clash h l1 = true /\ no_clash h l2 = true /\
  forall a b, In a l1 -> In b l2 -> clash h a b = false.
Proof.
  induction l1 as [|x l1 IH]; simpl.
  - intros Hn. repeat split; auto. intros a b [].
  - rewrite !andb_true_iff, forallb_app, andb_true_iff.
    intros [[Hf1 Hf2] Hn]. destruct (IH Hn) as (H1 & H2 & H3).
    repeat split; auto.
    intros a b [<- | Ha] Hb; [|auto].
    rewrite forallb_forall in Hf2. specialize (Hf2 b Hb).
    now apply negb_true_iff in Hf2.
Qed.

Lemma entry_get_fresh (x : ref) (l : list ref) :
  (forall r, In r l -> i_name (h r) <> i_name (h x)) ->
  dict_get (i_name (h x)) (map (entry h) l) = None.
Proof.
  intros Hne. apply dict_get_none_keys. unfold dict_keys.
  rewrite map_map. simpl. rewrite in_map_iff. intros (r & Hr & Hin).
  exact (Hne r Hin Hr).
Qed.

Lemma add_channel_grouped (seen : list ref) (x : ref)
  (cats : dict string Category) :
  grouped h seen cats ->
  (forall r, In r seen -> clash h r x = false) ->
  grouped h (seen ++ [x]) (add_channel h cats x).
Proof.
  intros [Hnd Hg] Hcl. unfold add_channel.
  destruct (i_live (h x)) eqn:Hlive; simpl.
  - (* a live channel *)
    set (g0 := i_game_name (h x)).
    assert (Hfresh : forall r, In r (members h g0 seen) ->
                               i_name (h r) <> i_name (h x)).
    { intros r Hr Heq. apply members_In in Hr. destruct Hr as (Hin & Hl & Hgm).
      specialize (Hcl r Hin). unfold clash in Hcl.
      rewrite Hl, Hlive, Hgm, Heq in Hcl. fold g0 in Hcl.
      rewrite !String.eqb_refl in Hcl. discriminate. }
    assert (Hx : members h g0 [x] = [x]).
    { unfold members. simpl. rewrite Hlive. fold g0.
      now rewrite String.eqb_refl. }
    assert (Hother : forall g, g <> g0 -> members h g [x] = []).
    { intros g Hne. unfold members. simpl. rewrite Hlive. fold g0.
      destruct (String.eqb_spec g0 g); [congruence | reflexivity]. }
    unfold dict_setdefault. pose proof (Hg g0) as Hg0.
    destruct (dict_get g0 cats) as [c|] eqn:E.
    + destruct Hg0 as (Hname & Hne & Hch). split.
      * now apply dict_set_NoDup.
      * intros g. destruct (string_dec g0 g) as [<- | Hd].
        -- rewrite dict_get_set_same. simpl. rewrite members_app, Hx.
           repeat split; [assumption | now destruct (members h g0 seen) |].
           rewrite Hch, map_app. simpl.
           apply dict_set_fresh. now apply entry_get_fresh.
        -- rewrite dict_get_set_other by assumption.
           rewrite members_app, Hother, app_nil_r by congruence. apply Hg.
    + split.
      * now do 2 apply dict_set_NoDup.
      * intros g. destruct (string_dec g0 g) as [<- | Hd].
        -- rewrite dict_get_set_same. simpl. rewrite members_app, Hx, Hg0.
           simpl. repeat split. discriminate.
        -- rewrite !dict_get_set_other by assumption.
           rewrite members_app, Hother, app_nil_r by congruence. apply Hg.
  - (* a channel that is not live is skipped *)
    split; [assumption|]. intros g.
    rewrite members_app.
    replace (members h g [x]) with (@nil ref);
      [rewrite app_nil_r; apply Hg|].
    unfold members. simpl. now rewrite Hlive.
Qed.

Lemma fold_add_channel_grouped (items seen : list ref)
  (cats : dict string Category) :
  grouped h seen cats ->
  no_clash h (seen ++ items) = true ->
  grouped h (seen ++ items) (fold_left (add_channel h) items cats).
Proof.
  revert seen cats. induction items as [|x items IH]; intros seen cats Hg Hn.
  - simpl. now rewrite app_nil_r.
  - simpl. replace (seen ++ x :: items)%list with ((seen ++ [x]) ++ items)%list
      in * by (rewrite <- app_assoc; reflexivity).
    apply IH; [|assumption].
    apply add_channel_grouped; [assumption|].
    apply no_clash_app in Hn. destruct Hn as (Hn & _ & _).
    apply no_clash_app in Hn. destruct Hn as (_ & _ & Hn).
    intros r Hr. apply Hn; simpl; auto.
Qed.

Lemma group_by_cat_grouped (items : list ref) :
  no_clash h items = true -> grouped h items (group_by_cat h items).
Proof.
  intros Hn. apply (fold_add_channel_grouped items (seen := [])); [|exact Hn].
  split; [constructor | reflexivity].
Qed.



End GroupingFacts.






(** ** Frame rules: what a computation leaves alone *)

#[global] Instance same_Reflexive {S : Type} (proj : World -> S) :
  Reflexive (same proj).
Proof. intros w. reflexivity. Qed.

#[global] Instance same_Transitive {S : Type} (proj : World -> S) :
  Transitive (same proj).
Proof. intros a b c Hab Hbc. unfold same in *. congruence. Qed.

#[global] Instance no_more_answers_Reflexive : Reflexive no_more_answers.
Proof. intros w. unfold no_more_answers. lia. Qed.

#[global] Instance no_more_answers_Transitive : Transitive no_more_answers.
Proof. intros a b c. unfold no_more_answers. lia. Qed.

Section Respects.
Context (R : World -> World -> Prop) `{!Reflexive R} `{!Transitive R}.

Lemma respects_ret {A : Type} (a : A) : respects R (ret a).
Proof. intros w. simpl. reflexivity. Qed.

Lemma respects_raise {A : Type} (e : Exn) : respects R (@raise A e).
Proof. intros w. simpl. reflexivity. Qed.

Lemma respects_gets {A : Type} (f : World -> A) : respects R (gets f).
Proof. intros w. simpl. reflexivity. Qed.

Lemma respects_modify (f : World -> World) :
  (forall w, R w (f w)) -> respects R (modify f).
Proof. intros Hf w. apply Hf. Qed.

Lemma respects_bind {A B : Type} (c : M A) (k : A -> M B) :
  respects R c -> (forall a, respects R (k a)) -> respects R (bind c k).
Proof.
  intros Hc Hk w. unfold bind. specialize (Hc w).
  destruct (c w) as [[a| | |] w']; simpl in *; try assumption.
  transitivity w'; [assumption | apply Hk].
Qed.

Lemma respects_for_each {A : Type} (f : A -> M unit) (l : list A) :
  (forall x, respects R (f x)) -> respects R (for_each f l).
Proof.
  intros Hf. induction l as [|x l IH]; simpl.
  - apply respects_ret.
  - apply respects_bind; auto.
Qed.

Lemma respects_map_m {A B : Type} (f : A -> M B) (l : list A) :
  (forall x, respects R (f x)) -> respects R (map_m f l).
Proof.
  intros Hf. induction l as [|x l IH]; simpl.
  - apply respects_ret.
  - apply respects_bind; [auto|]. intros y.
    apply respects_bind; [auto|]. intros ys. apply respects_ret.
Qed.

Lemma respects_while_true {B A : Type} (body : M (Ctl B A))
  (after : B -> M A) (n : nat) :
  respects R body -> (forall b, respects R (after b)) ->
  respects R (while_true n body after).
Proof.
  intros Hb Ha. induction n as [|n IH]; simpl.
  - intros w. simpl. reflexivity.
  - apply respects_bind; [assumption|].
    intros [|b|a]; [assumption | apply Ha | apply respects_ret].
Qed.

Lemma respects_loop {B A : Type} (body : M (Ctl B A)) (after : B -> M A) :
  respects R body -> (forall b, respects R (after b)) ->
  respects R (loop body after).
Proof.
  intros Hb Ha w. unfold loop. now apply respects_while_true.
Qed.
End Respects.

(** The head constant of a computation. *)
Ltac head_of t :=
  lazymatch t with
  | ?f _ => head_of f
  | _ => t
  end.

(** A computation made of a match or of a primitive that reads the world:
    by cases. *)
Ltac frame_prim :=
  let w := fresh "w" in
  intros w;
  cbv [menu_select menu_input spawn_mpv bind emit modify same
       no_more_answers];
  simpl;
  repeat match goal with
         | |- context [match ?x with _ => _ end] =>
             let E := fresh "E" in destruct x eqn:E; simpl; rewrite ?E
         end;
  first [reflexivity | simpl; lia].

Ltac frame :=
  cbv zeta;
  lazymatch goal with
  | |- respects _ (bind _ _) =>
      apply respects_bind; [typeclasses eauto .. | frame | intros; frame]
  | |- respects _ (ret _) => apply respects_ret; typeclasses eauto
  | |- respects _ (raise _) => apply respects_raise; typeclasses eauto
  | |- respects _ (gets _) => apply respects_gets; typeclasses eauto
  | |- respects _ (modify _) =>
      apply respects_modify; intros; cbv [same no_more_answers]; simpl;
      first [reflexivity | lia]
  | |- respects _ (for_each _ _) =>
      apply respects_for_each; [typeclasses eauto .. | intros; frame]
  | |- respects _ (map_m _ _) =>
      apply respects_map_m; [typeclasses eauto .. | intros; frame]
  | |- respects _ (loop _ _) =>
      apply respects_loop; [typeclasses eauto .. | frame | intros; frame]
  | |- respects _ (menu_select _ _ _ _) => frame_prim
  | |- respects _ (menu_input _ _) => frame_prim
  | |- respects _ (spawn_mpv _) => frame_prim
  | |- respects _ (match ?x with _ => _ end) => destruct x; frame
  | |- respects _ ?m => let f := head_of m in unfold f; frame
  end.


(** ** The items of the store *)

Section ItemsFrame.
Variable number : Z -> string.
Variable repr : Value -> string.
Variable self : TwitchApp.

Lemma show_and_play_items items mesg :
  respects (same w_items) (show_and_play self items mesg).
Proof. frame. Qed.

Lemma show_videos_items kwargs :
  respects (same w_items) (show_videos self kwargs).
Proof. frame. Qed.

Lemma show_clips_items kwargs :
  respects (same w_items) (show_clips self kwargs).
Proof. frame. Qed.

Lemma show_all_streams_items kwargs :
  respects (same w_items) (show_all_streams repr self kwargs).
Proof. frame. Qed.

Lemma show_group_by_cat_items kwargs :
  respects (same w_items) (show_group_by_cat self kwargs).
Proof. frame. Qed.

Lemma show_keybinds_items kwargs :
  respects (same w_items) (show_keybinds self kwargs).
Proof. frame. Qed.

Lemma show_by_query_items kwargs :
  respects (same w_items) (show_by_query self kwargs).
Proof. frame. Qed.

Lemma show_by_game_items kwargs :
  respects (same w_items) (show_by_game self kwargs).
Proof. frame. Qed.

Lemma show_top_streams_items kwargs :
  respects (same w_items) (show_top_streams self kwargs).
Proof. frame. Qed.

Lemma show_top_games_items kwargs :
  respects (same w_items) (show_top_games number self kwargs).
Proof. frame. Qed.

Lemma multi_selection_items kwargs :
  respects (same w_items) (multi_selection self kwargs).
Proof. frame. Qed.

Lemma open_chat_items kwargs : respects (same w_items) (open_chat kwargs).
Proof. frame. Qed.

Lemma quit_items kwargs : respects (same w_items) (quit kwargs).
Proof. frame. Qed.
End ItemsFrame.

(** ** The menu *)

Lemma select_run (self : TwitchApp) {T : Type} (inj : T -> Value)
  (items : dict string T) (mesg : string) (multi : bool) (w : World)
  (a : Value * Z) (rest : list (Value * Z)) :
  w_answers w = a :: rest ->
  select self inj items mesg multi w
  = (Ok (selected items a), answered (display self inj items mesg multi) rest w).
Proof.
  intros Ha. destruct items as [|kv items];
    unfold select, menu_select, bind, emit, modify; simpl;
    rewrite Ha; reflexivity.
Qed.

Lemma select_waiting (self : TwitchApp) {T : Type} (inj : T -> Value)
  (items : dict string T) (mesg : string) (multi : bool) (w : World) :
  w_answers w = [] ->
  select self inj items mesg multi w
  = (Waiting, log (display self inj items mesg multi) w).
Proof.
  intros Ha. destruct items as [|kv items];
    unfold select, menu_select, bind, emit, modify; simpl;
    rewrite Ha; reflexivity.
Qed.

Lemma selected_nonempty {T : Type} (items : dict string T) (a : Value * Z) :
  items <> [] -> selected items a = a.
Proof. destruct items; [congruence | reflexivity]. Qed.

Lemma display_nonempty (self : TwitchApp) {T : Type} (inj : T -> Value)
  (items : dict string T) (mesg : string) (multi : bool) :
  items <> [] ->
  display self inj items mesg multi
  = EvSelect (map inj (dict_values items)) mesg (Some (markup self)) multi.
Proof. destruct items; [congruence | reflexivity]. Qed.

Lemma select_asks (self : TwitchApp) {T : Type} (inj : T -> Value)
  (items : dict string T) (mesg : string) (multi : bool) :
  asks (select self inj items mesg multi).
Proof.
  intros w a w' E. destruct (w_answers w) as [|a0 rest] eqn:Ha.
  - rewrite select_waiting in E by assumption. discriminate.
  - rewrite (select_run _ _ _ _ _ _ Ha) in E. injection E as _ <-.
    simpl. lia.
Qed.

(** ** The registry *)

Lemma km_get_by_code_found (code : Z) (k : ref) (w : World) :
  dict_get code (w_keys w) = Some k -> km_get_by_code code w = (Ok k, w).
Proof.
  intros E. unfold km_get_by_code, bind, gets. simpl. now rewrite E.
Qed.

Lemma km_get_by_code_missing (code : Z) (w : World) :
  dict_get code (w_keys w) = None ->
  km_get_by_code code w = (Raised (KeybindNotFound code), w).
Proof.
  intros E. unfold km_get_by_code, bind, gets. simpl. now rewrite E.
Qed.

Lemma registry_of_get_none (store : ref -> Keybind) (ks : list ref)
  (code : Z) :
  ~ In code (codes store ks) -> dict_get code (registry_of store ks) = None.
Proof.
  intros Hn. apply dict_get_none_keys. unfold dict_keys, registry_of.
  now rewrite map_map.
Qed.

(** Registering keybinds with distinct codes on top of a registry that has
    none of them appends them. *)
Lemma km_register_all_fresh (ks : list ref) (acc : dict Z ref) (w : World) :
  NoDup (dict_keys acc ++ codes (w_keybinds w) ks) ->
  km_register_all false ks (with_keys (fun _ => acc) w)
  = (Ok tt,
     with_keys (fun _ => (acc ++ registry_of (w_keybinds w) ks)%list) w).
Proof.
  unfold km_register_all.
  revert acc. induction ks as [|k ks IH]; intros acc Hnd; simpl.
  - unfold ret. now rewrite app_nil_r.
  - assert (Hget : dict_get (k_code (w_keybinds w k)) acc = None).
    { apply dict_get_none_keys. apply NoDup_remove_2 in Hnd.
      intros Hin. apply Hnd. apply in_or_app. now left. }
    unfold bind at 1. unfold km_register at 1.
    unfold bind, keybind, gets, modify. simpl. rewrite Hget.
    change (for_each (km_register false) ks
              (with_keys
                 (fun _ => dict_set (k_code (w_keybinds w k)) k acc) w)
            = (Ok tt,
               with_keys
                 (fun _ => (acc ++ (k_code (w_keybinds w k), k)
                                   :: registry_of (w_keybinds w) ks)%list) w)).
    rewrite dict_set_fresh by exact Hget.
    rewrite IH.
    + now rewrite <- app_assoc.
    + unfold dict_keys. rewrite map_app. simpl. rewrite <- app_assoc.
      exact Hnd.
Qed.

(** [km.unregister_all()] followed by [km.register_all(ks)]. *)
Lemma reregister_run (ks : list ref) (w : World) :
  NoDup (codes (w_keybinds w) ks) ->
  (km_unregister_all ;; km_register_all false ks) w
  = (Ok tt, with_keys (fun _ => registry_of (w_keybinds w) ks) w).
Proof.
  intros Hnd. unfold bind at 1. unfold km_unregister_all, modify.
  change (with_keys (fun _ => []) w)
    with (with_keys (fun _ : dict Z ref => @nil (Z * ref)) w).
  exact (km_register_all_fresh ks [] w Hnd).
Qed.

(** ** One iteration of each loop *)

Section Bodies.
Variable number : Z -> string.
Variable repr : Value -> string.
Variable self : TwitchApp.

(** What [show_and_play] does with an answer of the menu. *)
Lemma show_and_play_body_run items mesg w a rest :
  w_answers w = a :: rest ->
  show_and_play_body self items mesg w
  = let w1 := answered (display self VItem items mesg false) rest w in
    let (item, keycode) := selected items a in
    if keycode =? UserConfirms then (Ok (Break item), w1)
    else if negb (truthy item) || (keycode =? UserCancel)
    then (Ok (Return (Exit UserCancel)), w1)
    else if is_keybind_code keycode then
      (k <- get_key_by_code keycode ;;
       ret (Return (Action k (mkKwargs (Some item) None (Some items)
                                None None None)))) w1
    else (Ok Continue, w1).
Proof.
  intros Ha. unfold show_and_play_body.
  erewrite bind_ok by (apply select_run; exact Ha).
  destruct (selected items a) as [item keycode]. simpl.
  destruct (keycode =? UserConfirms); [reflexivity|].
  destruct (negb (truthy item) || (keycode =? UserCancel)); [reflexivity|].
  destruct (is_keybind_code keycode); reflexivity.
Qed.

(** What [show_by_query] does with an answer of the menu. *)
Lemma show_by_query_body_run items mesg w a rest :
  w_answers w = a :: rest ->
  show_by_query_body self items mesg w
  = let w1 := answered (display self VItem items mesg false) rest w in
    let (item, keycode) := selected items a in
    if negb (truthy item) || (keycode =? UserCancel)
    then (Ok (Return (Exit UserCancel)), w1)
    else
      match item with
      | VItem r =>
          if negb (i_playable (w_items w r)) && (keycode =? UserConfirms)
          then (r <- show_videos self (item_kwargs item) ;;
                ret (Return r)) w1
          else if keycode =? UserConfirms then (Ok (Break item), w1)
          else if is_keybind_code keycode then
            (k <- get_key_by_code keycode ;;
             ret (Return (Action k (mkKwargs (Some item) None (Some items)
                                      None None None)))) w1
          else (Ok Continue, w1)
      | _ => (Raised (AttributeError "playable"), w1)
      end.
Proof.
  intros Ha. unfold show_by_query_body.
  erewrite bind_ok by (apply select_run; exact Ha).
  destruct (selected items a) as [item keycode]. simpl.
  destruct (negb (truthy item) || (keycode =? UserCancel)); [reflexivity|].
  destruct item; try reflexivity.
  unfold bind at 1. simpl.
  destruct (negb (i_playable (w_items w r)) && (keycode =? UserConfirms));
    [reflexivity|].
  destruct (keycode =? UserConfirms); [reflexivity|].
  destruct (is_keybind_code keycode); reflexivity.
Qed.

(** What [show_all_streams] does with an answer of the menu. *)
Lemma show_all_streams_body_run items mesg ks w a rest :
  NoDup (codes (w_keybinds w) ks) ->
  w_answers w = a :: rest ->
  show_all_streams_body repr self items mesg ks w
  = let w1 := answered (display self VItem items mesg false) rest
                (with_keys (fun _ => registry_of (w_keybinds w) ks) w) in
    let (item, keycode) := selected items a in
    if negb (truthy item) then (Ok (Return (Exit UserCancel)), w1)
    else
      match item with
      | VItem r =>
          if negb (i_playable (w_items w r)) && (keycode =? UserConfirms)
          then (r <- show_videos self (item_kwargs item) ;;
                ret (Return r)) w1
          else if keycode =? UserConfirms then (Ok (Break item), w1)
          else if is_keybind_code keycode then
            (k <- get_key_by_code keycode ;;
             ret (Return (Action k (mkKwargs (Some item) (Some k)
                                      (Some items) None None None)))) w1
          else (Ok Continue, w1)
      | _ => (Raised (ItemNotPlaylableError (repr item ++ " is not playable")),
              w1)
      end.
Proof.
  intros Hnd Ha. unfold show_all_streams_body.
  unfold bind at 1. unfold km_unregister_all, modify.
  erewrite bind_ok by (apply (km_register_all_fresh ks [] w); exact Hnd).
  erewrite bind_ok by (apply select_run; exact Ha).
  destruct (selected items a) as [item keycode]. simpl.
  destruct (negb (truthy item)); [reflexivity|].
  destruct item; try reflexivity.
  unfold bind at 1. simpl.
  destruct (negb (i_playable (w_items w r)) && (keycode =? UserConfirms));
    [reflexivity|].
  destruct (keycode =? UserConfirms); [reflexivity|].
  destruct (is_keybind_code keycode); reflexivity.
Qed.

(** What [show_keybinds] does with an answer of the menu. *)
Lemma show_keybinds_body_run kwargs item items mesg w a rest :
  w_answers w = a :: rest ->
  show_keybinds_body self kwargs item items mesg w
  = let w1 := answered (display self VKeybind items mesg false) rest w in
    let (keybind, keycode) := selected items a in
    if keycode =? UserCancel then (Ok (Return (Exit UserCancel)), w1)
    else
      (keybind <- (if negb (keycode =? UserConfirms)
                   then k <- get_key_by_code keycode ;; ret (VKeybind k)
                   else ret keybind) ;;
       k <- attr_action keybind ;;
       ret (Return (Action k (mkKwargs (Some item) (Some k)
                                (kw_items kwargs) (kw_query kwargs)
                                (kw_game kwargs) (kw_keycode kwargs))))) w1.
Proof.
  intros Ha. unfold show_keybinds_body.
  erewrite bind_ok by (apply select_run; exact Ha).
  destruct (selected items a) as [keybind keycode]. simpl.
  destruct (keycode =? UserCancel); reflexivity.
Qed.

(** The end of a playing screen on an item. *)
Lemma play_item_run r w : play_item (VItem r) w = played r w.
Proof.
  cbv [play_item played play run_mpv bind gets emit modify ret raise
       attr_name attr_url attr_item].
  destruct (mpv_installed (w_player w)); [|reflexivity].
  cbv [negb].
  destruct (mpv_exit (w_player w) (i_url (w_items w r)) =? 0);
    reflexivity.
Qed.

Lemma played_ok r w :
  mpv_installed (w_player w) = true ->
  mpv_exit (w_player w) (i_url (w_items w r)) = 0 ->
  played r w
  = (Ok (Exit 0),
     log (EvPlay (i_name (w_items w r)) (i_url (w_items w r))) w).
Proof. intros Hi He. unfold played. cbv zeta. now rewrite Hi, He. Qed.

Lemma show_and_play_end_run r w :
  show_and_play_end (VItem r) w
  = if i_playable (w_items w r) then played r w
    else (Raised (ItemNotPlaylableError
                    ("item='" ++ i_name (w_items w r)
                     ++ "' is not playable")), w).
Proof.
  unfold show_and_play_end. simpl. unfold bind at 1. simpl.
  destruct (i_playable (w_items w r)); [|reflexivity].
  apply play_item_run.
Qed.
End Bodies.

(** ** One iteration of [show_top_games] *)

Lemma toggled_code (ks : list ref) (store : ref -> Keybind) (k : ref) :
  k_code (toggled store ks k) = k_code (store k).
Proof.
  unfold toggled. revert store.
  induction ks as [|k0 ks IH]; intros store; simpl; [reflexivity|].
  rewrite IH. unfold toggle, store_set.
  destruct (Nat.eqb_spec k k0) as [->|]; reflexivity.
Qed.

Lemma toggled_codes (ks l : list ref) (store : ref -> Keybind) :
  codes (toggled store ks) l = codes store l.
Proof.
  unfold codes. apply map_ext. intros k. apply toggled_code.
Qed.

Lemma for_each_toggle_run (ks : list ref) (w : World) :
  for_each kb_toggle ks w
  = (Ok tt, with_keybinds (fun _ => toggled (w_keybinds w) ks) w).
Proof.
  revert w. induction ks as [|k ks IH]; intros w; simpl.
  - destruct w; reflexivity.
  - unfold bind at 1. unfold kb_toggle at 1.
    unfold bind, keybind, gets, kb_set_hidden, modify. rewrite IH.
    reflexivity.
Qed.

Section TopGames.
Variable number : Z -> string.
Variable self : TwitchApp.

(** The category menu, when nothing is chosen. *)
Lemma show_top_games_body_no_category categories nviewers nchannels ks w a
  rest :
  w_answers w = a :: rest ->
  truthy (fst (selected categories a)) = false ->
  show_top_games_body number self categories nviewers nchannels ks w
  = (Ok (Return (Exit UserCancel)),
     answered (display self VCategory categories
                 (top_categories_mesg number categories nviewers nchannels)
                 false) rest
       (with_keys (fun _ => []) w)).
Proof.
  intros Ha Ht. unfold show_top_games_body.
  unfold bind at 1. unfold km_unregister_all, modify.
  erewrite bind_ok by (apply select_run; exact Ha).
  destruct (selected categories a) as [cat keycode]. simpl in *.
  now rewrite Ht.
Qed.

(** The channel menu of the chosen category. *)
Lemma show_top_games_body_run categories nviewers nchannels ks w c code a
  rest :
  categories <> [] ->
  NoDup (codes (w_keybinds w) ks) ->
  w_answers w = (VCategory c, code) :: a :: rest ->
  show_top_games_body number self categories nviewers nchannels ks w
  = let w2 := channel_level self categories
                (top_categories_mesg number categories nviewers nchannels)
                ks (a :: rest) w in
    let w3 := answered (display self VItem (c_channels c)
                          (category_streams_mesg (c_channels c) (c_name c))
                          false) rest w2 in
    let (item, keycode) := selected (c_channels c) a in
    if negb (truthy item) then (Ok Continue, w3)
    else if keycode =? UserConfirms then (Ok (Break item), w3)
    else if is_keybind_code keycode then
      (k <- get_key_by_code keycode ;;
       ret (Return (Action k (item_kwargs item)))) w3
    else (Ok Continue, w3).
Proof.
  intros Hne Hnd Ha. unfold show_top_games_body.
  unfold bind at 1. unfold km_unregister_all, modify.
  erewrite bind_ok by (apply select_run; exact Ha).
  rewrite selected_nonempty by assumption.
  change (negb (truthy (VCategory c))) with false. cbv iota.
  erewrite bind_ok by apply for_each_toggle_run.
  erewrite bind_ok.
  2:{ match goal with
      | |- km_register_all false ks ?w0 = _ =>
          change w0 with
            (with_keys (fun _ : dict Z ref => @nil (Z * ref))
               (with_keybinds (fun _ => toggled (w_keybinds w) ks)
                  (answered (display self VCategory categories
                               (top_categories_mesg number categories
                                  nviewers nchannels) false)
                     (a :: rest) w)))
      end.
      apply km_register_all_fresh. simpl.
      now rewrite toggled_codes. }
  unfold bind at 1. simpl attr_channels. unfold ret at 1.
  unfold bind at 1. simpl attr_name. unfold ret at 1.
  erewrite bind_ok by (apply select_run; reflexivity).
  destruct (selected (c_channels c) a) as [item keycode]. simpl.
  destruct (negb (truthy item)); [reflexivity|].
  destruct (keycode =? UserConfirms); [reflexivity|].
  destruct (is_keybind_code keycode); reflexivity.
Qed.
End TopGames.

(** ** Which iterations ask the menu *)

Lemma asks_bind_l {A B : Type} (c : M A) (k : A -> M B) :
  asks c -> (forall a, respects no_more_answers (k a)) -> asks (bind c k).
Proof.
  intros Hc Hk w b w' E. apply bind_inv in E.
  destruct E as (a & w1 & E1 & E2). apply Hc in E1.
  pose proof (Hk a w1) as Hle. rewrite E2 in Hle.
  unfold no_more_answers in Hle. simpl in Hle. lia.
Qed.

Lemma asks_bind_r {A B : Type} (c : M A) (k : A -> M B) :
  respects no_more_answers c -> (forall a, asks (k a)) -> asks (bind c k).
Proof.
  intros Hc Hk w b w' E. apply bind_inv in E.
  destruct E as (a & w1 & E1 & E2). apply Hk in E2.
  pose proof (Hc w) as Hle. rewrite E1 in Hle.
  unfold no_more_answers in Hle. simpl in Hle. lia.
Qed.

Lemma show_and_play_body_asks self items mesg :
  asks (show_and_play_body self items mesg).
Proof.
  apply asks_bind_l; [apply select_asks|]. intros [item keycode]. frame.
Qed.

Lemma show_by_query_body_asks self items mesg :
  asks (show_by_query_body self items mesg).
Proof.
  apply asks_bind_l; [apply select_asks|]. intros [item keycode]. frame.
Qed.

Lemma show_all_streams_body_asks repr self items mesg ks :
  asks (show_all_streams_body repr self items mesg ks).
Proof.
  apply asks_bind_r; [frame|]. intros _.
  apply asks_bind_r; [frame|]. intros _.
  apply asks_bind_l; [apply select_asks|]. intros [item keycode]. frame.
Qed.

Lemma show_top_games_body_asks number self categories nviewers nchannels ks :
  asks (show_top_games_body number self categories nviewers nchannels ks).
Proof.
  apply asks_bind_r; [frame|]. intros _.
  apply asks_bind_l; [apply select_asks|]. intros [cat keycode]. frame.
Qed.

Lemma show_keybinds_body_asks self kwargs item items mesg :
  asks (show_keybinds_body self kwargs item items mesg).
Proof.
  apply asks_bind_l; [apply select_asks|]. intros [keybind keycode]. frame.
Qed.

(** An iteration that ends on [return await screen(...)]. *)
Lemma loop_return_call {B A : Type} (body : M (Ctl B A)) (after : B -> M A)
  (m : M A) (w w1 : World) :
  body w = (r <- m ;; ret (Return r)) w1 -> loop body after w = m w1.
Proof.
  intros E. rewrite loop_step. unfold bind at 1. rewrite E. unfold bind.
  destruct (m w1) as [[a| | |] w']; reflexivity.
Qed.

(** ** Confirming an item *)

Section Confirm.
Variable repr : Value -> string.
Variable self : TwitchApp.

Lemma show_and_play_confirm items mesg w r rest :
  items <> [] ->
  w_answers w = (VItem r, UserConfirms) :: rest ->
  show_and_play self items mesg w
  = let w1 := answered (EvSelect (map VItem (dict_values items)) mesg
                          (Some (markup self)) false) rest w in
    if i_playable (w_items w r)
    then played r w1
    else (Raised (ItemNotPlaylableError
                    ("item='" ++ i_name (w_items w r)
                     ++ "' is not playable")), w1).
Proof.
  intros Hne Ha. unfold show_and_play.
  erewrite loop_break.
  2:{ rewrite (show_and_play_body_run self items mesg w Ha).
      rewrite selected_nonempty, display_nonempty by assumption.
      reflexivity. }
  rewrite show_and_play_end_run. reflexivity.
Qed.

Lemma show_by_query_confirm items mesg w r rest :
  items <> [] ->
  w_answers w = (VItem r, UserConfirms) :: rest ->
  show_by_query_loop self items mesg w
  = let w1 := answered (EvSelect (map VItem (dict_values items)) mesg
                          (Some (markup self)) false) rest w in
    if i_playable (w_items w r)
    then played r w1
    else show_videos self (item_kwargs (VItem r)) w1.
Proof.
  intros Hne Ha. unfold show_by_query_loop.
  pose proof (show_by_query_body_run self items mesg w Ha) as E.
  rewrite selected_nonempty, display_nonempty in E by assumption.
  simpl in E. destruct (i_playable (w_items w r)); simpl in E.
  - erewrite loop_break by exact E. rewrite play_item_run. reflexivity.
  - now apply loop_return_call.
Qed.

Lemma show_all_streams_confirm items mesg ks w r rest :
  items <> [] ->
  NoDup (codes (w_keybinds w) ks) ->
  w_answers w = (VItem r, UserConfirms) :: rest ->
  show_all_streams_loop repr self items mesg ks w
  = let w1 := answered (EvSelect (map VItem (dict_values items)) mesg
                          (Some (markup self)) false) rest
                (with_keys (fun _ => registry_of (w_keybinds w) ks) w) in
    if i_playable (w_items w r)
    then played r w1
    else show_videos self (item_kwargs (VItem r)) w1.
Proof.
  intros Hne Hnd Ha. unfold show_all_streams_loop.
  pose proof (show_all_streams_body_run repr self items mesg ks w Hnd Ha)
    as E.
  rewrite selected_nonempty, display_nonempty in E by assumption.
  simpl in E. destruct (i_playable (w_items w r)); simpl in E.
  - erewrite loop_break by exact E. rewrite play_item_run. reflexivity.
  - now apply loop_return_call.
Qed.
End Confirm.

(** ** The fuel of the loops is enough *)

Lemma total_ret {A : Type} (a : A) : total (ret a).
Proof.
  intros w. unfold spawn_mpv.
  destruct (mpv_installed (w_player w)); discriminate.
Qed.

Lemma total_raise {A : Type} (e : Exn) : total (@raise A e).
Proof.
  intros w. unfold spawn_mpv.
  destruct (mpv_installed (w_player w)); discriminate.
Qed.

Lemma total_gets {A : Type} (f : World -> A) : total (gets f).
Proof.
  intros w. unfold spawn_mpv.
  destruct (mpv_installed (w_player w)); discriminate.
Qed.

Lemma total_modify (f : World -> World) : total (modify f).
Proof.
  intros w. unfold spawn_mpv.
  destruct (mpv_installed (w_player w)); discriminate.
Qed.

Lemma total_bind {A B : Type} (c : M A) (k : A -> M B) :
  total c -> (forall a, total (k a)) -> total (bind c k).
Proof.
  intros Hc Hk w. unfold bind. specialize (Hc w).
  destruct (c w) as [[a| | |] w']; simpl in *;
    [apply Hk | discriminate | discriminate | congruence].
Qed.

Lemma total_for_each {A : Type} (f : A -> M unit) (l : list A) :
  (forall x, total (f x)) -> total (for_each f l).
Proof.
  intros Hf. induction l as [|x l IH]; simpl.
  - apply total_ret.
  - apply total_bind; auto.
Qed.

Lemma total_map_m {A B : Type} (f : A -> M B) (l : list A) :
  (forall x, total (f x)) -> total (map_m f l).
Proof.
  intros Hf. induction l as [|x l IH]; simpl.
  - apply total_ret.
  - apply total_bind; [auto|]. intros y.
    apply total_bind; [auto|]. intros ys. apply total_ret.
Qed.

Lemma total_menu_select items mesg markup multi :
  total (menu_select items mesg markup multi).
Proof.
  intros w. unfold menu_select, bind, emit, modify. simpl.
  destruct (w_answers w); discriminate.
Qed.

Lemma total_menu_input prompt mesg : total (menu_input prompt mesg).
Proof.
  intros w. unfold menu_input, bind, emit, modify. simpl.
  destruct (w_inputs w); discriminate.
Qed.

Lemma total_spawn_mpv url : total (spawn_mpv url).
Proof.
  intros w. unfold spawn_mpv.
  destruct (mpv_installed (w_player w)); discriminate.
Qed.

(** A computation without a loop of its own: by its structure. *)
Ltac total_step :=
  cbv zeta;
  lazymatch goal with
  | |- total (bind _ _) => apply total_bind; [total_step | intros; total_step]
  | |- total (ret _) => apply total_ret
  | |- total (raise _) => apply total_raise
  | |- total (gets _) => apply total_gets
  | |- total (modify _) => apply total_modify
  | |- total (for_each _ _) => apply total_for_each; intros; total_step
  | |- total (map_m _ _) => apply total_map_m; intros; total_step
  | |- total (menu_select _ _ _ _) => apply total_menu_select
  | |- total (menu_input _ _) => apply total_menu_input
  | |- total (spawn_mpv _) => apply total_spawn_mpv
  | |- total (loop _ _) => fail "a loop"
  | |- total (match ?x with _ => _ end) => destruct x; total_step
  | |- total ?m =>
      first [ solve [auto with total]
            | let f := head_of m in unfold f; total_step ]
  end.

Create HintDb total.

Section Total.
Variable number : Z -> string.
Variable repr : Value -> string.
Variable self : TwitchApp.

Lemma show_and_play_total items mesg : total (show_and_play self items mesg).
Proof.
  apply loop_total.
  - apply show_and_play_body_asks.
  - total_step.
  - intros item. total_step.
Qed.
#[local] Hint Resolve show_and_play_total : total.

Lemma show_videos_total kwargs : total (show_videos self kwargs).
Proof. total_step. Qed.
#[local] Hint Resolve show_videos_total : total.

Lemma show_by_query_loop_total items mesg :
  total (show_by_query_loop self items mesg).
Proof.
  apply loop_total.
  - apply show_by_query_body_asks.
  - total_step.
  - intros item. total_step.
Qed.

Lemma show_all_streams_loop_total items mesg ks :
  total (show_all_streams_loop repr self items mesg ks).
Proof.
  apply loop_total.
  - apply show_all_streams_body_asks.
  - total_step.
  - intros item. total_step.
Qed.

Lemma show_keybinds_loop_total kwargs item items mesg :
  total (show_keybinds_loop self kwargs item items mesg).
Proof.
  apply loop_total.
  - apply show_keybinds_body_asks.
  - total_step.
  - intros item'. total_step.
Qed.

Lemma show_top_games_loop_total categories nviewers nchannels ks :
  total (show_top_games_loop number self categories nviewers nchannels ks).
Proof.
  apply loop_total.
  - apply show_top_games_body_asks.
  - total_step.
  - intros item. total_step.
Qed.
#[local] Hint Resolve show_by_query_loop_total show_all_streams_loop_total
  show_keybinds_loop_total show_top_games_loop_total : total.

(** No screen runs out of fuel: a run ends with a result, with an
    exception, or at a menu that the user has not answered yet. *)
Lemma screens_total (sanitize : string -> string)
  (stringify : Item -> list string) (SEPARATOR : string) (kwargs : Kwargs) :
  total (show_all_streams repr self kwargs) /\
  total (show_videos self kwargs) /\
  total (show_clips self kwargs) /\
  total (show_group_by_cat self kwargs) /\
  total (show_keybinds self kwargs) /\
  total (show_by_query self kwargs) /\
  total (show_by_game self kwargs) /\
  total (show_top_streams self kwargs) /\
  total (show_item_info sanitize stringify SEPARATOR kwargs) /\
  total (show_top_games number self kwargs) /\
  total (multi_selection self kwargs) /\
  total (open_chat kwargs) /\
  total (quit kwargs).
Proof.
  repeat match goal with |- _ /\ _ => split end; total_step.
Qed.
End Total.

(** C1 (as amended): when the menu hands back an item of a non-empty list
    with the Confirm code, [show_all_streams] and [show_by_query] run
    [show_videos] on that item when it is not playable, having played
    nothing; [show_and_play] raises [ItemNotPlaylableError] when the item is
    not playable, having played nothing; and the three of them, when the
    item is playable, call [play] with the name and the url of that item:
    the player runs on that url, and the screen returns 0 when the run ends
    with the exit status 0. When it ends with another status the screen
    fails with [ErrorReturnCode], and when the player is missing it fails
    with [CommandNotFound] and nothing runs. *)
Theorem confirm_on_item (repr : Value -> string) (self : TwitchApp)
  (items : dict string ref) (mesg : string) (w : World) (r : ref)
  (rest : list (Value * Z)) :
  items <> [] ->
  w_answers w = (VItem r, UserConfirms) :: rest ->
  let shown := answered (EvSelect (map VItem (dict_values items)) mesg
                           (Some (markup self)) false) rest in
  let name := i_name (w_items w r) in
  let url := i_url (w_items w r) in
  let status := mpv_exit (w_player w) url in
  let play := fun w1 =>
    if negb (mpv_installed (w_player w))
    then (Raised (CommandNotFound "mpv"), w1)
    else if status =? 0 then (Ok (Exit 0), log (EvPlay name url) w1)
    else (Raised (ErrorReturnCode status), log (EvPlay name url) w1) in
  show_and_play self items mesg w
  = (if i_playable (w_items w r) then play (shown w)
     else (Raised (ItemNotPlaylableError
                     ("item='" ++ i_name (w_items w r)
                      ++ "' is not playable")), shown w)) /\
  show_by_query_loop self items mesg w
  = (if i_playable (w_items w r) then play (shown w)
     else show_videos self (item_kwargs (VItem r)) (shown w)) /\
  (forall ks,
     NoDup (codes (w_keybinds w) ks) ->
     show_all_streams_loop repr self items mesg ks w
     = let w1 := shown (with_keys
                          (fun _ => registry_of (w_keybinds w) ks) w) in
       if i_playable (w_items w r) then play w1
       else show_videos self (item_kwargs (VItem r)) w1).
Proof.
  intros Hne Ha shown name url status play. split; [|split].
  - now apply show_and_play_confirm.
  - now apply show_by_query_confirm.
  - intros ks Hnd. now apply show_all_streams_confirm.
Qed.

Lemma confirm_on_item_witness :
  fst (show_and_play demo_app demo_items "streams"
         (demo_world [(VItem 1%nat, 0)] []))
  = Ok (Exit 0) /\
  show_by_query_loop demo_app demo_items "streams"
    (demo_world [(VItem 0%nat, 0)] [])
  = show_videos demo_app (item_kwargs (VItem 0%nat))
      (answered (EvSelect (map VItem (dict_values demo_items)) "streams"
                   (Some true) false) []
         (demo_world [(VItem 0%nat, 0)] [])).
Proof.
  split.
  - rewrite (proj1 (@confirm_on_item demo_repr demo_app demo_items "streams"
                      (demo_world [(VItem 1%nat, 0)] []) 1%nat []
                      ltac:(discriminate) eq_refl)).
    reflexivity.
  - exact (proj1 (proj2 (@confirm_on_item demo_repr demo_app demo_items
                           "streams" (demo_world [(VItem 0%nat, 0)] [])
                           0%nat [] ltac:(discriminate) eq_refl))).
Defined.

(** C1 fails as stated. In [show_and_play], confirming the channel A,
    which is not playable, opens no list of videos; the screen raises
    [ItemNotPlaylableError] after the one menu. And on the playable stream
    B, when the run of the player ends with the exit status 1, the screen
    has called [play] on the url of B but does not return 0. *)
Lemma show_and_play_confirm_unplayable :
  (let run := show_and_play demo_app demo_items "streams"
                (demo_world [(VItem 0%nat, 0)] []) in
   i_playable (demo_store 0%nat) = false /\
   fst run = Raised (ItemNotPlaylableError "item='A' is not playable") /\
   w_trace (snd run)
   = [EvSelect [VItem 0%nat; VItem 1%nat; VItem 2%nat] "streams" (Some true)
        false]) /\
  (let run := show_and_play demo_app demo_items "streams"
                (player_world broken_player [(VItem 1%nat, 0)]) in
   i_playable (demo_store 1%nat) = true /\
   fst run = Raised (ErrorReturnCode 1) /\
   w_trace (snd run)
   = [EvSelect [VItem 0%nat; VItem 1%nat; VItem 2%nat] "streams" (Some true)
        false;
      EvPlay "B" "url2"]).
Proof. repeat split. Qed.

(** C9 (as amended): in [show_and_play] on a list that is not empty, the
    Confirm code is looked at before the item: when the menu hands back no
    item with the Confirm code, the screen does not return 1; it leaves the
    loop and fails with an [AttributeError] on the attribute [name] of the
    absent item, while it builds the message of the error it is about to
    raise. *)
Theorem show_and_play_confirm_without_item (self : TwitchApp)
  (items : dict string ref) (mesg : string) (w : World)
  (rest : list (Value * Z)) :
  items <> [] ->
  w_answers w = (VNone, UserConfirms) :: rest ->
  show_and_play self items mesg w
  = (Raised (AttributeError "name"),
     answered (EvSelect (map VItem (dict_values items)) mesg
                 (Some (markup self)) false) rest w).
Proof.
  intros Hne Ha. unfold show_and_play.
  erewrite loop_break.
  2:{ rewrite (show_and_play_body_run self items mesg w Ha).
      rewrite selected_nonempty, display_nonempty by assumption.
      reflexivity. }
  reflexivity.
Qed.

Lemma show_and_play_confirm_without_item_witness :
  fst (show_and_play demo_app demo_items "streams"
         (demo_world [(VNone, 0)] []))
  = Raised (AttributeError "name").
Proof.
  rewrite (@show_and_play_confirm_without_item demo_app demo_items "streams"
             (demo_world [(VNone, 0)] []) [] ltac:(discriminate) eq_refl).
  reflexivity.
Defined.

(** C9 fails as stated on an empty list: [select] shows its placeholder and
    hands back no item with the Cancel code, whatever the menu answers, so
    [show_and_play] returns 1 although the menu has answered with no item
    and the Confirm code. *)
Lemma show_and_play_confirm_on_empty_list :
  let run := show_and_play demo_app [] "streams"
               (demo_world [(VNone, 0)] []) in
  fst run = Ok (Exit 1) /\
  w_trace (snd run)
  = [EvSelect [VStr "err: no items"] "streams" (Some false) false].
Proof. repeat split. Qed.

(** ** The multi-select screen *)

Lemma km_get_by_bind_run (b : string) (w : World) :
  km_get_by_bind b w
  = match by_bind b w with
    | Some k => (Ok k, w)
    | None => (Raised (BindNotFound b), w)
    end.
Proof.
  unfold km_get_by_bind, by_bind, bind, gets. simpl.
  destruct (find _ _); reflexivity.
Qed.

Lemma launch_all_run (l : list ref) (w : World) :
  mpv_installed (w_player w) = true ->
  launch_all (VList l) w
  = (Ok (handles (w_procs w) (map (fun r => i_url (w_items w r)) l)),
     launched l w).
Proof.
  unfold launch_all. revert w. induction l as [|j l IH]; intros w Hi.
  - simpl. unfold ret, launched. simpl. rewrite Nat.add_0_r, app_nil_r.
    destruct w; reflexivity.
  - simpl map_m.
    erewrite bind_ok.
    2:{ cbv [bind attr_url attr_item gets ret spawn_mpv].
        rewrite Hi. reflexivity. }
    erewrite bind_ok by (apply IH; exact Hi).
    unfold ret, launched. simpl.
    rewrite <- app_assoc, Nat.add_succ_r. reflexivity.
Qed.

(** Without the player the first launch fails, and nothing is launched. *)
Lemma launch_all_missing (j : ref) (l : list ref) (w : World) :
  mpv_installed (w_player w) = false ->
  launch_all (VList (j :: l)) w = (Raised (CommandNotFound "mpv"), w).
Proof.
  intros Hi. unfold launch_all. simpl map_m.
  erewrite bind_raised; [reflexivity|].
  cbv [bind attr_url attr_item gets ret spawn_mpv].
  rewrite Hi. reflexivity.
Qed.

Lemma for_each_wait_run (procs : list Proc) (w : World) :
  for_each wait procs w
  = (match first_failure (w_player w) procs with
     | None => Ok tt
     | Some p => Raised (ErrorReturnCode (mpv_exit (w_player w) (p_url p)))
     end,
     waited (map p_id (awaited (w_player w) procs)) w).
Proof.
  revert w. induction procs as [|p procs IH]; intros w.
  - simpl. unfold ret, waited. simpl. rewrite app_nil_r.
    destruct w; reflexivity.
  - cbn [for_each first_failure find awaited].
    unfold bind at 1. unfold wait at 1.
    unfold bind, emit, modify, gets, ret, raise. cbv beta iota.
    change (w_player (log (EvWait (p_id p)) w)) with (w_player w).
    destruct (mpv_exit (w_player w) (p_url p) =? 0) eqn:E; cbn [negb].
    + rewrite IH. fold (first_failure (w_player w) procs).
      change (w_player (log (EvWait (p_id p)) w)) with (w_player w).
      unfold waited. simpl. now rewrite <- app_assoc.
    + reflexivity.
Qed.

(** When every player ends with the status 0, every process is waited for
    and none has failed. *)
Lemma awaited_all (player : Player) (n : nat) (urls : list string) :
  Forall (fun u => mpv_exit player u = 0) urls ->
  first_failure player (handles n urls) = None /\
  map p_id (awaited player (handles n urls)) = seq n (List.length urls).
Proof.
  intros Hall. revert n.
  induction Hall as [|u urls Hu Hall IH]; intros n; [split; reflexivity|].
  unfold first_failure. simpl. rewrite Hu. simpl.
  destruct (IH (S n)) as [H1 H2]. unfold first_failure in H1.
  split; [exact H1 | f_equal; exact H2].
Qed.

Lemma find_pointwise {A : Type} (f g : A -> bool) (l : list A) :
  (forall x, f x = g x) -> find f l = find g l.
Proof.
  intros Hfg. induction l as [|x l IH]; simpl; [reflexivity|].
  now rewrite Hfg, IH.
Qed.

Lemma by_bind_hide (b : string) (k : ref) (w : World) :
  by_bind b (with_keybinds
               (fun s => store_set k (set_hidden true (s k)) s) w)
  = by_bind b w.
Proof.
  unfold by_bind. simpl. apply find_pointwise. intros k'.
  unfold store_set. destruct (Nat.eqb_spec k' k) as [->|]; reflexivity.
Qed.

Lemma fetched_run {A : Type} (op : FetchOp) (r : Exn + A) (w : World) :
  fetched op r w
  = match r with
    | inl e => (Raised e, log (EvFetch op) w)
    | inr a => (Ok a, log (EvFetch op) w)
    end.
Proof. destruct r; reflexivity. Qed.

Lemma fetched_ok {A : Type} (op : FetchOp) (r : Exn + A) (a : A)
  (w : World) :
  r = inr a -> fetched op r w = (Ok a, log (EvFetch op) w).
Proof. intros ->. reflexivity. Qed.

Lemma get_channels_and_streams_run (self : TwitchApp)
  (items : dict string ref) (w : World) :
  channels_and_streams (fetch self) = inr items ->
  get_channels_and_streams self w
  = (Ok (items, channels_mesg self items), log (EvFetch ChannelsAndStreams) w).
Proof.
  intros Hf. unfold get_channels_and_streams.
  erewrite bind_ok by (rewrite fetched_run, Hf; reflexivity).
  reflexivity.
Qed.

(** ** The screens and their loops *)

(** [show_all_streams] is its loop on the fetched channels and on the
    keybinds registered when the screen starts. *)
Lemma show_all_streams_run (repr : Value -> string) (self : TwitchApp)
  (kwargs : Kwargs) (items : dict string ref) (w : World) :
  channels_and_streams (fetch self) = inr items ->
  show_all_streams repr self kwargs w
  = show_all_streams_loop repr self items (channels_mesg self items)
      (dict_values (w_keys w)) (log (EvFetch ChannelsAndStreams) w).
Proof.
  intros Hf. unfold show_all_streams.
  erewrite bind_ok by (apply get_channels_and_streams_run; exact Hf).
  reflexivity.
Qed.

(** Registering the current keybinds anew leaves a well-formed registry as
    it was. *)
Lemma registry_of_current (w : World) :
  registry_ok w ->
  registry_of (w_keybinds w) (dict_values (w_keys w)) = w_keys w.
Proof.
  unfold registry_ok, registry_of, dict_values. rewrite map_map.
  induction (w_keys w) as [|[c k] d IH]; intros Hok; simpl.
  - reflexivity.
  - inversion Hok as [|? ? Hc Hd]; subst. simpl in Hc.
    rewrite Hc, IH by assumption. reflexivity.
Qed.
(** C8 (as amended): in the multi-select screen, once the user has chosen
    several items, the url of each is launched as a background player
    process, and all the launches come before the first wait. The screen
    then waits for the launched processes to end, in the order of the
    launches, and returns 0 only after every one of them has ended with
    the exit status 0; at the first process that ended with another status
    it fails with [ErrorReturnCode], the later processes not waited for.
    When the player is missing, the first launch fails with
    [CommandNotFound] and nothing is launched. *)
Theorem multi_selection_launches_then_waits (self : TwitchApp)
  (kwargs : Kwargs) (w : World) (items : dict string ref) (k : ref)
  (l : list ref) (code : Z) (rest : list (Value * Z)) :
  channels_and_streams (fetch self) = inr items ->
  items <> [] ->
  by_bind (bind_show_keys (keys self)) w = Some k ->
  w_answers w = (VList l, code) :: rest ->
  l <> [] ->
  let menu := EvSelect (map VItem (dict_values items))
                (multi_select_mesg (channels_mesg self items))
                (Some (markup self)) true in
  let w1 := answered menu rest
              (with_keybinds
                 (fun s => store_set k (set_hidden true (s k)) s)
                 (log (EvFetch ChannelsAndStreams) w)) in
  let urls := map (fun r => i_url (w_items w r)) l in
  let procs := handles (w_procs w) urls in
  let done := map p_id (awaited (w_player w) procs) in
  let w2 := waited done (launched l w1) in
  (mpv_installed (w_player w) = false ->
   multi_selection self kwargs w = (Raised (CommandNotFound "mpv"), w1)) /\
  (mpv_installed (w_player w) = true ->
   multi_selection self kwargs w
   = (match first_failure (w_player w) procs with
      | None => Ok (Exit 0)
      | Some p => Raised (ErrorReturnCode (mpv_exit (w_player w) (p_url p)))
      end, w2) /\
   w_trace w2
   = (w_trace w ++ [EvFetch ChannelsAndStreams; menu]
      ++ spawns (w_procs w) urls ++ map EvWait done)%list) /\
  (Forall (fun u => mpv_exit (w_player w) u = 0) urls ->
   first_failure (w_player w) procs = None /\
   done = seq (w_procs w) (List.length l)).
Proof.
  intros Hf Hne Hk Ha Hl menu w1 urls procs done w2.
  assert (R : multi_selection self kwargs w
              = (procs <- launch_all (VList l) ;;
                 for_each wait procs ;;
                 ret (Exit 0)) w1).
  { unfold multi_selection.
    erewrite bind_ok by (apply get_channels_and_streams_run; exact Hf).
    cbv beta iota zeta.
    erewrite bind_ok.
    2:{ rewrite km_get_by_bind_run.
        change (by_bind (bind_show_keys (keys self))
                  (log (EvFetch ChannelsAndStreams) w))
          with (by_bind (bind_show_keys (keys self)) w).
        rewrite Hk. reflexivity. }
    erewrite bind_ok by reflexivity.
    destruct items as [|kv items]; [congruence|].
    erewrite bind_ok by (apply select_run; exact Ha).
    unfold selected, display. cbv beta iota zeta.
    destruct l as [|j l0]; [congruence|].
    change (negb (truthy (VList (j :: l0)))) with false. cbv iota.
    reflexivity. }
  split; [|split].
  - intros Hi. rewrite R.
    destruct l as [|j l0]; [congruence|].
    erewrite bind_raised; [reflexivity|].
    now apply launch_all_missing.
  - intros Hi. split.
    + rewrite R.
      erewrite bind_ok by (apply launch_all_run; exact Hi).
      unfold bind at 1. rewrite for_each_wait_run.
      change (w_player (launched l w1)) with (w_player w).
      change (w_procs w1) with (w_procs w).
      change (w_items w1) with (w_items w).
      fold urls. fold procs. fold done. fold w2.
      destruct (first_failure (w_player w) procs); reflexivity.
    + unfold w2, w1, waited, launched, answered. simpl.
      rewrite <- !app_assoc. reflexivity.
  - intros Hall. unfold done, procs.
    rewrite <- (length_map (fun r => i_url (w_items w r)) l).
    now apply awaited_all.
Qed.

Lemma multi_selection_launches_then_waits_witness :
  fst (multi_selection demo_app no_kwargs
         (demo_world [(VList [1%nat; 2%nat], 0)] []))
  = Ok (Exit 0) /\
  fst (multi_selection demo_app no_kwargs
         (player_world no_player [(VList [1%nat; 2%nat], 0)]))
  = Raised (CommandNotFound "mpv").
Proof.
  split.
  - rewrite (proj1 (proj1 (proj2 (@multi_selection_launches_then_waits
                                    demo_app no_kwargs
                                    (demo_world [(VList [1%nat; 2%nat], 0)]
                                       [])
                                    demo_items 0%nat [1%nat; 2%nat] 0 []
                                    eq_refl ltac:(discriminate) eq_refl
                                    eq_refl ltac:(discriminate)))
                      eq_refl)).
    reflexivity.
  - rewrite (proj1 (@multi_selection_launches_then_waits demo_app no_kwargs
                      (player_world no_player [(VList [1%nat; 2%nat], 0)])
                      demo_items 0%nat [1%nat; 2%nat] 0 []
                      eq_refl ltac:(discriminate) eq_refl eq_refl
                      ltac:(discriminate))
               eq_refl).
    reflexivity.
Defined.

(** C8 fails as stated: with the streams B and C chosen, the screen calls
    [wait] on both player processes, that is, it blocks until both players
    have ended, before it returns. And when the players end with the exit
    status 1, the screen does not return at all: it fails on the first
    wait. *)
Lemma multi_selection_waits_for_players :
  (let run := multi_selection demo_app no_kwargs
                (demo_world [(VList [1%nat; 2%nat], 0)] []) in
   fst run = Ok (Exit 0) /\
   w_trace (snd run)
   = [EvFetch ChannelsAndStreams;
      EvSelect [VItem 0%nat; VItem 1%nat; VItem 2%nat]
        (multi_select_mesg "> Showing (3) streams from 3 channels")
        (Some true) true;
      EvSpawn 0 "url2"; EvSpawn 1 "url3"; EvWait 0; EvWait 1] /\
   In (EvWait 0) (w_trace (snd run)) /\ In (EvWait 1) (w_trace (snd run)))
  /\
  (let run := multi_selection demo_app no_kwargs
                (player_world broken_player [(VList [1%nat; 2%nat], 0)]) in
   fst run = Raised (ErrorReturnCode 1) /\
   w_trace (snd run)
   = [EvFetch ChannelsAndStreams;
      EvSelect [VItem 0%nat; VItem 1%nat; VItem 2%nat]
        (multi_select_mesg "> Showing (3) streams from 3 channels")
        (Some true) true;
      EvSpawn 0 "url2"; EvSpawn 1 "url3"; EvWait 0]).
Proof.
  split; [|repeat split].
  repeat split.
  - simpl. do 4 right. now left.
  - simpl. do 5 right. now left.
Qed.

(** Whenever [multi_selection] returns, the registry is the one it started
    with and the only keybind object that has changed is the keybind of the
    show-keybinds label, which is hidden. *)
Lemma multi_selection_registry_after (self : TwitchApp)
  (kwargs : Kwargs) (w w' : World) (out : Outcome) :
  multi_selection self kwargs w = (Ok out, w') ->
  exists k,
    by_bind (bind_show_keys (keys self)) w = Some k /\
    by_bind (bind_show_keys (keys self)) w' = Some k /\
    k_hidden (w_keybinds w' k) = true /\
    w_keys w' = w_keys w /\
    w_keybinds w'
    = store_set k (set_hidden true (w_keybinds w k)) (w_keybinds w).
Proof.
  intros H. unfold multi_selection in H.
  apply bind_inv in H. destruct H as ([items mesg] & w1 & E1 & H).
  assert (F1 : registry w1 = registry w).
  { assert (F : respects (same registry)
                  (get_channels_and_streams self)) by frame.
    specialize (F w). now rewrite E1 in F. }
  cbv zeta in H.
  apply bind_inv in H. destruct H as (k & w2 & E2 & H).
  rewrite km_get_by_bind_run in E2.
  destruct (by_bind (bind_show_keys (keys self)) w1) as [k0|] eqn:Ek;
    [|discriminate].
  injection E2 as -> <-.
  apply bind_inv in H. destruct H as ([] & w3 & E3 & H).
  injection E3 as <-.
  assert (F2 : registry w'
               = registry (with_keybinds
                             (fun s => store_set k (set_hidden true (s k)) s)
                             w1)).
  { match type of H with
    | ?m ?w0 = _ =>
        assert (F : respects (same registry) m) by frame;
        specialize (F w0); rewrite H in F; exact F
    end. }
  unfold registry in F1, F2. simpl in F2.
  injection F1 as Hkb Hkeys. injection F2 as Hkb' Hkeys'.
  assert (Eb : by_bind (bind_show_keys (keys self)) w = Some k).
  { unfold by_bind in *. now rewrite <- Hkb, <- Hkeys. }
  exists k. split; [exact Eb|]. split; [|split; [|split]].
  - rewrite <- Eb. unfold by_bind. rewrite Hkb', Hkeys', Hkb, Hkeys.
    apply find_pointwise. intros k'. unfold store_set.
    destruct (Nat.eqb_spec k' k) as [->|]; reflexivity.
  - rewrite Hkb'. unfold store_set. now rewrite Nat.eqb_refl.
  - congruence.
  - now rewrite Hkb', Hkb.
Qed.

(** The menu of [multi_selection], while the user has not answered: the
    keybind of the show-keybinds label is hidden already. *)
Lemma multi_selection_waiting (self : TwitchApp) (kwargs : Kwargs)
  (w : World) (items : dict string ref) (k : ref) :
  channels_and_streams (fetch self) = inr items ->
  by_bind (bind_show_keys (keys self)) w = Some k ->
  w_answers w = [] ->
  multi_selection self kwargs w
  = (Waiting,
     log (display self VItem items
            (multi_select_mesg (channels_mesg self items)) true)
       (with_keybinds (fun s => store_set k (set_hidden true (s k)) s)
          (log (EvFetch ChannelsAndStreams) w))).
Proof.
  intros Hf Hk Ha. unfold multi_selection.
  erewrite bind_ok by (apply get_channels_and_streams_run; exact Hf).
  cbv beta iota zeta.
  erewrite bind_ok.
  2:{ rewrite km_get_by_bind_run.
      change (by_bind (bind_show_keys (keys self))
                (log (EvFetch ChannelsAndStreams) w))
        with (by_bind (bind_show_keys (keys self)) w).
      rewrite Hk. reflexivity. }
  erewrite bind_ok by reflexivity.
  destruct items as [|kv items].
  - erewrite bind_waiting; [reflexivity|].
    unfold menu_select, bind, emit, modify. cbv beta iota.
    change (w_answers (log ?e (with_keybinds ?f (log ?e0 w))))
      with (w_answers w).
    rewrite Ha. reflexivity.
  - erewrite bind_waiting; [reflexivity|].
    apply select_waiting. exact Ha.
Qed.

(** C10: [multi_selection] hides the keybind of the show-keybinds label in
    the registry before it shows its menu, and never shows it again. While
    the menu is on display and the user has not answered, the keybind is
    hidden already; and whenever the screen returns, the registry is the
    one it started with, the only keybind object that has changed is that
    keybind, which is hidden, and a lookup of the label still finds it. *)
Theorem multi_selection_leaves_show_keys_hidden (self : TwitchApp)
  (kwargs : Kwargs) (w : World) :
  (forall items k,
     channels_and_streams (fetch self) = inr items ->
     by_bind (bind_show_keys (keys self)) w = Some k ->
     w_answers w = [] ->
     let menu := display self VItem items
                   (multi_select_mesg (channels_mesg self items)) true in
     exists w1,
       multi_selection self kwargs w = (Waiting, w1) /\
       w_trace w1 = (w_trace w ++ [EvFetch ChannelsAndStreams; menu])%list /\
       k_hidden (w_keybinds w1 k) = true /\
       w_keybinds w1
       = store_set k (set_hidden true (w_keybinds w k)) (w_keybinds w)) /\
  (forall w' out,
     multi_selection self kwargs w = (Ok out, w') ->
     exists k,
       by_bind (bind_show_keys (keys self)) w = Some k /\
       by_bind (bind_show_keys (keys self)) w' = Some k /\
       k_hidden (w_keybinds w' k) = true /\
       w_keys w' = w_keys w /\
       w_keybinds w'
       = store_set k (set_hidden true (w_keybinds w k)) (w_keybinds w)).
Proof.
  split.
  - intros items k Hf Hk Ha menu. eexists. split.
    + exact (@multi_selection_waiting self kwargs w items k Hf Hk Ha).
    + simpl. rewrite <- app_assoc. split; [reflexivity|].
      split; [|reflexivity].
      unfold store_set. now rewrite Nat.eqb_refl.
  - intros w' out H.
    exact (@multi_selection_registry_after self kwargs w w' out H).
Qed.

(** The menu on display, and the three ways in which [multi_selection]
    returns: on an empty list, on a cancelled menu, and after the players. *)
Lemma multi_selection_leaves_show_keys_hidden_witness :
  (exists w1,
     multi_selection demo_app no_kwargs (demo_world [] []) = (Waiting, w1) /\
     k_hidden (demo_keybinds 0%nat) = false /\
     k_hidden (w_keybinds w1 0%nat) = true) /\
  (let w' := snd (multi_selection empty_app no_kwargs
                    (demo_world [(VNone, 1)] [])) in
   k_hidden (w_keybinds w' 0%nat) = true) /\
  (let w' := snd (multi_selection demo_app no_kwargs
                    (demo_world [(VNone, 1)] [])) in
   k_hidden (w_keybinds w' 0%nat) = true) /\
  (let w' := snd (multi_selection demo_app no_kwargs
                    (demo_world [(VList [1%nat; 2%nat], 0)] [])) in
   k_hidden (w_keybinds w' 0%nat) = true).
Proof.
  split; [|split; [|split]].
  - destruct (proj1 (multi_selection_leaves_show_keys_hidden demo_app
                       no_kwargs (demo_world [] []))
                demo_items 0%nat eq_refl eq_refl eq_refl)
      as (w1 & E & _ & Hh & _).
    exists w1. split; [exact E|]. split; [reflexivity | exact Hh].
  - destruct (proj2 (multi_selection_leaves_show_keys_hidden empty_app
                       no_kwargs (demo_world [(VNone, 1)] []))
                (snd (multi_selection empty_app no_kwargs
                        (demo_world [(VNone, 1)] [])))
                (Exit 1) eq_refl)
      as (k & Hk & _ & Hh & _).
    injection Hk as <-. exact Hh.
  - destruct (proj2 (multi_selection_leaves_show_keys_hidden demo_app
                       no_kwargs (demo_world [(VNone, 1)] []))
                (snd (multi_selection demo_app no_kwargs
                        (demo_world [(VNone, 1)] [])))
                (Exit 1) eq_refl)
      as (k & Hk & _ & Hh & _).
    injection Hk as <-. exact Hh.
  - assert (H : multi_selection demo_app no_kwargs
                  (demo_world [(VList [1%nat; 2%nat], 0)] [])
                = (Ok (Exit 0),
                   snd (multi_selection demo_app no_kwargs
                          (demo_world [(VList [1%nat; 2%nat], 0)] []))))
      by (vm_compute; reflexivity).
    destruct (proj2 (multi_selection_leaves_show_keys_hidden demo_app
                       no_kwargs
                       (demo_world [(VList [1%nat; 2%nat], 0)] []))
                _ _ H)
      as (k & Hk & _ & Hh & _).
    injection Hk as <-. exact Hh.
Defined.

(** ** The item that [show_item_info] writes to *)

Lemma show_item_info_items (sanitize : string -> string)
  (stringify : Item -> list string) (SEPARATOR : string) (kwargs : Kwargs)
  (w : World) :
  w_items (snd (show_item_info sanitize stringify SEPARATOR kwargs w))
  = match kw_item kwargs with
    | Some (VItem r) =>
        store_set r
          (set_title (sanitize (i_title (w_items w r))) (w_items w r))
          (w_items w)
    | _ => w_items w
    end.
Proof.
  unfold show_item_info. unfold bind at 1. unfold km_unregister_all, modify.
  unfold kwargs_item.
  destruct (kw_item kwargs) as [item|]; [|reflexivity].
  erewrite bind_ok by reflexivity.
  destruct item; try reflexivity.
  erewrite bind_ok by reflexivity.
  erewrite bind_ok by reflexivity.
  erewrite bind_ok by reflexivity.
  erewrite bind_ok by reflexivity.
  match goal with
  | |- w_items (snd (?m ?w0)) = _ =>
      assert (F : respects (same w_items) m) by frame;
      specialize (F w0); unfold same in F; rewrite F
  end.
  reflexivity.
Qed.

(** C7 (as amended): no screen changes an item of the store, but for
    [show_item_info], which writes the sanitised title into the item it is
    given: that item keeps every other attribute, and every other item is
    unchanged. Grouping into categories changes no item either. *)
Theorem items_unchanged_but_for_the_title (sanitize : string -> string)
  (stringify : Item -> list string) (number : Z -> string)
  (SEPARATOR : string) (repr : Value -> string) (self : TwitchApp)
  (kwargs : Kwargs) :
  respects (same w_items) (show_all_streams repr self kwargs) /\
  respects (same w_items) (show_videos self kwargs) /\
  respects (same w_items) (show_clips self kwargs) /\
  respects (same w_items) (show_group_by_cat self kwargs) /\
  respects (same w_items) (show_keybinds self kwargs) /\
  (forall items mesg,
     respects (same w_items) (show_and_play self items mesg)) /\
  respects (same w_items) (show_by_query self kwargs) /\
  respects (same w_items) (show_by_game self kwargs) /\
  respects (same w_items) (show_top_streams self kwargs) /\
  respects (same w_items) (show_top_games number self kwargs) /\
  respects (same w_items) (multi_selection self kwargs) /\
  respects (same w_items) (open_chat kwargs) /\
  respects (same w_items) (quit kwargs) /\
  (forall w,
     w_items (snd (show_item_info sanitize stringify SEPARATOR kwargs w))
     = match kw_item kwargs with
       | Some (VItem r) =>
           store_set r
             (set_title (sanitize (i_title (w_items w r))) (w_items w r))
             (w_items w)
       | _ => w_items w
       end).
Proof.
  split; [apply show_all_streams_items|].
  split; [apply show_videos_items|].
  split; [apply show_clips_items|].
  split; [apply show_group_by_cat_items|].
  split; [apply show_keybinds_items|].
  split; [apply show_and_play_items|].
  split; [apply show_by_query_items|].
  split; [apply show_by_game_items|].
  split; [apply show_top_streams_items|].
  split; [apply show_top_games_items|].
  split; [apply multi_selection_items|].
  split; [apply open_chat_items|].
  split; [apply quit_items|].
  apply show_item_info_items.
Qed.

(** C7 fails as stated in [show_item_info]: with a sanitiser that escapes
    the ampersand, the title of the channel A of the list is another one
    once the screen has ended. *)
Lemma show_item_info_rewrites_title :
  let w := demo_world [(VNone, 1)] [] in
  let w' := snd (show_item_info escape_amp demo_stringify " | "
                   (item_kwargs (VItem 0%nat)) w) in
  i_title (w_items w 0%nat) = "Tom & Jerry" /\
  i_title (w_items w' 0%nat) = "Tom &amp; Jerry" /\
  w_items w' 0%nat <> w_items w 0%nat.
Proof.
  split; [reflexivity|]. split; [reflexivity|]. discriminate.
Qed.

(** ** The free-text input *)

Lemma lstrip_blank (s : string) :
  forallb is_space (list_ascii_of_string s) = true -> lstrip s = EmptyString.
Proof.
  induction s as [|c s IH]; simpl; [reflexivity|].
  rewrite andb_true_iff. intros [Hc Hs]. rewrite Hc. auto.
Qed.

Lemma strip_blank (s : string) :
  forallb is_space (list_ascii_of_string s) = true -> strip s = EmptyString.
Proof. intros Hb. unfold strip. now rewrite lstrip_blank. Qed.

Lemma succeeds_ret {A : Type} (a : A) : succeeds (ret a).
Proof. intros w. now exists a, w. Qed.

Lemma succeeds_bind {A B : Type} (c : M A) (k : A -> M B) :
  succeeds c -> (forall a, succeeds (k a)) -> succeeds (bind c k).
Proof.
  intros Hc Hk w. destruct (Hc w) as (a & w1 & E1).
  destruct (Hk a w1) as (b & w2 & E2). exists b, w2.
  erewrite bind_ok by exact E1. exact E2.
Qed.

Lemma succeeds_for_each {A : Type} (f : A -> M unit) (l : list A) :
  (forall x, succeeds (f x)) -> succeeds (for_each f l).
Proof.
  intros Hf. induction l as [|x l IH]; simpl.
  - apply succeeds_ret.
  - apply succeeds_bind; auto.
Qed.

Lemma succeeds_modify (f : World -> World) : succeeds (modify f).
Proof. intros w. now exists tt, (f w). Qed.

Lemma succeeds_gets {A : Type} (f : World -> A) : succeeds (gets f).
Proof. intros w. now exists (f w), w. Qed.

Lemma km_toggle_hidden_succeeds (restore : bool) :
  succeeds (km_toggle_hidden restore).
Proof.
  unfold km_toggle_hidden.
  apply succeeds_bind; [apply succeeds_gets|]. intros current.
  apply succeeds_bind.
  - apply succeeds_for_each. intros k.
    apply succeeds_bind; [apply succeeds_gets|]. intros key.
    destruct (k_hidden key); [apply succeeds_ret|].
    apply succeeds_bind; intros; apply succeeds_modify.
  - intros _. destruct restore; [|apply succeeds_ret].
    apply succeeds_bind; [apply succeeds_gets|]. intros temp.
    apply succeeds_bind; [|intros; apply succeeds_modify].
    apply succeeds_for_each. intros k. apply succeeds_modify.
Qed.

Lemma km_toggle_hidden_io (restore : bool) :
  respects (same io) (km_toggle_hidden restore).
Proof. frame. Qed.

(** [take_input] hands back the trimmed text of the user, having asked the
    menu once. *)
Lemma take_input_run (mesg prompt : string) (w : World)
  (input : option string) (rest : list (option string)) :
  w_inputs w = input :: rest ->
  exists w',
    take_input mesg prompt w
    = (Ok match input with
          | None => EmptyString
          | Some s => strip s
          end, w') /\
    w_trace w' = (w_trace w ++ [EvInput prompt mesg])%list /\
    w_inputs w' = rest.
Proof.
  intros Hi. unfold take_input.
  destruct (km_toggle_hidden_succeeds false w) as ([] & w1 & E1).
  pose proof (km_toggle_hidden_io false w) as F1. rewrite E1 in F1.
  unfold same, io in F1. simpl in F1. injection F1 as Ht1 Hi1.
  erewrite bind_ok by exact E1.
  assert (E2 : menu_input prompt mesg w1
               = (Ok input, with_inputs rest (log (EvInput prompt mesg) w1))).
  { unfold menu_input, bind, emit, modify. simpl. now rewrite Hi1, Hi. }
  erewrite bind_ok by exact E2.
  destruct (km_toggle_hidden_succeeds true
              (with_inputs rest (log (EvInput prompt mesg) w1)))
    as ([] & w3 & E3).
  pose proof (km_toggle_hidden_io true
                (with_inputs rest (log (EvInput prompt mesg) w1))) as F3.
  rewrite E3 in F3. unfold same, io in F3. simpl in F3.
  injection F3 as Ht3 Hi3.
  erewrite bind_ok by exact E3.
  exists w3. rewrite Ht3, Hi3, Ht1. split; [|split; reflexivity].
  destruct input as [[|c s]|]; reflexivity.
Qed.

(** C6: when [show_by_query] or [show_by_game] is called without its
    argument and the user enters nothing, or only whitespace, the screen
    returns 1, and the only call to a collaborator is the input menu: no
    operation of the fetcher is called. *)
Theorem blank_input_cancels_search (self : TwitchApp) (kwargs : Kwargs)
  (w : World) (input : option string) (rest : list (option string)) :
  w_inputs w = input :: rest ->
  blank input = true ->
  (kw_query kwargs = None ->
   fst (show_by_query self kwargs w) = Ok (Exit 1) /\
   w_trace (snd (show_by_query self kwargs w))
   = (w_trace w
      ++ [EvInput "TwitchChannelSearch> " "Search <channels> by query"])%list)
  /\
  (kw_game kwargs = None ->
   fst (show_by_game self kwargs w) = Ok (Exit 1) /\
   w_trace (snd (show_by_game self kwargs w))
   = (w_trace w
      ++ [EvInput "TwitchGameSearch> " "Search <games> or <categories>"])%list).
Proof.
  intros Hi Hb.
  assert (Ht : match input with
               | None => EmptyString
               | Some s => strip s
               end = EmptyString).
  { destruct input as [s|]; [|reflexivity]. now apply strip_blank. }
  split; intros Hk.
  - unfold show_by_query. rewrite Hk.
    destruct (take_input_run "Search <channels> by query"
                "TwitchChannelSearch> " w Hi) as (w' & E & Htr & _).
    rewrite Ht in E. erewrite bind_ok by exact E. simpl. auto.
  - unfold show_by_game. rewrite Hk.
    destruct (take_input_run "Search <games> or <categories>"
                "TwitchGameSearch> " w Hi) as (w' & E & Htr & _).
    rewrite Ht in E. erewrite bind_ok by exact E. simpl. auto.
Qed.

Lemma blank_input_cancels_search_witness :
  blank (Some "   ") = true /\
  fst (show_by_query demo_app no_kwargs (demo_world [] [Some "   "]))
  = Ok (Exit 1) /\
  fst (show_by_game demo_app no_kwargs (demo_world [] [None]))
  = Ok (Exit 1).
Proof.
  split; [reflexivity|]. split.
  - exact (proj1 (proj1 (@blank_input_cancels_search demo_app no_kwargs
                           (demo_world [] [Some "   "]) (Some "   ") []
                           eq_refl eq_refl) eq_refl)).
  - exact (proj1 (proj2 (@blank_input_cancels_search demo_app no_kwargs
                           (demo_world [] [None]) None []
                           eq_refl eq_refl) eq_refl)).
Defined.

(** ** A menu that hands back nothing *)

Lemma selected_cancel {T : Type} (items : dict string T) :
  selected items (VNone, UserCancel) = (VNone, UserCancel).
Proof. destruct items; reflexivity. Qed.

Section Nothing.
Variable number : Z -> string.
Variable repr : Value -> string.
Variable self : TwitchApp.






(** The channel menu of [show_top_games], when nothing is chosen: the loop
    starts again from the menu of categories. *)
Lemma show_top_games_back_to_categories categories nviewers nchannels ks w c
  code a rest :
  categories <> [] ->
  NoDup (codes (w_keybinds w) ks) ->
  w_answers w = (VCategory c, code) :: a :: rest ->
  truthy (fst (selected (c_channels c) a)) = false ->
  show_top_games_loop number self categories nviewers nchannels ks w
  = show_top_games_loop number self categories nviewers nchannels ks
      (answered (display self VItem (c_channels c)
                   (category_streams_mesg (c_channels c) (c_name c)) false)
         rest
         (channel_level self categories
            (top_categories_mesg number categories nviewers nchannels)
            ks (a :: rest) w)).
Proof.
  intros Hne Hnd Ha Ht. unfold show_top_games_loop.
  apply loop_continue; [apply show_top_games_body_asks|].
  rewrite (@show_top_games_body_run number self categories nviewers
             nchannels ks w c code a rest Hne Hnd Ha).
  destruct (selected (c_channels c) a) as [item keycode]. simpl in *.
  now rewrite Ht.
Qed.

(** [show_all_streams] shows its menu again when an item comes back with
    the Cancel code. *)
Lemma show_all_streams_again items mesg ks w r rest :
  items <> [] ->
  NoDup (codes (w_keybinds w) ks) ->
  w_answers w = (VItem r, UserCancel) :: rest ->
  show_all_streams_loop repr self items mesg ks w
  = show_all_streams_loop repr self items mesg ks
      (answered (display self VItem items mesg false) rest
         (with_keys (fun _ => registry_of (w_keybinds w) ks) w)).
Proof.
  intros Hne Hnd Ha. unfold show_all_streams_loop.
  apply loop_continue; [apply show_all_streams_body_asks|].
  rewrite (show_all_streams_body_run repr self items mesg ks w Hnd Ha).
  rewrite selected_nonempty by assumption. simpl.
  rewrite andb_false_r. reflexivity.
Qed.




End Nothing.


(** ** Cancelling a screen *)




Section Cancelled.
Variable number : Z -> string.
Variable repr : Value -> string.
Variable self : TwitchApp.








End Cancelled.




(** ** A code that no keybind has *)

Lemma is_keybind_code_true (keycode : Z) :
  is_keybind_code keycode = true ->
  (keycode =? UserConfirms) = false /\ (keycode =? UserCancel) = false.
Proof.
  unfold is_keybind_code. rewrite negb_true_iff, orb_false_iff. tauto.
Qed.

Section UnknownCode.
Variable number : Z -> string.
Variable repr : Value -> string.
Variable self : TwitchApp.

Lemma show_and_play_unknown_code items mesg w item keycode rest :
  items <> [] ->
  w_answers w = (item, keycode) :: rest ->
  truthy item = true ->
  is_keybind_code keycode = true ->
  dict_get keycode (w_keys w) = None ->
  show_and_play self items mesg w
  = (Raised (KeybindNotFound keycode),
     answered (display self VItem items mesg false) rest w).
Proof.
  intros Hne Ha Ht Hc Hg. unfold show_and_play. apply loop_raised.
  rewrite (show_and_play_body_run self items mesg w Ha).
  rewrite selected_nonempty by assumption.
  destruct (is_keybind_code_true _ Hc) as [H0 H1].
  cbv zeta. rewrite H0, H1, Ht, Hc. simpl.
  erewrite bind_raised; [reflexivity|].
  now apply km_get_by_code_missing.
Qed.

Lemma show_by_query_unknown_code items mesg w r keycode rest :
  items <> [] ->
  w_answers w = (VItem r, keycode) :: rest ->
  is_keybind_code keycode = true ->
  dict_get keycode (w_keys w) = None ->
  show_by_query_loop self items mesg w
  = (Raised (KeybindNotFound keycode),
     answered (display self VItem items mesg false) rest w).
Proof.
  intros Hne Ha Hc Hg. unfold show_by_query_loop. apply loop_raised.
  rewrite (show_by_query_body_run self items mesg w Ha).
  rewrite selected_nonempty by assumption.
  destruct (is_keybind_code_true _ Hc) as [H0 H1].
  cbv zeta. rewrite H0, H1, Hc. simpl. rewrite andb_false_r.
  erewrite bind_raised; [reflexivity|].
  now apply km_get_by_code_missing.
Qed.

Lemma show_all_streams_unknown_code items mesg ks w r keycode rest :
  items <> [] ->
  NoDup (codes (w_keybinds w) ks) ->
  w_answers w = (VItem r, keycode) :: rest ->
  is_keybind_code keycode = true ->
  ~ In keycode (codes (w_keybinds w) ks) ->
  show_all_streams_loop repr self items mesg ks w
  = (Raised (KeybindNotFound keycode),
     answered (display self VItem items mesg false) rest
       (with_keys (fun _ => registry_of (w_keybinds w) ks) w)).
Proof.
  intros Hne Hnd Ha Hc Hg. unfold show_all_streams_loop. apply loop_raised.
  rewrite (show_all_streams_body_run repr self items mesg ks w Hnd Ha).
  rewrite selected_nonempty by assumption.
  destruct (is_keybind_code_true _ Hc) as [H0 H1].
  cbv zeta. rewrite H0, Hc. simpl. rewrite andb_false_r.
  erewrite bind_raised; [reflexivity|].
  apply km_get_by_code_missing. simpl. now apply registry_of_get_none.
Qed.

Lemma show_keybinds_unknown_code kwargs it items mesg w item keycode rest :
  items <> [] ->
  w_answers w = (item, keycode) :: rest ->
  is_keybind_code keycode = true ->
  dict_get keycode (w_keys w) = None ->
  show_keybinds_loop self kwargs it items mesg w
  = (Raised (KeybindNotFound keycode),
     answered (display self VKeybind items mesg false) rest w).
Proof.
  intros Hne Ha Hc Hg. unfold show_keybinds_loop. apply loop_raised.
  rewrite (show_keybinds_body_run self kwargs it items mesg w Ha).
  rewrite selected_nonempty by assumption.
  destruct (is_keybind_code_true _ Hc) as [H0 H1].
  cbv zeta. rewrite H0, H1. simpl.
  erewrite bind_raised; [reflexivity|].
  erewrite bind_raised; [reflexivity|].
  now apply km_get_by_code_missing.
Qed.

Lemma show_top_games_unknown_code categories nviewers nchannels ks w c code
  item keycode rest :
  categories <> [] ->
  c_channels c <> [] ->
  NoDup (codes (w_keybinds w) ks) ->
  w_answers w = (VCategory c, code) :: (item, keycode) :: rest ->
  truthy item = true ->
  is_keybind_code keycode = true ->
  ~ In keycode (codes (w_keybinds w) ks) ->
  show_top_games_loop number self categories nviewers nchannels ks w
  = (Raised (KeybindNotFound keycode),
     answered (display self VItem (c_channels c)
                 (category_streams_mesg (c_channels c) (c_name c)) false)
       rest
       (channel_level self categories
          (top_categories_mesg number categories nviewers nchannels)
          ks ((item, keycode) :: rest) w)).
Proof.
  intros Hne Hch Hnd Ha Ht Hc Hg. unfold show_top_games_loop.
  apply loop_raised.
  rewrite (@show_top_games_body_run number self categories nviewers
             nchannels ks w c code (item, keycode) rest Hne Hnd Ha).
  rewrite selected_nonempty by assumption.
  destruct (is_keybind_code_true _ Hc) as [H0 H1].
  cbv zeta. rewrite H0, Ht, Hc. simpl.
  erewrite bind_raised; [reflexivity|].
  apply km_get_by_code_missing. simpl. apply registry_of_get_none.
  now rewrite toggled_codes.
Qed.
End UnknownCode.

(** C4 (as amended): in the loops that dispatch on the result code, that
    is [show_and_play], [show_by_query], [show_all_streams],
    [show_keybinds] and the channel menu of [show_top_games], when the
    menu, shown on a list that is not empty, hands back a selection with a
    code that is neither Confirm nor Cancel and that no registered keybind
    has, the lookup of the keybind fails and the screen ends with that
    error instead of showing its menu again. The selection is any chosen
    value for [show_and_play] and for the channel menu, an item of the list
    for [show_by_query] and [show_all_streams], and anything for
    [show_keybinds]. *)
Theorem unknown_code_fails (number : Z -> string) (repr : Value -> string)
  (self : TwitchApp) :
  (forall w item keycode rest,
     w_answers w = (item, keycode) :: rest ->
     is_keybind_code keycode = true ->
     (forall items mesg,
        items <> [] -> truthy item = true ->
        dict_get keycode (w_keys w) = None ->
        show_and_play self items mesg w
        = (Raised (KeybindNotFound keycode),
           answered (display self VItem items mesg false) rest w)) /\
     (forall items mesg r,
        items <> [] -> item = VItem r ->
        dict_get keycode (w_keys w) = None ->
        show_by_query_loop self items mesg w
        = (Raised (KeybindNotFound keycode),
           answered (display self VItem items mesg false) rest w)) /\
     (forall items mesg ks r,
        items <> [] -> item = VItem r ->
        NoDup (codes (w_keybinds w) ks) ->
        ~ In keycode (codes (w_keybinds w) ks) ->
        show_all_streams_loop repr self items mesg ks w
        = (Raised (KeybindNotFound keycode),
           answered (display self VItem items mesg false) rest
             (with_keys (fun _ => registry_of (w_keybinds w) ks) w))) /\
     (forall kwargs it items mesg,
        items <> [] ->
        dict_get keycode (w_keys w) = None ->
        show_keybinds_loop self kwargs it items mesg w
        = (Raised (KeybindNotFound keycode),
           answered (display self VKeybind items mesg false) rest w)))
  /\
  (forall categories nviewers nchannels ks w c code item keycode rest,
     categories <> [] ->
     c_channels c <> [] ->
     NoDup (codes (w_keybinds w) ks) ->
     w_answers w = (VCategory c, code) :: (item, keycode) :: rest ->
     truthy item = true ->
     is_keybind_code keycode = true ->
     ~ In keycode (codes (w_keybinds w) ks) ->
     show_top_games_loop number self categories nviewers nchannels ks w
     = (Raised (KeybindNotFound keycode),
        answered (display self VItem (c_channels c)
                    (category_streams_mesg (c_channels c) (c_name c)) false)
          rest
          (channel_level self categories
             (top_categories_mesg number categories nviewers nchannels)
             ks ((item, keycode) :: rest) w))).
Proof.
  split.
  - intros w item keycode rest Ha Hc. split; [|split; [|split]].
    + intros items mesg Hne Ht Hg.
      now apply (@show_and_play_unknown_code self items mesg w item keycode
                   rest).
    + intros items mesg r Hne -> Hg.
      now apply (@show_by_query_unknown_code self items mesg w r keycode
                   rest).
    + intros items mesg ks r Hne -> Hnd Hg.
      now apply (@show_all_streams_unknown_code repr self items mesg ks w r
                   keycode rest).
    + intros kwargs it items mesg Hne Hg.
      now apply (@show_keybinds_unknown_code self kwargs it items mesg w
                   item keycode rest).
  - intros categories nviewers nchannels ks w c code item keycode rest
      Hne Hch Hnd Ha Ht Hc Hg.
    now apply (@show_top_games_unknown_code number self categories nviewers
                 nchannels ks w c code item keycode rest).
Qed.

Lemma unknown_code_fails_witness :
  fst (show_and_play demo_app demo_items "streams"
         (demo_world [(VItem 1%nat, 99)] []))
  = Raised (KeybindNotFound 99).
Proof.
  rewrite (proj1 (proj1 (unknown_code_fails demo_number demo_repr demo_app)
                    (demo_world [(VItem 1%nat, 99)] []) (VItem 1%nat) 99 []
                    eq_refl eq_refl)
             demo_items "streams" ltac:(discriminate) eq_refl eq_refl).
  reflexivity.
Defined.

(** C4 fails as stated: the code 99 is neither Confirm nor Cancel and no
    keybind has it, yet [show_all_streams] returns 1 when no item comes
    with it, and [show_group_by_cat] does not look at it: the chosen
    category is opened, and here the stream B is then played. On an empty
    list [select] shows its placeholder and drops the answer of the menu:
    [show_and_play] returns 1, and the channel menu of [show_top_games], on
    the category Z without channels, goes back to the menu of categories,
    which is then left with 1. *)
Lemma unknown_code_is_not_always_an_error :
  let games := VCategory (mkCategory "X" [("A", 0%nat); ("B", 1%nat)]) in
  let placeholder := VStr "err: no items" in
  is_keybind_code 99 = true /\
  dict_get 99 demo_registry = None /\
  fst (show_all_streams demo_repr demo_app no_kwargs
         (demo_world [(VNone, 99)] []))
  = Ok (Exit 1) /\
  fst (show_group_by_cat demo_app
         (mkKwargs None None (Some demo_items) None None None)
         (demo_world [(games, 99); (VItem 1%nat, 0)] []))
  = Ok (Exit 0) /\
  show_and_play demo_app [] "streams" (demo_world [(placeholder, 99)] [])
  = (Ok (Exit 1),
     answered (EvSelect [placeholder] "streams" (Some false) false) []
       (demo_world [(placeholder, 99)] [])) /\
  fst (show_top_games demo_number demo_app no_kwargs
         (demo_world [(VCategory (mkCategory "Z" []), 0); (placeholder, 99);
                      (VNone, 1)] []))
  = Ok (Exit 1).
Proof. repeat split. Qed.

(** ** An empty list *)







(** * Further properties of the screens *)

(** ** Missing arguments and failing fetches *)

(** X1: a screen that needs the selected item and is called without it
    fails with the [KeyError] of [kwargs.pop('item')]. [show_videos],
    [show_clips], [show_keybinds] and [open_chat] have touched nothing by
    then; [show_item_info] has already emptied the registry of keybinds,
    since it unregisters them before it reads its argument. With the item
    but without the keybind, [show_keybinds] fails on [kwargs.pop('keybind')]
    before it toggles anything. *)
Theorem missing_item_is_a_key_error (sanitize : string -> string)
  (stringify : Item -> list string) (SEPARATOR : string) (self : TwitchApp)
  (kwargs : Kwargs) (w : World) :
  kw_item kwargs = None ->
  show_videos self kwargs w = (Raised (KeyError "item"), w) /\
  show_clips self kwargs w = (Raised (KeyError "item"), w) /\
  show_keybinds self kwargs w = (Raised (KeyError "item"), w) /\
  open_chat kwargs w = (Raised (KeyError "item"), w) /\
  show_item_info sanitize stringify SEPARATOR kwargs w
  = (Raised (KeyError "item"), with_keys (fun _ => []) w) /\
  (forall item,
     kw_keybind kwargs = None ->
     show_keybinds self
       (mkKwargs (Some item) None (kw_items kwargs) (kw_query kwargs)
          (kw_game kwargs) (kw_keycode kwargs)) w
     = (Raised (KeyError "keybind"), w)).
Proof.
  intros Hk.
  unfold show_videos, show_clips, show_keybinds, open_chat, show_item_info,
    kwargs_item, kwargs_keybind, bind.
  rewrite Hk. simpl. repeat split.
Qed.

Lemma missing_item_is_a_key_error_witness :
  show_videos demo_app no_kwargs (demo_world [] [])
  = (Raised (KeyError "item"), demo_world [] []).
Proof.
  exact (proj1 (@missing_item_is_a_key_error escape_amp demo_stringify " | "
                  demo_app no_kwargs (demo_world [] []) eq_refl)).
Defined.

(** X2: when the first fetch of a screen fails, the screen ends with that
    failure: the fetcher has been asked once, the operation is not tried
    again and no menu is shown. [show_videos] and [show_clips] have emptied
    the registry of keybinds by then; [multi_selection] has not hidden the
    keybind of the show-keybinds label yet; the search screens called with
    their argument have asked for no input. *)
Theorem fetch_failure_ends_the_screen (number : Z -> string)
  (repr : Value -> string) (self : TwitchApp) (kwargs : Kwargs)
  (w : World) (e : Exn) :
  (channels_and_streams (fetch self) = inl e ->
   show_all_streams repr self kwargs w
   = (Raised e, log (EvFetch ChannelsAndStreams) w) /\
   multi_selection self kwargs w
   = (Raised e, log (EvFetch ChannelsAndStreams) w)) /\
  (top_games_with_streams (fetch self) = inl e ->
   show_top_games number self kwargs w
   = (Raised e, log (EvFetch TopGamesWithStreams) w)) /\
  (forall r,
     kw_item kwargs = Some (VItem r) ->
     videos (fetch self) (i_user_id (w_items w r)) = inl e ->
     show_videos self kwargs w
     = (Raised e,
        log (EvFetch (Videos (i_user_id (w_items w r))))
          (with_keys (fun _ => []) w))) /\
  (forall r,
     kw_item kwargs = Some (VItem r) ->
     clips (fetch self) (i_user_id (w_items w r)) = inl e ->
     show_clips self kwargs w
     = (Raised e,
        log (EvFetch (Clips (i_user_id (w_items w r))))
          (with_keys (fun _ => []) w))) /\
  (forall query,
     kw_query kwargs = Some query -> query <> EmptyString ->
     channels_by_query (fetch self) query = inl e ->
     show_by_query self kwargs w
     = (Raised e, log (EvFetch (ChannelsByQuery query)) w)) /\
  (forall game,
     kw_game kwargs = Some game -> game <> EmptyString ->
     games_by_query (fetch self) game = inl e ->
     show_by_game self kwargs w
     = (Raised e, log (EvFetch (GamesByQuery game)) w)).
Proof.
  split; [|split; [|split; [|split; [|split]]]].
  - intros Hf.
    unfold show_all_streams, multi_selection, get_channels_and_streams,
      fetched, bind, emit, modify.
    rewrite Hf. split; reflexivity.
  - intros Hf. unfold show_top_games, fetched, bind, emit, modify.
    rewrite Hf. reflexivity.
  - intros r Hk Hf.
    unfold show_videos, kwargs_item, get_channel_videos, fetched, bind,
      emit, modify.
    rewrite Hk. simpl. rewrite Hf. reflexivity.
  - intros r Hk Hf.
    unfold show_clips, kwargs_item, get_channel_clips, fetched, bind,
      emit, modify.
    rewrite Hk. simpl. rewrite Hf. reflexivity.
  - intros query Hk Hne Hf. unfold show_by_query. rewrite Hk.
    destruct query as [|c query]; [congruence|].
    unfold fetched, bind, emit, modify, ret. rewrite Hf. reflexivity.
  - intros game Hk Hne Hf. unfold show_by_game. rewrite Hk.
    destruct game as [|c game]; [congruence|].
    unfold fetched, bind, emit, modify, ret. rewrite Hf. reflexivity.
Qed.

Lemma fetch_failure_ends_the_screen_witness :
  multi_selection failing_app no_kwargs (demo_world [] [])
  = (Raised (FetchFailure "timeout"),
     log (EvFetch ChannelsAndStreams) (demo_world [] [])) /\
  show_by_query failing_app (mkKwargs None None None (Some "rocq") None None)
    (demo_world [] [])
  = (Raised (FetchFailure "timeout"),
     log (EvFetch (ChannelsByQuery "rocq")) (demo_world [] [])).
Proof.
  pose proof (fun kwargs =>
                @fetch_failure_ends_the_screen demo_number demo_repr
                  failing_app kwargs (demo_world [] [])
                  (FetchFailure "timeout")) as H.
  split.
  - exact (proj2 (proj1 (H no_kwargs) eq_refl)).
  - destruct (H (mkKwargs None None None (Some "rocq") None None))
      as (_ & _ & _ & _ & Hq & _).
    apply Hq; [reflexivity | discriminate | reflexivity].
Defined.

(** ** The lists that the screens build *)

Lemma find_append {A : Type} (f : A -> bool) (l1 l2 : list A) :
  find f (l1 ++ l2)
  = match find f l1 with
    | Some x => Some x
    | None => find f l2
    end.
Proof.
  induction l1 as [|x l1 IH]; simpl; [reflexivity|].
  destruct (f x); [reflexivity | exact IH].
Qed.

Section DictBy.
Context {K A : Type} `{Hashable K} (key : A -> K).

Lemma dict_of_pairs_acc (l : list (K * A)) (acc : dict K A) :
  NoDup (dict_keys acc) ->
  let d := fold_left (fun d kv => dict_set (fst kv) (snd kv) d) l acc in
  NoDup (dict_keys d) /\
  (forall k, dict_get k d
             = match find (fun kv => key_eqb (fst kv) k) (rev l) with
               | Some kv => Some (snd kv)
               | None => dict_get k acc
               end).
Proof.
  revert acc. induction l as [|[k0 v0] l IH]; intros acc Hnd; simpl.
  - auto.
  - destruct (IH (dict_set k0 v0 acc) (dict_set_NoDup k0 v0 acc Hnd))
      as [Hnd' Hget].
    split; [exact Hnd'|]. intros k. rewrite Hget.
    rewrite find_append.
    destruct (find (fun kv => key_eqb (fst kv) k) (rev l)); [reflexivity|].
    simpl. destruct (key_eqb k0 k) eqn:E.
    + apply key_eqb_eq in E. subst k0. apply dict_get_set_same.
    + apply dict_get_set_other. intros ->. rewrite key_eqb_refl in E.
      discriminate.
Qed.

Lemma dict_by_facts (l : list A) :
  NoDup (dict_keys (dict_by key l)) /\
  (forall k,
     dict_get k (dict_by key l)
     = find (fun x => key_eqb (key x) k) (rev l)).
Proof.
  unfold dict_by, dict_of_pairs.
  destruct (@dict_of_pairs_acc (map (fun x => (key x, x)) l) []
              (NoDup_nil K)) as [Hnd Hget].
  split; [exact Hnd|].
  intros k. rewrite Hget. rewrite <- map_rev.
  induction (rev l) as [|x r IH]; simpl; [reflexivity|].
  destruct (key_eqb (key x) k); [reflexivity | exact IH].
Qed.

Lemma dict_by_distinct (l : list A) :
  NoDup (map key l) -> dict_by key l = map (fun x => (key x, x)) l.
Proof.
  intros Hk. unfold dict_by. apply dict_of_pairs_NoDup.
  rewrite map_map. exact Hk.
Qed.

Lemma dict_by_nonempty (l : list A) : l <> [] -> dict_by key l <> [].
Proof.
  intros Hl Hd. destruct l as [|x l]; [congruence|].
  pose proof (proj2 (dict_by_facts (x :: l))) as Hget.
  destruct (rev (x :: l)) as [|y r] eqn:E.
  - apply (f_equal (@List.length A)) in E. rewrite length_rev in E.
    discriminate.
  - specialize (Hget (key y)). rewrite Hd in Hget. simpl in Hget.
    rewrite key_eqb_refl in Hget. discriminate.
Qed.

(** X3: the dictionary [{key(x): x for x in l}] that the screens build from
    fetched data has one entry per distinct key, and looking up a key hands
    back the last element of the data with that key; when the keys of the
    data are distinct, the entries are the data, in their order. *)
Theorem dict_by_last_wins (l : list A) :
  NoDup (dict_keys (dict_by key l)) /\
  (forall k,
     dict_get k (dict_by key l)
     = find (fun x => key_eqb (key x) k) (rev l)) /\
  (NoDup (map key l) -> dict_values (dict_by key l) = l).
Proof.
  destruct (dict_by_facts l) as [Hnd Hget].
  split; [exact Hnd|]. split; [exact Hget|].
  intros Hk. rewrite dict_by_distinct by exact Hk.
  unfold dict_values. rewrite map_map. simpl. apply map_id.
Qed.
End DictBy.

Lemma dict_by_last_wins_witness :
  dict_values (dict_by g_id [mkGame "g1" "X"; mkGame "g2" "Y"])
  = [mkGame "g1" "X"; mkGame "g2" "Y"].
Proof.
  apply (proj2 (proj2 (dict_by_last_wins g_id
                         [mkGame "g1" "X"; mkGame "g2" "Y"]))).
  repeat constructor; simpl; intuition discriminate.
Defined.


(** [show_clips] and [show_videos] on an item of the store. *)
Lemma get_channel_clips_run (self : TwitchApp) (r : ref) (w : World)
  (found : list ref) :
  clips (fetch self) (i_user_id (w_items w r)) = inr found ->
  exists mesg,
    get_channel_clips self (VItem r) w
    = (Ok (dict_by (fun c => i_key (w_items w c))
             (sorted_desc (fun c => i_created_at (w_items w c)) found),
           mesg),
       log (EvFetch (Clips (i_user_id (w_items w r)))) w).
Proof.
  intros Hf. unfold get_channel_clips.
  erewrite bind_ok by reflexivity.
  erewrite bind_ok by reflexivity.
  erewrite bind_ok by (apply fetched_ok; exact Hf).
  erewrite bind_ok by reflexivity. cbv zeta. simpl w_items.
  destruct (dict_by _ _); eexists; reflexivity.
Qed.

Lemma get_channel_videos_run (self : TwitchApp) (r : ref) (w : World)
  (found : list ref) :
  videos (fetch self) (i_user_id (w_items w r)) = inr found ->
  exists mesg,
    get_channel_videos self (VItem r) w
    = (Ok (dict_by (fun v => i_key (w_items w v)) found, mesg),
       log (EvFetch (Videos (i_user_id (w_items w r)))) w).
Proof.
  intros Hf. unfold get_channel_videos.
  erewrite bind_ok by reflexivity.
  erewrite bind_ok by (apply fetched_ok; exact Hf).
  erewrite bind_ok by reflexivity. cbv zeta. simpl w_items.
  erewrite bind_ok by reflexivity.
  destruct (dict_by _ _); eexists; reflexivity.
Qed.

Lemma show_clips_run (self : TwitchApp) (kwargs : Kwargs) (r : ref)
  (w : World) (found : list ref) :
  kw_item kwargs = Some (VItem r) ->
  clips (fetch self) (i_user_id (w_items w r)) = inr found ->
  exists mesg,
    show_clips self kwargs w
    = show_and_play self
        (dict_by (fun c => i_key (w_items w c))
           (sorted_desc (fun c => i_created_at (w_items w c)) found))
        mesg
        (log (EvFetch (Clips (i_user_id (w_items w r))))
           (with_keys (fun _ => []) w)).
Proof.
  intros Hk Hf. unfold show_clips, kwargs_item. rewrite Hk.
  erewrite bind_ok by reflexivity.
  erewrite bind_ok by reflexivity.
  destruct (get_channel_clips_run self r (with_keys (fun _ => []) w) Hf)
    as (mesg & E).
  exists mesg. erewrite bind_ok by exact E. reflexivity.
Qed.

Lemma show_videos_run (self : TwitchApp) (kwargs : Kwargs) (r : ref)
  (w : World) (found : list ref) :
  kw_item kwargs = Some (VItem r) ->
  videos (fetch self) (i_user_id (w_items w r)) = inr found ->
  exists mesg,
    show_videos self kwargs w
    = show_and_play self (dict_by (fun v => i_key (w_items w v)) found) mesg
        (log (EvFetch (Videos (i_user_id (w_items w r))))
           (with_keys (fun _ => []) w)).
Proof.
  intros Hk Hf. unfold show_videos, kwargs_item. rewrite Hk.
  erewrite bind_ok by reflexivity.
  erewrite bind_ok by reflexivity.
  destruct (get_channel_videos_run self r (with_keys (fun _ => []) w) Hf)
    as (mesg & E).
  exists mesg. erewrite bind_ok by exact E. reflexivity.
Qed.

(** X4: [show_clips] lists the clips of the channel from the newest to the
    oldest: when the fetched clips have distinct keys, the screen becomes
    [show_and_play] on a list whose clips are those that were fetched, each
    under its key, ordered by creation time, descending; the registry of
    keybinds is empty by then. *)
Theorem show_clips_newest_first (self : TwitchApp) (kwargs : Kwargs)
  (r : ref) (w : World) (found : list ref) :
  kw_item kwargs = Some (VItem r) ->
  clips (fetch self) (i_user_id (w_items w r)) = inr found ->
  NoDup (map (fun c => i_key (w_items w c)) found) ->
  let newest := sorted_desc (fun c => i_created_at (w_items w c)) found in
  (exists mesg,
     show_clips self kwargs w
     = show_and_play self
         (map (fun c => (i_key (w_items w c), c)) newest) mesg
         (log (EvFetch (Clips (i_user_id (w_items w r))))
            (with_keys (fun _ => []) w))) /\
  Permutation newest found /\
  StronglySorted
    (fun a b => i_created_at (w_items w a) >= i_created_at (w_items w b))
    newest.
Proof.
  intros Hk Hf Hnd newest.
  destruct (show_clips_run self kwargs w Hk Hf) as (mesg & E).
  split; [|split].
  - exists mesg. rewrite E. fold newest.
    rewrite dict_by_distinct; [reflexivity|].
    eapply Permutation_NoDup; [|exact Hnd].
    apply Permutation_map. symmetry. apply sorted_desc_perm.
  - apply sorted_desc_perm.
  - apply (sorted_desc_sorted (fun c => i_created_at (w_items w c))).
Qed.

Lemma show_clips_newest_first_witness :
  exists mesg,
    show_clips clips_app (item_kwargs (VItem 0%nat)) (clips_world [])
    = show_and_play clips_app
        [("clip2", 2%nat); ("clip3", 3%nat); ("clip1", 1%nat)] mesg
        (log (EvFetch (Clips "u1"))
           (with_keys (fun _ => []) (clips_world []))).
Proof.
  refine (proj1 (@show_clips_newest_first clips_app
                   (item_kwargs (VItem 0%nat)) 0%nat (clips_world [])
                   [1%nat; 2%nat; 3%nat] eq_refl eq_refl _)).
  repeat constructor; simpl; intuition discriminate.
Defined.

(** ** Keybinds in the lists of videos and of clips, and in the list of
    keybinds *)

(** X5: in the list of videos and in the list of clips of a channel no
    keybind works: [show_videos] and [show_clips] empty the registry before
    they show their list, so a chosen entry that comes back with a code
    other than Confirm or Cancel ends the screen with the lookup error of
    the registry, whatever keybinds were registered before. *)
Theorem no_keybind_in_videos_and_clips (self : TwitchApp) (kwargs : Kwargs)
  (r : ref) (w : World) (found : list ref) (item : Value) (keycode : Z)
  (rest : list (Value * Z)) :
  kw_item kwargs = Some (VItem r) ->
  found <> [] ->
  w_answers w = (item, keycode) :: rest ->
  truthy item = true ->
  is_keybind_code keycode = true ->
  (videos (fetch self) (i_user_id (w_items w r)) = inr found ->
   fst (show_videos self kwargs w) = Raised (KeybindNotFound keycode)) /\
  (clips (fetch self) (i_user_id (w_items w r)) = inr found ->
   fst (show_clips self kwargs w) = Raised (KeybindNotFound keycode)).
Proof.
  intros Hk Hne Ha Ht Hc. split; intros Hf.
  - destruct (show_videos_run self kwargs w Hk Hf) as (mesg & E).
    rewrite E.
    erewrite show_and_play_unknown_code;
      [reflexivity | now apply dict_by_nonempty | exact Ha | exact Ht
      | exact Hc | reflexivity].
  - destruct (show_clips_run self kwargs w Hk Hf) as (mesg & E).
    rewrite E.
    erewrite show_and_play_unknown_code;
      [reflexivity | | exact Ha | exact Ht | exact Hc | reflexivity].
    apply dict_by_nonempty. intros Hs.
    pose proof (sorted_desc_perm
                  (fun c => i_created_at (w_items w c)) found) as Hp.
    rewrite Hs in Hp. apply Permutation_nil in Hp. congruence.
Qed.

Lemma no_keybind_in_videos_and_clips_witness :
  dict_get 11 demo_registry = Some 1%nat /\
  fst (show_videos demo_app (item_kwargs (VItem 0%nat))
         (demo_world [(VItem 3%nat, 11)] []))
  = Raised (KeybindNotFound 11).
Proof.
  split; [reflexivity|].
  apply (proj1 (@no_keybind_in_videos_and_clips demo_app
                  (item_kwargs (VItem 0%nat)) 0%nat
                  (demo_world [(VItem 3%nat, 11)] []) [3%nat] (VItem 3%nat)
                  11 [] eq_refl ltac:(discriminate) eq_refl eq_refl
                  eq_refl)).
  reflexivity.
Defined.

(** [show_keybinds] is its loop on the registered keybinds, listed under
    their labels, once the keybind it was called through is toggled. *)
Lemma show_keybinds_run (self : TwitchApp) (kwargs : Kwargs) (r key : ref)
  (w : World) :
  kw_item kwargs = Some (VItem r) ->
  kw_keybind kwargs = Some key ->
  exists mesg,
    show_keybinds self kwargs w
    = show_keybinds_loop self kwargs (VItem r)
        (dict_by (fun k => k_bind (toggle key (w_keybinds w) k))
           (dict_values (w_keys w)))
        mesg
        (with_keybinds (fun _ => toggle key (w_keybinds w)) w).
Proof.
  intros Hi Hk. unfold show_keybinds, kwargs_item, kwargs_keybind.
  rewrite Hi, Hk. eexists.
  erewrite bind_ok by reflexivity.
  erewrite bind_ok by reflexivity.
  erewrite bind_ok by reflexivity.
  erewrite bind_ok by reflexivity.
  erewrite bind_ok by reflexivity.
  erewrite bind_ok by reflexivity.
  reflexivity.
Qed.

(** X6: [show_keybinds] toggles the keybind it was called through, lists
    the registered keybinds and resolves the answer of the menu: the Cancel
    code returns 1; a keybind of the list with the Confirm code calls the
    action of that keybind; any other code calls the action of the keybind
    registered under that code, whatever entry was chosen, and fails when
    there is none. The action gets the item the screen was called on and
    the remaining keyword arguments. *)
Theorem show_keybinds_dispatches (self : TwitchApp) (kwargs : Kwargs)
  (r key : ref) (w : World) (v : Value) (keycode : Z)
  (rest : list (Value * Z)) :
  kw_item kwargs = Some (VItem r) ->
  kw_keybind kwargs = Some key ->
  w_keys w <> [] ->
  w_answers w = (v, keycode) :: rest ->
  let run := show_keybinds self kwargs w in
  let forwarded := fun k =>
    mkKwargs (Some (VItem r)) (Some k) (kw_items kwargs) (kw_query kwargs)
      (kw_game kwargs) (kw_keycode kwargs) in
  w_keybinds (snd run) = toggle key (w_keybinds w) /\
  w_keys (snd run) = w_keys w /\
  (keycode = UserCancel -> fst run = Ok (Exit 1)) /\
  (forall k, keycode = UserConfirms -> v = VKeybind k ->
             fst run = Ok (Action k (forwarded k))) /\
  (is_keybind_code keycode = true ->
   fst run = match dict_get keycode (w_keys w) with
             | Some k => Ok (Action k (forwarded k))
             | None => Raised (KeybindNotFound keycode)
             end).
Proof.
  intros Hi Hk Hne Ha run forwarded.
  destruct (show_keybinds_run self kwargs w Hi Hk) as (mesg & E).
  set (items := dict_by (fun k => k_bind (toggle key (w_keybinds w) k))
                  (dict_values (w_keys w))) in *.
  assert (Hitems : items <> []).
  { apply dict_by_nonempty. unfold dict_values.
    destruct (w_keys w); [congruence | discriminate]. }
  pose proof (show_keybinds_body_run self kwargs (VItem r) items mesg
                (with_keybinds (fun _ => toggle key (w_keybinds w)) w) Ha)
    as B.
  rewrite selected_nonempty in B by exact Hitems. cbv zeta in B.
  assert (F : registry (snd run)
              = registry (with_keybinds
                            (fun _ => toggle key (w_keybinds w)) w)).
  { unfold run. rewrite E.
    assert (F : respects (same registry)
                  (show_keybinds_loop self kwargs (VItem r) items mesg))
      by frame.
    apply F. }
  unfold registry in F. simpl in F. injection F as Fk Fr.
  split; [exact Fk|]. split; [exact Fr|]. split; [|split].
  - intros ->. unfold run. rewrite E. unfold show_keybinds_loop.
    erewrite loop_return; [reflexivity|]. rewrite B. reflexivity.
  - intros k -> ->. unfold run. rewrite E. unfold show_keybinds_loop.
    erewrite loop_return; [reflexivity|]. rewrite B. reflexivity.
  - intros Hc. destruct (is_keybind_code_true _ Hc) as [H0 H1].
    unfold run. rewrite E. unfold show_keybinds_loop.
    destruct (dict_get keycode (w_keys w)) as [k|] eqn:Eg.
    + erewrite loop_return; [reflexivity|]. rewrite B, H1, H0.
      unfold get_key_by_code, km_get_by_code, bind, gets. simpl.
      rewrite Eg. reflexivity.
    + erewrite loop_raised; [reflexivity|]. rewrite B, H1, H0.
      unfold get_key_by_code, km_get_by_code, bind, gets. simpl.
      rewrite Eg. reflexivity.
Qed.

Lemma show_keybinds_dispatches_witness :
  fst (show_keybinds demo_app
         (mkKwargs (Some (VItem 1%nat)) (Some 0%nat) (Some demo_items)
            None None None)
         (demo_world [(VKeybind 2%nat, 0)] []))
  = Ok (Action 2%nat
          (mkKwargs (Some (VItem 1%nat)) (Some 2%nat) (Some demo_items)
             None None None)).
Proof.
  destruct (@show_keybinds_dispatches demo_app
              (mkKwargs (Some (VItem 1%nat)) (Some 0%nat) (Some demo_items)
                 None None None)
              1%nat 0%nat (demo_world [(VKeybind 2%nat, 0)] [])
              (VKeybind 2%nat) 0 [] eq_refl eq_refl ltac:(discriminate)
              eq_refl)
    as (_ & _ & _ & H & _).
  exact (H 2%nat eq_refl eq_refl).
Defined.

(** ** The information screen *)

Lemma string_app_assoc (a b c : string) :
  ((a ++ b) ++ c = a ++ (b ++ c))%string.
Proof. induction a as [|x a IH]; simpl; [reflexivity | now rewrite IH]. Qed.

Lemma prefix_self_app (sep b : string) : prefix sep (sep ++ b) = true.
Proof.
  induction sep as [|c sep IH]; simpl.
  - now destruct b.
  - destruct (ascii_dec c c); [exact IH | congruence].
Qed.

Lemma substring_after (sep b : string) :
  substring (String.length sep)
    (String.length (sep ++ b) - String.length sep) (sep ++ b) = b.
Proof.
  induction sep as [|c sep IH]; simpl.
  - rewrite Nat.sub_0_r. induction b as [|x b IHb]; simpl;
      [reflexivity | now rewrite IHb].
  - exact IH.
Qed.

(** Whether [sep] starts a text only depends on as many characters of the
    text as [sep] has. *)
Lemma prefix_app (sep x b : string) :
  (String.length sep <= String.length x)%nat ->
  prefix sep (x ++ b) = prefix sep x.
Proof.
  revert x. induction sep as [|c sep IH]; intros x Hlen.
  - now destruct x, b.
  - destruct x as [|d x]; simpl in *; [lia|].
    destruct (ascii_dec c d); [|reflexivity]. apply IH. lia.
Qed.

Lemma split_once_eq (sep s : string) :
  split_once sep s
  = if prefix sep s then
      Some (EmptyString,
            substring (String.length sep)
              (String.length s - String.length sep) s)
    else
      match s with
      | EmptyString => None
      | String c s' =>
          match split_once sep s' with
          | Some (a, b) => Some (String c a, b)
          | None => None
          end
      end.
Proof. destruct s; reflexivity. Qed.

Lemma length_app (a b : string) :
  String.length (a ++ b) = (String.length a + String.length b)%nat.
Proof. induction a as [|x a IH]; simpl; [reflexivity | now rewrite IH]. Qed.

(** When the first [sep] of [label ++ sep] is the one after the label, the
    text that follows is what [split] hands back. *)
Lemma split_once_after_label (sep label b : string) :
  split_once sep (label ++ sep) = Some (label, EmptyString) ->
  split_once sep (label ++ sep ++ b) = Some (label, b).
Proof.
  induction label as [|c label IH]; intros H.
  - simpl. rewrite split_once_eq, prefix_self_app, substring_after.
    reflexivity.
  - change (String c label ++ sep)%string
      with (String c (label ++ sep)) in H.
    change (String c label ++ sep ++ b)%string
      with (String c (label ++ sep ++ b)).
    rewrite split_once_eq in H. rewrite split_once_eq.
    assert (Hp : prefix sep (String c (label ++ sep ++ b))
                 = prefix sep (String c (label ++ sep))).
    { rewrite <- string_app_assoc.
      apply (prefix_app sep (String c (label ++ sep)) b).
      simpl. rewrite length_app. lia. }
    rewrite Hp.
    destruct (prefix sep (String c (label ++ sep))); [discriminate|].
    destruct (split_once sep (label ++ sep)) as [[a b']|]; [|discriminate].
    injection H as -> ->. now rewrite IH.
Qed.

Lemma rstrip_blank (s : string) :
  forallb is_space (list_ascii_of_string s) = true -> rstrip s = EmptyString.
Proof.
  induction s as [|c s IH]; simpl; [reflexivity|].
  rewrite andb_true_iff. intros [Hc Hs]. now rewrite IH, Hc.
Qed.

Lemma rstrip_app_blank (y pad : string) :
  forallb is_space (list_ascii_of_string pad) = true ->
  rstrip (y ++ pad) = rstrip y.
Proof.
  intros Hp. induction y as [|c y IH]; simpl.
  - now apply rstrip_blank.
  - now rewrite IH.
Qed.

Lemma lstrip_app (a b : string) :
  lstrip (a ++ b)
  = if forallb is_space (list_ascii_of_string a) then lstrip b
    else (lstrip a ++ b)%string.
Proof.
  induction a as [|c a IH]; simpl; [reflexivity|].
  destruct (is_space c); [exact IH | reflexivity].
Qed.

Lemma strip_app_blank (u pad : string) :
  forallb is_space (list_ascii_of_string pad) = true ->
  strip (u ++ pad) = strip u.
Proof.
  intros Hp. unfold strip. rewrite lstrip_app.
  destruct (forallb is_space (list_ascii_of_string u)) eqn:Hu.
  - now rewrite (lstrip_blank _ Hp), (lstrip_blank _ Hu).
  - now apply rstrip_app_blank.
Qed.

Lemma spaces_blank (n : nat) :
  forallb is_space
    (list_ascii_of_string (string_of_list_ascii (repeat " "%char n)))
  = true.
Proof.
  rewrite list_ascii_of_string_of_list_ascii.
  induction n as [|n IH]; simpl; [reflexivity | exact IH].
Qed.

(** The value of a row, padded as the screen pads it, is the value once
    trimmed. *)
Lemma strip_padded_value (n : nat) (u : string) :
  strip (tab ++ ljust n u) = strip u.
Proof.
  unfold strip at 1. change (lstrip (tab ++ ljust n u)) with (lstrip (ljust n u)).
  change (rstrip (lstrip (ljust n u))) with (strip (ljust n u)).
  unfold ljust. apply strip_app_blank. apply spaces_blank.
Qed.

(** The run of the information screen when the user picks the url row. *)
Lemma show_item_info_url_row_run (sanitize : string -> string)
  (stringify : Item -> list string) (SEPARATOR : string) (kwargs : Kwargs)
  (r : ref) (w : World) (keycode : Z) (rest : list (Value * Z)) :
  kw_item kwargs = Some (VItem r) ->
  split_once SEPARATOR (ljust 18 "url" ++ SEPARATOR)
  = Some (ljust 18 "url", EmptyString) ->
  let row := (ljust 18 "url" ++ SEPARATOR ++ tab
              ++ ljust 30 (i_url (w_items w r)))%string in
  w_answers w = (VStr row, keycode) :: rest ->
  exists rows mesg w',
    show_item_info sanitize stringify SEPARATOR kwargs w
    = (Ok keycode,
       log (EvCopy (strip (i_url (w_items w r))))
         (with_answers rest
            (log (EvSelect (VStr row :: rows) mesg None false) w')))
    /\ w_trace w' = w_trace w.
Proof.
  intros Hk Hs row Ha.
  assert (Hsplit : split_once SEPARATOR row
                   = Some (ljust 18 "url",
                           (tab ++ ljust 30 (i_url (w_items w r)))%string))
    by (apply split_once_after_label; exact Hs).
  set (w1 := with_items
               (fun s => store_set r
                  (set_title (sanitize (i_title (w_items w r))) (s r)) s)
               (with_keys (fun _ => []) w)).
  assert (Hu : i_url (w_items w1 r) = i_url (w_items w r)).
  { unfold w1. simpl. unfold store_set. now rewrite Nat.eqb_refl. }
  exists (map VStr (stringify (w_items w1 r))).
  exists ("> item <" ++ i_name (w_items w1 r) ++ "> information" ++ nl
          ++ "> Hit enter to copy")%string.
  exists w1. split; [|reflexivity].
  unfold show_item_info.
  unfold bind at 1. unfold km_unregister_all, modify.
  unfold kwargs_item. rewrite Hk.
  erewrite bind_ok by reflexivity. cbv beta iota.
  erewrite bind_ok by reflexivity.
  erewrite bind_ok by reflexivity.
  erewrite bind_ok by reflexivity.
  erewrite bind_ok by reflexivity.
  change (with_items _ (with_keys _ w)) with w1.
  rewrite Hu. fold row.
  erewrite bind_ok.
  2:{ unfold menu_select, bind, emit, modify. simpl fst. simpl snd.
      cbv beta iota. change (w_answers (log _ w1)) with (w_answers w).
      rewrite Ha. reflexivity. }
  cbv beta iota zeta.
  destruct SEPARATOR as [|c sep]; [discriminate Hs|].
  rewrite Hsplit. rewrite strip_padded_value. reflexivity.
Qed.

(** X7: the information screen pins the url as the first row of its menu,
    and when the user picks that row the screen copies the url of the item,
    trimmed, to the clipboard and returns the code of the menu unchanged:
    the trace grows by the menu and the copy, and by nothing else. The
    separator must not occur in the padded label of the row before its own
    place. *)
Theorem show_item_info_copies_the_url (sanitize : string -> string)
  (stringify : Item -> list string) (SEPARATOR : string) (kwargs : Kwargs)
  (r : ref) (w : World) (keycode : Z) (rest : list (Value * Z)) :
  kw_item kwargs = Some (VItem r) ->
  split_once SEPARATOR (ljust 18 "url" ++ SEPARATOR)
  = Some (ljust 18 "url", EmptyString) ->
  let row := (ljust 18 "url" ++ SEPARATOR ++ tab
              ++ ljust 30 (i_url (w_items w r)))%string in
  w_answers w = (VStr row, keycode) :: rest ->
  let run := show_item_info sanitize stringify SEPARATOR kwargs w in
  fst run = Ok keycode /\
  exists rows mesg,
    w_trace (snd run)
    = (w_trace w
       ++ [EvSelect (VStr row :: rows) mesg None false;
           EvCopy (strip (i_url (w_items w r)))])%list.
Proof.
  intros Hk Hs row Ha run.
  destruct (@show_item_info_url_row_run sanitize stringify SEPARATOR kwargs
              r w keycode rest Hk Hs Ha) as (rows & mesg & w' & E & Ht).
  unfold run. rewrite E. split; [reflexivity|].
  exists rows, mesg. simpl. rewrite Ht, <- app_assoc. reflexivity.
Qed.

Lemma show_item_info_copies_the_url_witness :
  let w := demo_world
             [(VStr (ljust 18 "url" ++ " | " ++ tab ++ ljust 30 "url2"), 0)]
             [] in
  let run := show_item_info escape_amp demo_stringify " | "
               (item_kwargs (VItem 1%nat)) w in
  fst run = Ok 0 /\
  exists rows mesg,
    w_trace (snd run)
    = [EvSelect (VStr (ljust 18 "url" ++ " | " ++ tab ++ ljust 30 "url2")
                 :: rows) mesg None false;
       EvCopy "url2"].
Proof.
  exact (@show_item_info_copies_the_url escape_amp demo_stringify " | "
           (item_kwargs (VItem 1%nat)) 1%nat
           (demo_world
              [(VStr (ljust 18 "url" ++ " | " ++ tab ++ ljust 30 "url2"), 0)]
              [])
           0 [] eq_refl eq_refl eq_refl).
Defined.

(** ** The registry of keybinds *)

Lemma dict_get_del_other {K V : Type} `{Hashable K} (k k' : K)
  (d : dict K V) :
  k <> k' -> dict_get k' (dict_del k d) = dict_get k' d.
Proof.
  intros Hne. induction d as [|[k0 v0] d IH]; simpl; [reflexivity|].
  destruct (key_eqb k0 k) eqn:E; simpl.
  - apply key_eqb_eq in E. subst k0. now rewrite key_eqb_neq.
  - now rewrite IH.
Qed.

(** [km.register(key, exist_ok=True)] files the keybind under its code,
    whatever was filed there, and leaves the other codes alone. *)
Lemma km_register_exist_ok_run (k : ref) (w : World) :
  exists d,
    km_register true k w = (Ok tt, with_keys (fun _ => d) w) /\
    forall code,
      dict_get code d
      = if k_code (w_keybinds w k) =? code then Some k
        else dict_get code (w_keys w).
Proof.
  unfold km_register, bind, keybind, gets. simpl.
  destruct (dict_get (k_code (w_keybinds w k)) (w_keys w)) eqn:E.
  - eexists. split; [reflexivity|]. intros code.
    destruct (Z.eqb_spec (k_code (w_keybinds w k)) code) as [->|Hne].
    + apply dict_get_set_same.
    + rewrite dict_get_set_other by assumption.
      now apply dict_get_del_other.
  - eexists. split; [reflexivity|]. intros code.
    destruct (Z.eqb_spec (k_code (w_keybinds w k)) code) as [->|Hne].
    + apply dict_get_set_same.
    + now apply dict_get_set_other.
Qed.

(** After [km.register_all(ks, exist_ok=True)] a code leads to the last
    keybind of [ks] that has it, and to what it led to before when none
    has. *)
Lemma km_register_all_exist_ok_run (ks : list ref) (w : World) :
  exists d,
    km_register_all true ks w = (Ok tt, with_keys (fun _ => d) w) /\
    forall code,
      dict_get code d
      = match find (fun k => k_code (w_keybinds w k) =? code) (rev ks) with
        | Some k => Some k
        | None => dict_get code (w_keys w)
        end.
Proof.
  unfold km_register_all. revert w.
  induction ks as [|k ks IH]; intros w.
  - exists (w_keys w). split; [destruct w; reflexivity | reflexivity].
  - destruct (km_register_exist_ok_run k w) as (d1 & E1 & G1).
    destruct (IH (with_keys (fun _ => d1) w)) as (d & E & G).
    exists d. split.
    + simpl for_each. unfold bind at 1. rewrite E1. rewrite E. reflexivity.
    + intros code. rewrite G. simpl rev. rewrite find_append. simpl.
      change (w_keybinds (with_keys (fun _ => d1) w)) with (w_keybinds w).
      destruct (find _ (rev ks)); [reflexivity|].
      rewrite (G1 code).
      destruct (k_code (w_keybinds w k) =? code); reflexivity.
Qed.

(** [toggle_content_keybinds], by the keybinds its three labels lead to. *)
Lemma toggle_content_keybinds_run (self : TwitchApp) (w : World) :
  toggle_content_keybinds self w
  = match by_bind (bind_show_information (keys self)) w with
    | None =>
        (Raised (BindNotFound (bind_show_information (keys self))), w)
    | Some ki =>
        match by_bind (bind_videos (keys self)) w with
        | None => (Raised (BindNotFound (bind_videos (keys self))), w)
        | Some kv =>
            match by_bind (bind_clips (keys self)) w with
            | None => (Raised (BindNotFound (bind_clips (keys self))), w)
            | Some kc =>
                km_register_all true [ki; kv; kc]
                  (with_keybinds
                     (fun _ => toggled (w_keybinds w) [ki; kv; kc])
                     (with_keys (fun _ => []) w))
            end
        end
    end.
Proof.
  unfold toggle_content_keybinds.
  unfold km_get_by_bind_list. simpl map_m.
  unfold bind at 1. unfold bind at 1. rewrite km_get_by_bind_run.
  destruct (by_bind (bind_show_information (keys self)) w) as [ki|];
    [|reflexivity].
  unfold bind at 1. unfold bind at 1. rewrite km_get_by_bind_run.
  destruct (by_bind (bind_videos (keys self)) w) as [kv|]; [|reflexivity].
  unfold bind at 1. unfold bind at 1. rewrite km_get_by_bind_run.
  destruct (by_bind (bind_clips (keys self)) w) as [kc|]; [|reflexivity].
  unfold ret at 1 2 3 4. cbv beta iota.
  unfold km_unregister_all, modify, bind.
  rewrite for_each_toggle_run. reflexivity.
Qed.

(** When its three keybinds are found, [toggle_content_keybinds] leaves
    them toggled and alone in the registry. *)
Lemma toggle_content_keybinds_found (self : TwitchApp) (w : World)
  (ki kv kc : ref) :
  by_bind (bind_show_information (keys self)) w = Some ki ->
  by_bind (bind_videos (keys self)) w = Some kv ->
  by_bind (bind_clips (keys self)) w = Some kc ->
  exists d,
    toggle_content_keybinds self w
    = (Ok tt,
       with_keys (fun _ => d)
         (with_keybinds (fun _ => toggled (w_keybinds w) [ki; kv; kc]) w))
    /\
    forall code,
      dict_get code d
      = find (fun k => k_code (w_keybinds w k) =? code) [kc; kv; ki].
Proof.
  intros Hi Hv Hc. rewrite toggle_content_keybinds_run, Hi, Hv, Hc.
  set (w1 := with_keybinds _ (with_keys _ w)).
  destruct (km_register_all_exist_ok_run [ki; kv; kc] w1) as (d & E & G).
  exists d. split; [rewrite E; reflexivity|].
  intros code. rewrite G.
  change (w_keys w1) with (@nil (Z * ref)).
  change (w_keybinds w1) with (toggled (w_keybinds w) [ki; kv; kc]).
  change (rev [ki; kv; kc]) with [kc; kv; ki].
  assert (Hc' : forall k,
             k_code (toggled (w_keybinds w) [ki; kv; kc] k)
             = k_code (w_keybinds w k))
    by (intros k; apply toggled_code).
  cbn [find]. rewrite !Hc'.
  destruct (k_code (w_keybinds w kc) =? code); [reflexivity|].
  destruct (k_code (w_keybinds w kv) =? code); [reflexivity|].
  destruct (k_code (w_keybinds w ki) =? code); reflexivity.
Qed.

(** X8: [toggle_content_keybinds] looks the three content keybinds up before
    it touches the registry: when one of the labels is not registered it
    fails with [BindNotFound] for the first such label and changes nothing.
    When the three are found, each has been toggled, and the registry holds
    them and nothing else: a code leads to the last of them that has it,
    every other code is no longer registered. Items, pending answers and
    the trace are as before. *)
Theorem toggle_content_keybinds_registry (self : TwitchApp) (w : World) :
  let info := bind_show_information (keys self) in
  let videos := bind_videos (keys self) in
  let clips := bind_clips (keys self) in
  match by_bind info w, by_bind videos w, by_bind clips w with
  | Some ki, Some kv, Some kc =>
      exists d,
        toggle_content_keybinds self w
        = (Ok tt,
           with_keys (fun _ => d)
             (with_keybinds (fun _ => toggled (w_keybinds w) [ki; kv; kc])
                w)) /\
        forall code,
          dict_get code d
          = find (fun k => k_code (w_keybinds w k) =? code) [kc; kv; ki]
  | None, _, _ =>
      toggle_content_keybinds self w = (Raised (BindNotFound info), w)
  | Some _, None, _ =>
      toggle_content_keybinds self w = (Raised (BindNotFound videos), w)
  | Some _, Some _, None =>
      toggle_content_keybinds self w = (Raised (BindNotFound clips), w)
  end.
Proof.
  intros info videos clips.
  pose proof (toggle_content_keybinds_run self w) as R.
  pose proof (toggle_content_keybinds_found self w) as F.
  fold info videos clips in R, F.
  destruct (by_bind info w) as [ki|]; [|exact R].
  destruct (by_bind videos w) as [kv|]; [|exact R].
  destruct (by_bind clips w) as [kc|]; [|exact R].
  exact (F ki kv kc eq_refl eq_refl eq_refl).
Qed.

(** ** The screen of the top streams *)

(** X13: [show_top_streams] shows its list with four keybinds registered:
    the three content keybinds, toggled, and the keybind of the grouping by
    category, looked up before the others are registered anew. The list is
    fetched once, after that, and keyed by the names of the streams. When
    the code of the grouping keybind is that of a content keybind, the
    screen fails with [KeybindExists] before anything is fetched, since it
    registers that keybind without [exist_ok]. *)
Theorem show_top_streams_registers_four (self : TwitchApp) (kwargs : Kwargs)
  (w : World) (kg ki kv kc : ref) (data : list ref) :
  by_bind (bind_group_by_cat (keys self)) w = Some kg ->
  by_bind (bind_show_information (keys self)) w = Some ki ->
  by_bind (bind_videos (keys self)) w = Some kv ->
  by_bind (bind_clips (keys self)) w = Some kc ->
  top_streams (fetch self) = inr data ->
  let code := k_code (w_keybinds w kg) in
  let run := show_top_streams self kwargs w in
  (~ In code (codes (w_keybinds w) [ki; kv; kc]) ->
   exists d,
     run
     = show_and_play self (dict_by (fun s => i_name (w_items w s)) data)
         ("> Showing ("
          ++ str_of_nat
               (List.length (dict_by (fun s => i_name (w_items w s)) data))
          ++ ") top streams")
         (log (EvFetch TopStreams)
            (with_keys (fun _ => d)
               (with_keybinds
                  (fun _ => toggled (w_keybinds w) [ki; kv; kc]) w))) /\
     forall c,
       dict_get c d
       = find (fun k => k_code (w_keybinds w k) =? c) [kg; kc; kv; ki]) /\
  (In code (codes (w_keybinds w) [ki; kv; kc]) ->
   fst run = Raised (KeybindExists code) /\
   w_trace (snd run) = w_trace w).
Proof.
  intros Hg Hi Hv Hc Hf code run.
  destruct (toggle_content_keybinds_found self w Hi Hv Hc) as (d & E & G).
  set (w1 := with_keys (fun _ => d)
               (with_keybinds
                  (fun _ => toggled (w_keybinds w) [ki; kv; kc]) w)) in *.
  assert (Hcode : k_code (w_keybinds w1 kg) = code)
    by (apply toggled_code).
  assert (R : run
              = (km_register false kg ;;
                 data <- fetched TopStreams (top_streams (fetch self)) ;;
                 store <- gets w_items ;;
                 show_and_play self
                   (dict_by (fun s => i_name (store s)) data)
                   ("> Showing ("
                    ++ str_of_nat
                         (List.length
                            (dict_by (fun s => i_name (store s)) data))
                    ++ ") top streams")) w1).
  { unfold run, show_top_streams, get_key_by_bind.
    erewrite bind_ok by (rewrite km_get_by_bind_run, Hg; reflexivity).
    erewrite bind_ok by exact E. reflexivity. }
  assert (Hfind : find (fun k => k_code (w_keybinds w k) =? code)
                    [kc; kv; ki] = None
                  <-> ~ In code (codes (w_keybinds w) [ki; kv; kc])).
  { simpl.
    destruct (Z.eqb_spec (k_code (w_keybinds w kc)) code);
      destruct (Z.eqb_spec (k_code (w_keybinds w kv)) code);
      destruct (Z.eqb_spec (k_code (w_keybinds w ki)) code);
      split; intros H; try discriminate; try reflexivity;
      try (exfalso; apply H; tauto); tauto. }
  assert (Rk : km_register false kg w1
               = match dict_get code d with
                 | Some _ => (Raised (KeybindExists code), w1)
                 | None =>
                     (Ok tt, with_keys (fun _ => dict_set code kg d) w1)
                 end).
  { unfold km_register, bind, keybind, gets. cbv beta iota.
    rewrite Hcode. change (w_keys w1) with d.
    destruct (dict_get code d); reflexivity. }
  split.
  - intros Hfresh. apply (proj2 Hfind) in Hfresh.
    exists (dict_set code kg d). split.
    + rewrite R.
      erewrite bind_ok by (rewrite Rk, G, Hfresh; reflexivity).
      erewrite bind_ok by (apply fetched_ok; exact Hf).
      erewrite bind_ok by reflexivity. reflexivity.
    + intros c. cbn [find]. fold code.
      destruct (Z.eqb_spec code c) as [->|Hne].
      * apply dict_get_set_same.
      * rewrite dict_get_set_other by assumption. apply G.
  - intros Hin.
    assert (Hsome : exists k, dict_get code d = Some k).
    { rewrite G.
      destruct (find (fun k => k_code (w_keybinds w k) =? code)
                  [kc; kv; ki]) as [k|] eqn:Ek; [now exists k|].
      exfalso. exact (proj1 Hfind eq_refl Hin). }
    destruct Hsome as (k & Hk). rewrite Hk in Rk.
    rewrite R. erewrite bind_raised by exact Rk. split; reflexivity.
Qed.

Lemma show_top_streams_registers_four_witness :
  exists d,
    show_top_streams demo_app no_kwargs (demo_world [] [])
    = show_and_play demo_app [("B", 1%nat); ("C", 2%nat)]
        "> Showing (2) top streams"
        (log (EvFetch TopStreams)
           (with_keys (fun _ => d)
              (with_keybinds
                 (fun _ => toggled demo_keybinds [3; 1; 2]%nat)
                 (demo_world [] [])))) /\
    dict_get 14 d = Some 4%nat /\ dict_get 10 d = None.
Proof.
  destruct (proj1 (@show_top_streams_registers_four demo_app no_kwargs
                     (demo_world [] []) 4%nat 3%nat 1%nat 2%nat
                     [1%nat; 2%nat] eq_refl eq_refl eq_refl eq_refl
                     eq_refl))
    as (d & E & G).
  - simpl. intuition discriminate.
  - exists d. split; [exact E|].
    split; [exact (G 14) | exact (G 10)].
Defined.

(** ** The loops of the playing screens *)

Lemma show_and_play_end_answers (item : Value) :
  respects (same w_answers) (show_and_play_end item).
Proof. frame. Qed.

Lemma is_keybind_code_other (keycode : Z) :
  (keycode =? UserConfirms) = false -> (keycode =? UserCancel) = false ->
  is_keybind_code keycode = true.
Proof. intros H0 H1. unfold is_keybind_code. now rewrite H0, H1. Qed.

(** The run of [show_and_play] on the first pending answer. *)
Lemma show_and_play_run (self : TwitchApp) (items : dict string ref)
  (mesg : string) (w : World) (a : Value * Z) (rest : list (Value * Z)) :
  w_answers w = a :: rest ->
  show_and_play self items mesg w
  = let w1 := answered (display self VItem items mesg false) rest w in
    let (item, keycode) := selected items a in
    if keycode =? UserConfirms then show_and_play_end item w1
    else if negb (truthy item) || (keycode =? UserCancel)
    then (Ok (Exit UserCancel), w1)
    else
      match dict_get keycode (w_keys w) with
      | Some k =>
          (Ok (Action k (mkKwargs (Some item) None (Some items)
                           None None None)), w1)
      | None => (Raised (KeybindNotFound keycode), w1)
      end.
Proof.
  intros Ha. unfold show_and_play.
  pose proof (show_and_play_body_run self items mesg w Ha) as B.
  cbv zeta in *. destruct (selected items a) as [item keycode].
  destruct (keycode =? UserConfirms) eqn:E0.
  { erewrite loop_break by exact B. reflexivity. }
  destruct (negb (truthy item) || (keycode =? UserCancel)) eqn:E1.
  { erewrite loop_return by exact B. reflexivity. }
  apply orb_false_iff in E1. destruct E1 as [_ E1].
  rewrite (is_keybind_code_other keycode E0 E1) in B.
  destruct (dict_get keycode (w_keys w)) as [k|] eqn:Ek.
  - erewrite loop_return; [reflexivity|]. rewrite B.
    unfold get_key_by_code.
    erewrite bind_ok by (apply km_get_by_code_found; exact Ek).
    reflexivity.
  - erewrite loop_raised; [reflexivity|]. rewrite B.
    unfold get_key_by_code.
    erewrite bind_raised by (apply km_get_by_code_missing; exact Ek).
    reflexivity.
Qed.

(** X9: the loop of [show_and_play] never takes a second pass. The first
    answer of the menu decides the screen: a confirmation goes to the code
    after the loop, an empty selection or a cancellation ends with 1, and
    every other code is looked up as a keybind, whose action is called
    with the item and the items (not with the keybind) or whose absence is
    the error of the lookup. Exactly one answer is taken, whatever it is. *)
Theorem show_and_play_asks_once (self : TwitchApp) (items : dict string ref)
  (mesg : string) (w : World) (a : Value * Z) (rest : list (Value * Z)) :
  w_answers w = a :: rest ->
  let w1 := answered (display self VItem items mesg false) rest w in
  show_and_play self items mesg w
  = (let (item, keycode) := selected items a in
     if keycode =? UserConfirms then show_and_play_end item w1
     else if negb (truthy item) || (keycode =? UserCancel)
     then (Ok (Exit UserCancel), w1)
     else
       match dict_get keycode (w_keys w) with
       | Some k =>
           (Ok (Action k (mkKwargs (Some item) None (Some items)
                            None None None)), w1)
       | None => (Raised (KeybindNotFound keycode), w1)
       end) /\
  w_answers (snd (show_and_play self items mesg w)) = rest.
Proof.
  intros Ha w1.
  pose proof (show_and_play_run self items mesg w Ha) as R.
  cbv zeta in R. fold w1 in R. split; [exact R|].
  rewrite R. destruct (selected items a) as [item keycode].
  destruct (keycode =? UserConfirms).
  { exact (show_and_play_end_answers item w1). }
  destruct (negb (truthy item) || (keycode =? UserCancel)); [reflexivity|].
  destruct (dict_get keycode (w_keys w)); reflexivity.
Qed.

Lemma show_and_play_asks_once_witness :
  show_and_play demo_app demo_items "m"
    (demo_world [(VItem 1%nat, 13); (VItem 2%nat, 0)] [])
  = (Ok (Action 3%nat (mkKwargs (Some (VItem 1%nat)) None (Some demo_items)
                         None None None)),
     answered (display demo_app VItem demo_items "m" false)
       [(VItem 2%nat, 0)]
       (demo_world [(VItem 1%nat, 13); (VItem 2%nat, 0)] [])).
Proof.
  exact (proj1 (@show_and_play_asks_once demo_app demo_items "m"
                  (demo_world [(VItem 1%nat, 13); (VItem 2%nat, 0)] [])
                  (VItem 1%nat, 13) [(VItem 2%nat, 0)] eq_refl)).
Defined.

(** ** The loop of the list of channels *)

Lemma codes_current (w : World) :
  registry_ok w ->
  codes (w_keybinds w) (dict_values (w_keys w)) = dict_keys (w_keys w).
Proof.
  unfold registry_ok, codes, dict_values, dict_keys. rewrite map_map.
  induction (w_keys w) as [|[c k] d IH]; intros Hok; simpl; [reflexivity|].
  inversion Hok as [|? ? Hc Hd]; subst. simpl in Hc.
  rewrite Hc, IH by assumption. reflexivity.
Qed.

Section Streams.
Variable repr : Value -> string.
Variable self : TwitchApp.

(** Items that come back with the Cancel code: the menu is shown once for
    each, and the loop goes on with what follows. *)
Lemma show_all_streams_loop_again (items : dict string ref) (mesg : string)
  (ks : list ref) (again : list ref) :
  forall (w : World) (tail : list (Value * Z)),
    items <> [] ->
    NoDup (codes (w_keybinds w) ks) ->
    w_answers w
    = (map (fun i => (VItem i, UserCancel)) again ++ tail)%list ->
    exists w',
      show_all_streams_loop repr self items mesg ks w
      = show_all_streams_loop repr self items mesg ks w' /\
      w_answers w' = tail /\
      w_keybinds w' = w_keybinds w /\
      w_items w' = w_items w /\
      w_player w' = w_player w /\
      w_trace w'
      = (w_trace w
         ++ repeat (display self VItem items mesg false)
              (List.length again))%list.
Proof.
  induction again as [|i again IH]; intros w tail Hne Hnd Ha.
  - exists w. simpl. rewrite app_nil_r. repeat split. exact Ha.
  - simpl in Ha.
    rewrite (@show_all_streams_again repr self items mesg ks w i
               (map (fun i => (VItem i, UserCancel)) again ++ tail)%list
               Hne Hnd Ha).
    set (w1 := answered _ _ _).
    destruct (IH w1 tail Hne Hnd eq_refl) as (w' & E & A & K & I & P & T).
    exists w'. split; [exact E|]. split; [exact A|].
    split; [exact K|]. split; [exact I|]. split; [exact P|].
    rewrite T. unfold w1. simpl. now rewrite <- app_assoc.
Qed.

(** The code of a registered keybind on an item ends the loop with the
    action of the keybind. *)
Lemma show_all_streams_keybind (items : dict string ref) (mesg : string)
  (ks : list ref) (w : World) (r : ref) (keycode : Z) (k : ref)
  (rest : list (Value * Z)) :
  items <> [] ->
  NoDup (codes (w_keybinds w) ks) ->
  w_answers w = (VItem r, keycode) :: rest ->
  is_keybind_code keycode = true ->
  dict_get keycode (registry_of (w_keybinds w) ks) = Some k ->
  show_all_streams_loop repr self items mesg ks w
  = (Ok (Action k (mkKwargs (Some (VItem r)) (Some k) (Some items)
                     None None None)),
     answered (display self VItem items mesg false) rest
       (with_keys (fun _ => registry_of (w_keybinds w) ks) w)).
Proof.
  intros Hne Hnd Ha Hc Hg. unfold show_all_streams_loop. apply loop_return.
  rewrite (show_all_streams_body_run repr self items mesg ks w Hnd Ha).
  rewrite selected_nonempty by assumption.
  destruct (is_keybind_code_true _ Hc) as [H0 H1].
  cbv zeta. rewrite H0, Hc. simpl. rewrite andb_false_r.
  erewrite bind_ok; [reflexivity|].
  apply km_get_by_code_found. exact Hg.
Qed.

(** X10: an item that comes back with the Cancel code does not end
    [show_all_streams]: the same menu is shown again, once for each such
    answer, on the channels fetched once at the start. The answer that
    follows decides: a confirmation on a playable item runs the player on
    its url, and the screen returns 0 when the run ends with the exit
    status 0, fails with [ErrorReturnCode] when it ends with another one,
    and fails with [CommandNotFound], nothing having run, when the player
    is missing; the code of a registered keybind ends with the action of
    that keybind, called with the item, the keybind and the items. In
    every one of these cases the registry, registered anew on every pass,
    is as it was when the screen started. *)
Theorem show_all_streams_shows_its_menu_again (kwargs : Kwargs)
  (items : dict string ref) (w : World) (again : list ref) (r : ref)
  (code : Z) (rest : list (Value * Z)) :
  channels_and_streams (fetch self) = inr items ->
  items <> [] ->
  registry_ok w ->
  NoDup (dict_keys (w_keys w)) ->
  w_answers w
  = (map (fun i => (VItem i, UserCancel)) again
     ++ (VItem r, code) :: rest)%list ->
  let run := show_all_streams repr self kwargs w in
  let menu := EvSelect (map VItem (dict_values items))
                (channels_mesg self items) (Some (markup self)) false in
  let shown := (w_trace w ++ EvFetch ChannelsAndStreams
                :: repeat menu (S (List.length again)))%list in
  (code = UserConfirms -> i_playable (w_items w r) = true ->
   let name := i_name (w_items w r) in
   let url := i_url (w_items w r) in
   let status := mpv_exit (w_player w) url in
   w_answers (snd run) = rest /\
   registry (snd run) = registry w /\
   (mpv_installed (w_player w) = false ->
    fst run = Raised (CommandNotFound "mpv") /\
    w_trace (snd run) = shown) /\
   (mpv_installed (w_player w) = true ->
    fst run = (if status =? 0 then Ok (Exit 0)
               else Raised (ErrorReturnCode status)) /\
    w_trace (snd run) = (shown ++ [EvPlay name url])%list)) /\
  (is_keybind_code code = true ->
   forall k,
     dict_get code (w_keys w) = Some k ->
     fst run
     = Ok (Action k (mkKwargs (Some (VItem r)) (Some k) (Some items)
                       None None None)) /\
     w_trace (snd run) = shown /\
     w_answers (snd run) = rest /\
     registry (snd run) = registry w).
Proof.
  intros Hf Hne Hok Hnd Ha run menu shown.
  set (ks := dict_values (w_keys w)).
  set (w0 := log (EvFetch ChannelsAndStreams) w).
  assert (Hcodes : NoDup (codes (w_keybinds w0) ks)).
  { change (w_keybinds w0) with (w_keybinds w). unfold ks.
    now rewrite codes_current. }
  destruct (@show_all_streams_loop_again items (channels_mesg self items)
              ks again w0 ((VItem r, code) :: rest) Hne Hcodes Ha)
    as (w' & E & A & K & I & P & T).
  change (w_keybinds w0) with (w_keybinds w) in K.
  change (w_items w0) with (w_items w) in I.
  change (w_player w0) with (w_player w) in P.
  change (w_trace w0)
    with (w_trace w ++ [EvFetch ChannelsAndStreams])%list in T.
  rewrite display_nonempty in T by assumption. fold menu in T.
  assert (R : run = show_all_streams_loop repr self items
                      (channels_mesg self items) ks w').
  { unfold run. rewrite (show_all_streams_run repr self kwargs w Hf).
    exact E. }
  assert (Hcodes' : NoDup (codes (w_keybinds w') ks))
    by (now rewrite K).
  assert (Hreg : registry_of (w_keybinds w') ks = w_keys w)
    by (rewrite K; unfold ks; now apply registry_of_current).
  assert (Hshown : ((w_trace w ++ [EvFetch ChannelsAndStreams])
                    ++ repeat menu (List.length again) ++ [menu])%list
                   = shown).
  { unfold shown. rewrite <- app_assoc. simpl.
    now rewrite <- repeat_cons. }
  split.
  - intros -> Hp name url status. rewrite R.
    rewrite (@show_all_streams_confirm repr self items
               (channels_mesg self items) ks w' r rest Hne Hcodes' A).
    cbv zeta. rewrite I, Hp. fold menu. unfold played. cbv zeta.
    simpl w_items. simpl w_player. rewrite I, P.
    fold name. fold url. fold status.
    destruct (mpv_installed (w_player w)); cbn [negb].
    + destruct (status =? 0); simpl fst; simpl snd; unfold registry; simpl;
        rewrite T, Hreg, K, <- Hshown, <- !app_assoc;
        (split; [reflexivity|]); (split; [reflexivity|]);
        (split; [discriminate|]); intros _; split; reflexivity.
    + simpl fst. simpl snd. unfold registry. simpl.
      rewrite T, Hreg, K, <- Hshown, <- !app_assoc.
      split; [reflexivity|]. split; [reflexivity|].
      split; [intros _; split; reflexivity | discriminate].
  - intros Hc k Hk. rewrite R.
    rewrite (@show_all_streams_keybind items (channels_mesg self items)
               ks w' r code k rest Hne Hcodes' A Hc)
      by (rewrite Hreg; exact Hk).
    rewrite display_nonempty by assumption. fold menu.
    simpl fst. simpl snd.
    split; [reflexivity|]. unfold registry. simpl.
    rewrite T, Hreg, K, <- Hshown, <- !app_assoc. repeat split.
Qed.
End Streams.

Lemma show_all_streams_shows_its_menu_again_witness :
  let run := show_all_streams demo_repr demo_app no_kwargs
               (demo_world [(VItem 0%nat, 1); (VItem 2%nat, 1);
                            (VItem 1%nat, 0)] []) in
  fst run = Ok (Exit 0) /\
  w_trace (snd run)
  = [EvFetch ChannelsAndStreams;
     EvSelect [VItem 0%nat; VItem 1%nat; VItem 2%nat]
       (channels_mesg demo_app demo_items) (Some (markup demo_app)) false;
     EvSelect [VItem 0%nat; VItem 1%nat; VItem 2%nat]
       (channels_mesg demo_app demo_items) (Some (markup demo_app)) false;
     EvSelect [VItem 0%nat; VItem 1%nat; VItem 2%nat]
       (channels_mesg demo_app demo_items) (Some (markup demo_app)) false;
     EvPlay "B" "url2"] /\
  w_answers (snd run) = [] /\
  registry (snd run) = (demo_keybinds, demo_registry).
Proof.
  destruct (proj1 (@show_all_streams_shows_its_menu_again demo_repr demo_app
                     no_kwargs demo_items
                     (demo_world [(VItem 0%nat, 1); (VItem 2%nat, 1);
                                  (VItem 1%nat, 0)] [])
                     [0%nat; 2%nat] 1%nat 0 [] eq_refl
                     ltac:(discriminate) ltac:(repeat constructor)
                     ltac:(repeat constructor; simpl; intuition discriminate)
                     eq_refl)
              eq_refl eq_refl)
    as (Hrest & Hreg & _ & Hrun).
  destruct (Hrun eq_refl) as (Hres & Htrace).
  split; [exact Hres|]. split; [exact Htrace|].
  split; [exact Hrest | exact Hreg].
Defined.

(** ** The screen of categories *)

(** X11: when the user picks a category of the menu of [show_group_by_cat],
    the screen goes on as [show_and_play] on the live channels of that game
    among its items, in their order and under their names, whatever the
    result code of the menu was: the code of the menu of categories is never
    looked at. The channels are never an empty list. As for the grouping,
    no two live items of one game may share their channel name. *)
Theorem show_group_by_cat_opens_the_category (self : TwitchApp)
  (kwargs : Kwargs) (items : dict string ref) (w : World) (g : string)
  (c : Category) (code : Z) (rest : list (Value * Z)) :
  kw_items kwargs = Some items ->
  no_clash (w_items w) (dict_values items) = true ->
  In (g, c) (categories_sorted (w_items w) (dict_values items)) ->
  w_answers w = (VCategory c, code) :: rest ->
  let live := members (w_items w) g (dict_values items) in
  let menu :=
    EvSelect
      (map VCategory
         (dict_values (categories_sorted (w_items w) (dict_values items))))
      (grouped_mesg (group_by_cat (w_items w) (dict_values items)))
      (Some (markup self)) false in
  live <> [] /\
  show_group_by_cat self kwargs w
  = show_and_play self (map (entry (w_items w)) live)
      ("> Showing (" ++ str_of_nat (List.length live)
       ++ ") <channels> from <" ++ g ++ "> category")
      (answered menu rest w).
Proof.
  intros Hk Hn Hin Ha live menu.
  pose proof (group_by_cat_grouped (w_items w) (dict_values items) Hn)
    as [Hnd Hg].
  pose proof (sorted_desc_perm
                (fun x : string * Category =>
                   total_viewers (w_items w) (snd x))
                (group_by_cat (w_items w) (dict_values items))) as Hperm.
  fold (categories_sorted (w_items w) (dict_values items)) in Hperm.
  assert (Hin' : In (g, c) (group_by_cat (w_items w) (dict_values items)))
    by (eapply Permutation_in; eassumption).
  pose proof (Hg g) as Hgc.
  rewrite (dict_In_get g c _ Hnd Hin') in Hgc.
  destruct Hgc as (Hname & Hlive & Hch). fold live in Hlive, Hch.
  split; [exact Hlive|].
  assert (Hnd' : NoDup (map fst (categories_sorted (w_items w)
                                   (dict_values items)))).
  { eapply Permutation_NoDup; [|exact Hnd].
    apply Permutation_map. symmetry. exact Hperm. }
  assert (Hitems : items <> []).
  { intros ->. simpl in Hin. exact Hin. }
  unfold show_group_by_cat. rewrite Hk.
  destruct items as [|kv items]; [congruence|].
  erewrite bind_ok by reflexivity. cbv zeta.
  erewrite bind_ok by (apply select_run; exact Ha).
  rewrite (dict_of_pairs_NoDup _ Hnd').
  assert (Hne : categories_sorted (w_items w) (dict_values (kv :: items))
                <> []).
  { intros E. rewrite E in Hin. exact Hin. }
  rewrite selected_nonempty, display_nonempty by exact Hne.
  fold menu.
  change (negb (truthy (VCategory c))) with false. cbv iota.
  erewrite bind_ok by reflexivity.
  erewrite bind_ok by reflexivity.
  rewrite Hch, Hname. rewrite length_map. reflexivity.
Qed.

Lemma show_group_by_cat_opens_the_category_witness :
  show_group_by_cat demo_app
    (mkKwargs None None (Some demo_items) None None None)
    (demo_world [(VCategory (mkCategory "X" [("A", 0%nat); ("B", 1%nat)]), 1);
                 (VItem 1%nat, 0)] [])
  = show_and_play demo_app [("A", 0%nat); ("B", 1%nat)]
      "> Showing (2) <channels> from <X> category"
      (answered
         (EvSelect
            [VCategory (mkCategory "Y" [("C", 2%nat)]);
             VCategory (mkCategory "X" [("A", 0%nat); ("B", 1%nat)])]
            "> Showing (2) <games>" (Some true) false)
         [(VItem 1%nat, 0)]
         (demo_world
            [(VCategory (mkCategory "X" [("A", 0%nat); ("B", 1%nat)]), 1);
             (VItem 1%nat, 0)] [])).
Proof.
  refine (proj2 (@show_group_by_cat_opens_the_category demo_app
                   (mkKwargs None None (Some demo_items) None None None)
                   demo_items
                   (demo_world
                      [(VCategory
                          (mkCategory "X" [("A", 0%nat); ("B", 1%nat)]), 1);
                       (VItem 1%nat, 0)] [])
                   "X" (mkCategory "X" [("A", 0%nat); ("B", 1%nat)]) 1
                   [(VItem 1%nat, 0)] eq_refl eq_refl _ eq_refl)).
  right. left. reflexivity.
Defined.

(** ** The visits of the top categories *)

Lemma toggle_hidden (store : ref -> Keybind) (k k' : ref) :
  k_hidden (toggle k store k')
  = if (k' =? k)%nat then negb (k_hidden (store k'))
    else k_hidden (store k').
Proof.
  unfold toggle, store_set.
  destruct (Nat.eqb_spec k' k) as [->|]; reflexivity.
Qed.

(** Toggling two different keybinds, as often as [n] times. *)
Lemma toggled_pair_hidden (n : nat) (store : ref -> Keybind)
  (kc kv k : ref) :
  kc <> kv ->
  k_hidden (Nat.iter n (fun s => toggled s [kc; kv]) store k)
  = if Nat.odd n && ((k =? kc)%nat || (k =? kv)%nat)
    then negb (k_hidden (store k))
    else k_hidden (store k).
Proof.
  intros Hne. induction n as [|n IH]; [reflexivity|].
  rewrite Nat.odd_succ, <- Nat.negb_odd.
  rewrite Nat.iter_succ.
  change (toggled ?s [kc; kv]) with (toggle kv (toggle kc s)).
  rewrite !toggle_hidden, IH.
  destruct (Nat.eqb_spec k kc) as [Ec|Hc];
    destruct (Nat.eqb_spec k kv) as [Ev|Hv];
    try congruence;
    destruct (Nat.odd n); simpl; rewrite ?negb_involutive; reflexivity.
Qed.

Lemma iter_toggled_codes (n : nat) (store : ref -> Keybind)
  (ks l : list ref) :
  codes (Nat.iter n (fun s => toggled s ks) store) l = codes store l.
Proof.
  induction n as [|n IH]; [reflexivity|].
  rewrite Nat.iter_succ. now rewrite toggled_codes.
Qed.

Section Visits.
Variable number : Z -> string.
Variable self : TwitchApp.

(** The answers of the user who opens the categories [visits] one after the
    other and leaves the list of channels of each without a choice. *)
Lemma show_top_games_visits (categories : dict string Category)
  (nviewers : Z) (nchannels : nat) (ks : list ref)
  (visits : list (Category * (Z * Z))) :
  forall (w : World) (tail : list (Value * Z)),
    categories <> [] ->
    NoDup (codes (w_keybinds w) ks) ->
    w_answers w
    = (flat_map (fun v => [(VCategory (fst v), fst (snd v));
                           (VNone, snd (snd v))]) visits ++ tail)%list ->
    exists w',
      show_top_games_loop number self categories nviewers nchannels ks w
      = show_top_games_loop number self categories nviewers nchannels ks w'
      /\ w_answers w' = tail
      /\ w_keybinds w'
         = Nat.iter (List.length visits) (fun s => toggled s ks)
             (w_keybinds w).
Proof.
  induction visits as [|[c [c1 c2]] visits IH]; intros w tail Hne Hnd Ha.
  - exists w. repeat split. exact Ha.
  - simpl in Ha.
    assert (Ht : truthy (fst (selected (c_channels c) (VNone, c2))) = false)
      by (destruct (c_channels c); reflexivity).
    rewrite (@show_top_games_back_to_categories number self categories
               nviewers nchannels ks w c c1 (VNone, c2) _ Hne Hnd Ha Ht).
    set (w1 := answered _ _ _).
    assert (Hk1 : w_keybinds w1 = toggled (w_keybinds w) ks) by reflexivity.
    assert (Hnd1 : NoDup (codes (w_keybinds w1) ks))
      by (now rewrite Hk1, toggled_codes).
    destruct (IH w1 tail Hne Hnd1 eq_refl) as (w' & E & A & K).
    exists w'. split; [exact E|]. split; [exact A|].
    rewrite K, Hk1. cbn [List.length]. now rewrite Nat.iter_succ_r.
Qed.

(** X12: [show_top_games] toggles the keybinds of the clips and of the
    videos each time a category is opened, so their visibility alternates
    from one visit to the next: after the user has opened categories and
    left each list of channels without a choice, and then leaves the menu
    of categories, the screen returns 1, the two keybinds are as they were
    when the number of visits is even and flipped when it is odd, no other
    keybind has changed, and no keybind is registered any more. *)
Theorem show_top_games_toggles_on_every_visit (kwargs : Kwargs)
  (categories : dict string Category) (w : World) (kc kv : ref)
  (visits : list (Category * (Z * Z))) (code : Z)
  (rest : list (Value * Z)) :
  top_games_with_streams (fetch self) = inr categories ->
  categories <> [] ->
  by_bind (bind_clips (keys self)) w = Some kc ->
  by_bind (bind_videos (keys self)) w = Some kv ->
  k_code (w_keybinds w kc) <> k_code (w_keybinds w kv) ->
  w_answers w
  = (flat_map (fun v => [(VCategory (fst v), fst (snd v));
                         (VNone, snd (snd v))]) visits
     ++ (VNone, code) :: rest)%list ->
  let run := show_top_games number self kwargs w in
  fst run = Ok (Exit 1) /\
  w_answers (snd run) = rest /\
  w_keys (snd run) = [] /\
  forall k,
    k_hidden (w_keybinds (snd run) k)
    = if Nat.odd (List.length visits) && ((k =? kc)%nat || (k =? kv)%nat)
      then negb (k_hidden (w_keybinds w k))
      else k_hidden (w_keybinds w k).
Proof.
  intros Hf Hne Hc Hv Hcodes Ha run.
  set (w0 := log (EvFetch TopGamesWithStreams) w).
  set (nviewers := sumZ (map (total_viewers (w_items w))
                           (dict_values categories))).
  set (nchannels := fold_right Nat.add 0%nat
                      (map (channels_live (w_items w))
                         (dict_values categories))).
  assert (R : run = show_top_games_loop number self categories nviewers
                      nchannels [kc; kv] w0).
  { assert (G : forall b k,
               by_bind b w = Some k ->
               km_get_by_bind b (log (EvFetch TopGamesWithStreams) w)
               = (Ok k, log (EvFetch TopGamesWithStreams) w)).
    { intros b k Hb. rewrite km_get_by_bind_run.
      change (by_bind b (log (EvFetch TopGamesWithStreams) w))
        with (by_bind b w).
      now rewrite Hb. }
    unfold run, show_top_games.
    erewrite bind_ok by (apply fetched_ok; exact Hf).
    erewrite bind_ok by reflexivity.
    erewrite bind_ok; [reflexivity|].
    unfold km_get_by_bind_list. simpl map_m.
    erewrite bind_ok by (apply G; exact Hc).
    erewrite bind_ok; [reflexivity|].
    erewrite bind_ok by (apply G; exact Hv).
    reflexivity. }
  assert (Hkv : kc <> kv) by (intros ->; now apply Hcodes).
  assert (Hnd : NoDup (codes (w_keybinds w0) [kc; kv])).
  { change (w_keybinds w0) with (w_keybinds w). simpl.
    constructor; [simpl; intuition congruence|].
    constructor; [simpl; tauto | constructor]. }
  destruct (@show_top_games_visits categories nviewers nchannels [kc; kv]
              visits w0 ((VNone, code) :: rest) Hne Hnd Ha)
    as (w' & E & A & K).
  change (w_keybinds w0) with (w_keybinds w) in K.
  rewrite R, E. unfold show_top_games_loop.
  erewrite loop_return.
  2:{ eapply show_top_games_body_no_category; [exact A|].
      rewrite selected_nonempty by exact Hne. reflexivity. }
  simpl fst. simpl snd. split; [reflexivity|].
  split; [reflexivity|]. split; [reflexivity|].
  intros k. simpl w_keybinds. rewrite K.
  now apply toggled_pair_hidden.
Qed.
End Visits.

Lemma show_top_games_toggles_on_every_visit_witness :
  let run := show_top_games demo_number demo_app no_kwargs
               (demo_world
                  [(VCategory (mkCategory "Y" [("C", 2%nat)]), 0);
                   (VNone, 1); (VNone, 1)] []) in
  fst run = Ok (Exit 1) /\
  k_hidden (w_keybinds (snd run) 1%nat) = false /\
  k_hidden (w_keybinds (snd run) 2%nat) = false /\
  k_hidden (w_keybinds (snd run) 3%nat) = true.
Proof.
  pose proof (@show_top_games_toggles_on_every_visit demo_number demo_app
                no_kwargs demo_categories
                (demo_world
                   [(VCategory (mkCategory "Y" [("C", 2%nat)]), 0);
                    (VNone, 1); (VNone, 1)] [])
                2%nat 1%nat [(mkCategory "Y" [("C", 2%nat)], (0, 1))] 1 []
                eq_refl) as H.
  destruct H as (H1 & _ & _ & H4);
    [discriminate | reflexivity | reflexivity | discriminate | reflexivity|].
  split; [exact H1|].
  split; [exact (H4 1%nat)|]. split; [exact (H4 2%nat) | exact (H4 3%nat)].
Defined.

(** ** The search screens *)

(** *** The keybinds across the free-text input *)

Lemma hide_visible_run (k : ref) (w : World) :
  hide_visible k w
  = if k_hidden (w_keybinds w k) then (Ok tt, w)
    else (Ok tt,
          with_temp_hidden (fun l => (l ++ [k])%list)
            (with_keybinds
               (fun s => store_set k (set_hidden true (s k)) s) w)).
Proof.
  unfold hide_visible, bind, keybind, gets. cbv beta iota.
  destruct (k_hidden (w_keybinds w k)); reflexivity.
Qed.

Lemma existsb_not_in (k : ref) (l : list ref) :
  ~ In k l -> existsb (Nat.eqb k) l = false.
Proof.
  intros Hn. destruct (existsb (Nat.eqb k) l) eqn:E; [|reflexivity].
  apply existsb_exists in E. destruct E as (x & Hx & Ex).
  apply Nat.eqb_eq in Ex. subst x. contradiction.
Qed.

(** The first loop of [km.toggle_hidden] on the keybinds [l]: the visible
    ones are hidden and remembered, each once, and nothing else changes. *)
Lemma for_each_hide_visible (l : list ref) :
  forall w, exists w1 K,
    for_each hide_visible l w = (Ok tt, w1) /\
    w_temp_hidden w1 = (w_temp_hidden w ++ K)%list /\
    NoDup K /\
    (forall k, In k K -> k_hidden (w_keybinds w k) = false) /\
    (forall k,
       w_keybinds w1 k
       = if existsb (Nat.eqb k) K then set_hidden true (w_keybinds w k)
         else w_keybinds w k) /\
    (forall k, In k l -> k_hidden (w_keybinds w1 k) = true) /\
    w_keys w1 = w_keys w /\ w_inputs w1 = w_inputs w.
Proof.
  induction l as [|k0 l IH]; intros w.
  - exists w, []. simpl. rewrite app_nil_r.
    repeat split; try constructor; intros k []; contradiction.
  - cbn [for_each]. unfold bind at 1. rewrite hide_visible_run.
    destruct (k_hidden (w_keybinds w k0)) eqn:Hh.
    + destruct (IH w) as (w1 & K & E & HT & HND & HV & HK & HH & Hk & Hi).
      exists w1, K. split; [exact E|]. split; [exact HT|].
      split; [exact HND|]. split; [exact HV|]. split; [exact HK|].
      split; [|split; assumption].
      intros k [<- | Hin]; [|now apply HH].
      rewrite HK. destruct (existsb (Nat.eqb k0) K); [reflexivity|exact Hh].
    + set (w' := with_temp_hidden _ _).
      destruct (IH w') as (w1 & K & E & HT & HND & HV & HK & HH & Hk & Hi).
      assert (Hk0 : ~ In k0 K).
      { intros Hin. apply HV in Hin. unfold w' in Hin. simpl in Hin.
        unfold store_set in Hin. rewrite Nat.eqb_refl in Hin.
        discriminate. }
      exists w1, (k0 :: K). split; [exact E|].
      split; [rewrite HT; unfold w'; simpl; now rewrite <- app_assoc|].
      split; [now constructor|].
      split.
      { intros k [<- | Hin]; [exact Hh|].
        pose proof (HV k Hin) as Hv. unfold w' in Hv. simpl in Hv.
        unfold store_set in Hv.
        destruct (Nat.eqb_spec k k0) as [->|]; [contradiction | exact Hv]. }
      split.
      { intros k. rewrite HK. cbn [existsb]. unfold w'. simpl.
        unfold store_set.
        destruct (Nat.eqb_spec k k0) as [->|Hne].
        - rewrite (@existsb_not_in k0 K Hk0). reflexivity.
        - cbn [orb]. reflexivity. }
      split; [|split; assumption].
      intros k [<- | Hin]; [|now apply HH].
      rewrite HK, (@existsb_not_in k0 K Hk0). unfold w'. simpl.
      unfold store_set. now rewrite Nat.eqb_refl.
Qed.

(** When the keybinds [l] are hidden already, the loop changes nothing. *)
Lemma for_each_hide_hidden (l : list ref) (w : World) :
  (forall k, In k l -> k_hidden (w_keybinds w k) = true) ->
  for_each hide_visible l w = (Ok tt, w).
Proof.
  induction l as [|k0 l IH]; intros Hh; [reflexivity|].
  cbn [for_each]. unfold bind at 1. rewrite hide_visible_run.
  rewrite (Hh k0 (or_introl eq_refl)). apply IH.
  intros k Hin. apply Hh. now right.
Qed.

(** Toggling each keybind of a list without repetition. *)
Lemma toggled_NoDup (K : list ref) :
  forall store, NoDup K ->
    forall k,
      toggled store K k
      = if existsb (Nat.eqb k) K
        then set_hidden (negb (k_hidden (store k))) (store k)
        else store k.
Proof.
  induction K as [|k0 K IH]; intros store Hnd k; [reflexivity|].
  inversion Hnd as [|? ? Hk0 Hnd']; subst.
  change (toggled store (k0 :: K)) with (toggled (toggle k0 store) K).
  rewrite (IH (toggle k0 store) Hnd' k). cbn [existsb]. unfold toggle, store_set.
  destruct (Nat.eqb_spec k k0) as [->|Hne].
  - rewrite (@existsb_not_in k0 K Hk0). reflexivity.
  - reflexivity.
Qed.

Lemma km_toggle_hidden_unfold (restore : bool) (w : World) :
  km_toggle_hidden restore w
  = (for_each hide_visible (dict_values (w_keys w)) ;;
     if restore then
       temp <- gets w_temp_hidden ;;
       for_each kb_toggle temp ;;
       modify (with_temp_hidden (fun _ => []))
     else ret tt) w.
Proof. reflexivity. Qed.

(** [take_input] leaves every keybind as it was and remembers none, when
    none was remembered before. *)
Lemma take_input_keybinds (mesg prompt : string) (w : World)
  (input : option string) (rest : list (option string)) :
  w_temp_hidden w = [] ->
  w_inputs w = input :: rest ->
  exists w',
    snd (take_input mesg prompt w) = w' /\
    (forall k, w_keybinds w' k = w_keybinds w k) /\
    w_temp_hidden w' = [].
Proof.
  intros Ht Hi.
  destruct (for_each_hide_visible (dict_values (w_keys w)) w)
    as (w1 & K & E1 & HT & HND & HV & HK & HH & Hk & Hin).
  rewrite Ht in HT. simpl in HT.
  set (w2 := with_inputs rest (log (EvInput prompt mesg) w1)).
  assert (E2 : for_each hide_visible (dict_values (w_keys w2)) w2
               = (Ok tt, w2)).
  { apply for_each_hide_hidden. change (w_keys w2) with (w_keys w1).
    rewrite Hk. exact HH. }
  set (w3 := with_temp_hidden (fun _ => [])
               (with_keybinds (fun _ => toggled (w_keybinds w2) K) w2)).
  assert (R : take_input mesg prompt w
              = (match input with
                 | None => ret EmptyString
                 | Some EmptyString => ret EmptyString
                 | Some s => ret (strip s)
                 end) w3).
  { unfold take_input.
    erewrite bind_ok.
    2:{ rewrite km_toggle_hidden_unfold.
        erewrite bind_ok by exact E1. reflexivity. }
    erewrite bind_ok.
    2:{ unfold menu_input, bind, emit, modify. cbv beta iota.
        change (w_inputs (log (EvInput prompt mesg) w1))
          with (w_inputs w1).
        rewrite Hin, Hi. reflexivity. }
    fold w2.
    erewrite bind_ok.
    2:{ rewrite km_toggle_hidden_unfold.
        erewrite bind_ok by exact E2.
        erewrite bind_ok by reflexivity.
        change (w_temp_hidden w2) with (w_temp_hidden w1). rewrite HT.
        erewrite bind_ok by apply for_each_toggle_run.
        reflexivity. }
    reflexivity. }
  exists w3. split.
  { rewrite R. destruct input as [[|c s]|]; reflexivity. }
  split; [|reflexivity].
  intros k. change (w_keybinds w3 k) with (toggled (w_keybinds w2) K k).
  rewrite (@toggled_NoDup K (w_keybinds w2) HND k).
  change (w_keybinds w2) with (w_keybinds w1). rewrite HK.
  destruct (existsb (Nat.eqb k) K) eqn:Ek; [|reflexivity].
  apply existsb_exists in Ek. destruct Ek as (x & Hx & Ex).
  apply Nat.eqb_eq in Ex. subst x.
  pose proof (HV k Hx) as Hv.
  destruct (w_keybinds w k) as [b c h a]. simpl in *. now subst h.
Qed.

Lemma take_input_registry (mesg prompt : string) :
  respects (same (fun w => (w_items w, w_keys w, w_answers w, w_procs w,
                            w_player w)))
    (take_input mesg prompt).
Proof. frame. Qed.

(** The world after the free-text input of a search screen: the prompt has
    been recorded and the input taken, and nothing else has changed. *)
Lemma take_input_world (mesg prompt : string) (w : World) (s : string)
  (rest : list (option string)) :
  w_temp_hidden w = [] ->
  w_inputs w = Some s :: rest ->
  exists w',
    take_input mesg prompt w = (Ok (strip s), w') /\
    w_trace w' = (w_trace w ++ [EvInput prompt mesg])%list /\
    w_inputs w' = rest /\
    w_items w' = w_items w /\ w_keys w' = w_keys w /\
    w_answers w' = w_answers w /\
    (forall k, w_keybinds w' k = w_keybinds w k) /\
    w_temp_hidden w' = [] /\
    w_procs w' = w_procs w /\ w_player w' = w_player w.
Proof.
  intros Hte Hi.
  destruct (take_input_run mesg prompt w Hi) as (w' & E & Ht & Hr).
  pose proof (take_input_registry mesg prompt w) as F.
  rewrite E in F. unfold same in F. simpl in F.
  injection F as Hit Hk Ha Hp Hpl.
  destruct (take_input_keybinds mesg prompt w Hte Hi)
    as (w0 & E0 & Hkb & Hth).
  rewrite E in E0. simpl in E0. subst w0.
  exists w'. repeat split; assumption.
Qed.

(** X14: a search screen called without its text asks the user for it once
    and then goes on exactly as if it had been called with the trimmed text
    as its argument, in a world that differs from the first one by the
    recorded prompt and the taken input only: the items, the registered
    keybinds and their visibility, the pending answers of the menu and the
    player are as they were. No keybind may be remembered as temporarily
    hidden when the screen starts, as is the case between two screens. *)
Theorem typed_search_is_the_trimmed_argument (self : TwitchApp)
  (kwargs given : Kwargs) (w : World) (s : string)
  (rest : list (option string)) :
  w_temp_hidden w = [] ->
  w_inputs w = Some s :: rest ->
  strip s <> EmptyString ->
  (match kw_query kwargs with
   | None | Some EmptyString => True
   | _ => False
   end ->
   kw_query given = Some (strip s) ->
   exists w',
     show_by_query self kwargs w = show_by_query self given w' /\
     w_trace w'
     = (w_trace w
        ++ [EvInput "TwitchChannelSearch> "
              "Search <channels> by query"])%list /\
     w_inputs w' = rest /\
     w_items w' = w_items w /\ w_keys w' = w_keys w /\
     w_answers w' = w_answers w /\
     (forall k, w_keybinds w' k = w_keybinds w k) /\
     w_temp_hidden w' = [] /\
     w_procs w' = w_procs w /\ w_player w' = w_player w) /\
  (match kw_game kwargs with
   | None | Some EmptyString => True
   | _ => False
   end ->
   kw_game given = Some (strip s) ->
   exists w',
     show_by_game self kwargs w = show_by_game self given w' /\
     w_trace w'
     = (w_trace w
        ++ [EvInput "TwitchGameSearch> "
              "Search <games> or <categories>"])%list /\
     w_inputs w' = rest /\
     w_items w' = w_items w /\ w_keys w' = w_keys w /\
     w_answers w' = w_answers w /\
     (forall k, w_keybinds w' k = w_keybinds w k) /\
     w_temp_hidden w' = [] /\
     w_procs w' = w_procs w /\ w_player w' = w_player w).
Proof.
  intros Hte Hi Hs. split; intros Hk Hg.
  - destruct (take_input_world "Search <channels> by query"
                "TwitchChannelSearch> " w Hte Hi) as (w' & E & F).
    exists w'. split; [|exact F].
    unfold show_by_query. rewrite Hg.
    destruct (strip s) as [|c q] eqn:Eq; [congruence|].
    erewrite (bind_ok (ret (String c q))) by reflexivity.
    destruct (kw_query kwargs) as [[|c0 q0]|]; try contradiction;
      erewrite bind_ok by exact E; reflexivity.
  - destruct (take_input_world "Search <games> or <categories>"
                "TwitchGameSearch> " w Hte Hi) as (w' & E & F).
    exists w'. split; [|exact F].
    unfold show_by_game. rewrite Hg.
    destruct (strip s) as [|c q] eqn:Eq; [congruence|].
    erewrite (bind_ok (ret (String c q))) by reflexivity.
    destruct (kw_game kwargs) as [[|c0 q0]|]; try contradiction;
      erewrite bind_ok by exact E; reflexivity.
Qed.

Lemma typed_search_is_the_trimmed_argument_witness :
  exists w',
    show_by_query demo_app no_kwargs (demo_world [] [Some " ab "])
    = show_by_query demo_app
        (mkKwargs None None None (Some "ab") None None) w' /\
    w_trace w'
    = [EvInput "TwitchChannelSearch> " "Search <channels> by query"] /\
    k_hidden (w_keybinds w' 0%nat) = false.
Proof.
  destruct (proj1 (@typed_search_is_the_trimmed_argument demo_app no_kwargs
                     (mkKwargs None None None (Some "ab") None None)
                     (demo_world [] [Some " ab "]) " ab " [] eq_refl
                     eq_refl ltac:(discriminate)) I eq_refl)
    as (w' & E & T & _ & _ & _ & _ & K & _).
  exists w'. split; [exact E|]. split; [exact T|].
  rewrite K. reflexivity.
Defined.


